(** * Channel layout, label combiner and permutation appliers of
      [instanceseg] (gchoi/fcn-instances-pytorch)

    A shallow embedding of

    - [instanceseg/utils/instance_utils.py]: [InstanceProblemConfig],
      [get_semantic_instance_class_list], [get_instance_count_id_list],
      [combine_semantic_and_instance_labels], [permute_scores],
      [permute_labels], the channel labels;
    - [instanceseg/train/trainer.py]: [Trainer.compute_loss],
      [Trainer.train_iteration], [debug_check_values_are_valid],
      [TrainingState], [Trainer.train], [Trainer.train_epoch],
      [Trainer.validate_all_splits];
    - [instanceseg/train/trainer_exporter.py]:
      [TrainerExporter.gt_tuple_to_combined],
      [TrainerExporter.compute_eval_metrics].

    Python integers are [Z] and Python lists are [list].  A numpy / torch
    integer array is a shape together with its row-major contents; its cells
    are taken to be signed and wide enough for the void value and the channel
    indices (the loaders produce int32 / int64 label maps), so no wrap-around
    occurs.  A score tensor is its four sizes and its indexing function.  A
    raised exception is the [Raise] branch of [result]; the statements of the
    trainer additionally leave a trace of events. *)

From Stdlib Require Import String ZArith List Lia Bool Arith Sorted.
From Stdlib Require Import Floats.SpecFloat.
From Stdlib Require DecimalString DecimalZ.
Import ListNotations.

Set Implicit Arguments.
Local Open Scope Z_scope.

(* ================================================================== *)
(** ** Python exceptions and the error monad                           *)
(* ================================================================== *)

(** The exception classes that the modelled code can raise.  [ShapeError]
    stands for the error numpy / torch raise when a value cannot be
    broadcast into the indexed slot (a [ValueError] in numpy, a
    [RuntimeError] in torch); [UninitialisedRead] marks a read of a cell of
    [np.empty] that was never written, which Python would answer with an
    arbitrary number. *)
Inductive exn : Type :=
| AssertionError
| IndexError
| ValueError
| NotImplementedError
| ShapeError
| UninitialisedRead
| Exception.

Inductive result (A : Type) : Type :=
| Ok (a : A)
| Raise (e : exn).

Arguments Ok {A} a.
Arguments Raise {A} e.

Definition bind {A B} (m : result A) (k : A -> result B) : result B :=
  match m with
  | Ok a => k a
  | Raise e => Raise e
  end.

Declare Scope py_scope.
Delimit Scope py_scope with py.
Notation "x <- m ;; k" := (bind m (fun x => k))
  (at level 61, m at next level, right associativity) : py_scope.
Notation "'assert' b ;; k" := (if b then k else Raise AssertionError)
  (at level 61, b at next level, right associativity) : py_scope.
Local Open Scope py_scope.

(** A [for] loop whose body may raise: the accumulator is threaded through,
    the first exception aborts the loop. *)
Fixpoint for_each {A S} (l : list A) (body : S -> A -> result S) (s : S)
  : result S :=
  match l with
  | [] => Ok s
  | x :: l' => s' <- body s x ;; for_each l' body s'
  end.

(** [enumerate(l)]. *)
Definition enumerate {A} (l : list A) : list (nat * A) :=
  combine (seq 0 (length l)) l.

(** [l[i]] on a Python list: negative indices count from the end, anything
    outside [-len, len) raises [IndexError]. *)
Definition py_getitem {A} (l : list A) (i : Z) : result A :=
  let n := Z.of_nat (length l) in
  let j := if i <? 0 then i + n else i in
  if (0 <=? j) && (j <? n) then
    match nth_error l (Z.to_nat j) with
    | Some a => Ok a
    | None => Raise IndexError
    end
  else Raise IndexError.

(* ================================================================== *)
(** ** numpy helpers                                                   *)
(* ================================================================== *)

(** An integer array: its shape and its contents in row-major order. *)
Record ndarray : Type := mk_ndarray {
  shape : list nat;
  data : list Z
}.

(** Number of cells a shape describes. *)
Definition numel (sh : list nat) : nat := fold_right Nat.mul 1%nat sh.

(** The arrays numpy can build: as many cells as the shape says. *)
Definition well_formed (a : ndarray) : Prop :=
  length (data a) = numel (shape a).

Definition shape_eqb (s1 s2 : list nat) : bool :=
  if list_eq_dec Nat.eq_dec s1 s2 then true else false.

(** [a == v] for a scalar [v]: the boolean mask. *)
Definition eq_scalar (a : list Z) (v : Z) : list bool :=
  map (fun x => x =? v) a.

(** [m1 * m2] on boolean masks (elementwise conjunction). *)
Fixpoint mask_mul (m1 m2 : list bool) : list bool :=
  match m1, m2 with
  | b1 :: m1', b2 :: m2' => (b1 && b2) :: mask_mul m1' m2'
  | _, _ => []
  end.

(** [int(sum(mask))]. *)
Definition mask_sum (m : list bool) : nat := length (filter (fun b => b) m).

(** [arr[mask] = v] for a scalar [v]. *)
Fixpoint setitem_mask {A} (arr : list A) (mask : list bool) (v : A) : list A :=
  match arr, mask with
  | a :: arr', m :: mask' => (if m then v else a) :: setitem_mask arr' mask' v
  | _, _ => arr
  end.

(** [arr[mask] = vals] for a 1-d array [vals] with one value per selected
    cell, consumed in order. *)
Fixpoint scatter_mask {A} (arr : list A) (mask : list bool) (vals : list A)
  : list A :=
  match arr, mask with
  | a :: arr', true :: mask' =>
      match vals with
      | v :: vals' => v :: scatter_mask arr' mask' vals'
      | [] => arr
      end
  | a :: arr', false :: mask' => a :: scatter_mask arr' mask' vals
  | _, _ => arr
  end.

(** numpy accepts [arr[mask] = vals] when [vals] has one element (it is
    broadcast) or exactly as many as the mask selects, and raises
    otherwise. *)
Definition setitem_mask_array {A} (arr : list A) (mask : list bool)
    (vals : list A) : result (list A) :=
  match vals with
  | [v] => Ok (setitem_mask arr mask v)
  | _ => if Nat.eqb (length vals) (mask_sum mask)
         then Ok (scatter_mask arr mask vals)
         else Raise ShapeError
  end.

(** [np.unique]: the sorted distinct values. *)
Fixpoint insert_unique (x : Z) (l : list Z) : list Z :=
  match l with
  | [] => [x]
  | y :: l' =>
      if x <? y then x :: l
      else if x =? y then l
      else y :: insert_unique x l'
  end.

Definition np_unique (l : list Z) : list Z := fold_right insert_unique [] l.

(** [np.unique(l, return_counts=True)], zipped. *)
Definition np_unique_counts (l : list Z) : list (Z * nat) :=
  map (fun v => (v, count_occ Z.eq_dec l v)) (np_unique l).

(** [np.arange(n)]. *)
Definition np_arange (n : nat) : list Z := map Z.of_nat (seq 0 n).

(** [np.empty((n,))]: [n] cells of unspecified content.  A cell that was
    never written is [None]. *)
Definition np_empty (n : nat) : list (option Z) := repeat None n.

(** [arr.astype(int).tolist()] on an array made by [np_empty]: reading a
    cell that was never written has no defined value. *)
Fixpoint astype_int_tolist (arr : list (option Z)) : option (list Z) :=
  match arr with
  | [] => Some []
  | Some v :: arr' => option_map (cons v) (astype_int_tolist arr')
  | None :: _ => None
  end.

(* ================================================================== *)
(** ** instance_utils.py: the channel layout                           *)
(* ================================================================== *)

(** [[sem_cls for sem_cls, n_channels in enumerate(n_channels_by_semantic_id)
      for _ in range(n_channels)]]; [range] of a non-positive count is
    empty. *)
Definition get_semantic_instance_class_list (n_channels_by_semantic_id : list Z)
  : list Z :=
  flat_map (fun '(sem_cls, n_channels) =>
              repeat (Z.of_nat sem_cls) (Z.to_nat n_channels))
           (enumerate n_channels_by_semantic_id).

(** The default [non_instance_sem_classes=(0,)]. *)
Definition default_non_instance_sem_classes : list Z := [0].

(** The body of the loop over [unique_semantic_classes]. *)
Definition instance_count_step (semantic_instance_class_list : list Z)
    (non_instance_sem_classes : list Z) (include_channel0 : bool)
    (instance_count_id_arr : list (option Z)) (sem_cls : Z)
  : result (list (option Z)) :=
  let sem_cls_locs := eq_scalar semantic_instance_class_list sem_cls in
  if existsb (Z.eqb sem_cls) non_instance_sem_classes then
    assert (Nat.eqb (mask_sum sem_cls_locs) 1) ;;
    Ok (setitem_mask instance_count_id_arr sem_cls_locs (Some 0))
  else
    setitem_mask_array instance_count_id_arr sem_cls_locs
      (map (fun k => Some (k + (if include_channel0 then 0 else 1)))
           (np_arange (mask_sum sem_cls_locs))).

Definition get_instance_count_id_list (semantic_instance_class_list : list Z)
    (non_instance_sem_classes : list Z) (include_channel0 : bool)
  : result (list Z) :=
  let unique_semantic_classes := np_unique semantic_instance_class_list in
  let instance_count_id_arr := np_empty (length semantic_instance_class_list) in
  arr <- for_each unique_semantic_classes
           (instance_count_step semantic_instance_class_list
              non_instance_sem_classes include_channel0)
           instance_count_id_arr ;;
  match astype_int_tolist arr with
  | Some l => Ok l
  | None => Raise UninitialisedRead
  end.

(* ================================================================== *)
(** ** instance_utils.py: the label combiner                           *)
(* ================================================================== *)

(** [[i for i, s in enumerate(semantic_instance_class_list) if s == sem_val]]. *)
Definition sem_inst_idxs_of (semantic_instance_class_list : list Z)
    (sem_val : Z) : list nat :=
  map fst (filter (fun '(_, s) => s =? sem_val)
                  (enumerate semantic_instance_class_list)).

(** The body of the inner loop: one masked assignment
    [y[(sem_lbl == int(sem_val)) * (inst_lbl == int(inst_val))] = sem_inst_idx].
    The lookup of [inst_val] sits outside the [try]; the [except] clause only
    re-raises. *)
Definition combine_channel (sem_lbl inst_lbl : list Z)
    (instance_count_id_list : list Z) (sem_val : Z)
    (y : list Z) (sem_inst_idx : nat) : result (list Z) :=
  inst_val <- py_getitem instance_count_id_list (Z.of_nat sem_inst_idx) ;;
  Ok (setitem_mask y
        (mask_mul (eq_scalar sem_lbl sem_val) (eq_scalar inst_lbl inst_val))
        (Z.of_nat sem_inst_idx)).

Definition combine_semantic_and_instance_labels (sem_lbl inst_lbl : ndarray)
    (semantic_instance_class_list instance_count_id_list : list Z)
    (set_extras_to_void : bool) (void_value : Z) : result ndarray :=
  assert set_extras_to_void ;;
  assert (shape_eqb (shape sem_lbl) (shape inst_lbl)) ;;
  let y := map (fun _ => void_value) (data inst_lbl) in
  y' <- for_each (np_unique_counts semantic_instance_class_list)
          (fun y '(sem_val, n_instances_for_this_sem_cls) =>
             for_each (sem_inst_idxs_of semantic_instance_class_list sem_val)
               (combine_channel (data sem_lbl) (data inst_lbl)
                  instance_count_id_list sem_val)
               y)
          y ;;
  Ok (mk_ndarray (shape inst_lbl) y').

(** The default [void_value=-1]. *)
Definition default_void_value : Z := -1.

(* ================================================================== *)
(** ** instance_utils.py: the instance-to-semantic mapping matrix      *)
(* ================================================================== *)

(** [max(l)] on a Python list: [ValueError] on the empty list. *)
Definition py_max (l : list Z) : result Z :=
  match l with
  | [] => Raise ValueError
  | x :: l' => Ok (fold_left Z.max l' x)
  end.

(** [torch.zeros((r, c))] as a list of rows. *)
Definition zeros (r c : nat) : list (list Z) := repeat (repeat 0 c) r.

(** [l[i] = v] on a sequence, with Python's treatment of the index. *)
Definition py_setitem {A} (l : list A) (i : Z) (v : A) : result (list A) :=
  let n := Z.of_nat (length l) in
  let j := if i <? 0 then i + n else i in
  if (0 <=? j) && (j <? n) then
    Ok (firstn (Z.to_nat j) l ++ v :: skipn (Datatypes.S (Z.to_nat j)) l)
  else Raise IndexError.

(** [m[i, j] = v]. *)
Definition setitem2 (m : list (list Z)) (i j : Z) (v : Z)
  : result (list (list Z)) :=
  row <- py_getitem m i ;;
  row' <- py_setitem row j v ;;
  py_setitem m i row'.

(** With the default [compose_transposed=True] the matrix is S x N and
    holds a 1 at [semantic_idx, instance_idx] for every channel. *)
Definition get_instance_to_semantic_mapping_from_sem_inst_class_list
    (semantic_instance_class_list : list Z) (compose_transposed : bool)
  : result (list (list Z)) :=
  let n_instance_classes := length semantic_instance_class_list in
  m <- py_max semantic_instance_class_list ;;
  let n_semantic_classes := Z.to_nat (m + 1) in
  if negb compose_transposed then
    for_each (enumerate semantic_instance_class_list)
      (fun mat '(instance_idx, semantic_idx) =>
         setitem2 mat (Z.of_nat instance_idx) semantic_idx 1)
      (zeros n_instance_classes n_semantic_classes)
  else
    for_each (enumerate semantic_instance_class_list)
      (fun mat '(instance_idx, semantic_idx) =>
         setitem2 mat semantic_idx (Z.of_nat instance_idx) 1)
      (zeros n_semantic_classes n_instance_classes).

Definition get_instance_to_semantic_mapping (n_instances_by_semantic_id : list Z)
  : result (list (list Z)) :=
  get_instance_to_semantic_mapping_from_sem_inst_class_list
    (get_semantic_instance_class_list n_instances_by_semantic_id) true.

(* ================================================================== *)
(** ** instance_utils.py: [InstanceProblemConfig]                      *)
(* ================================================================== *)

(** The attributes that [__init__] assigns.  The 1x1 convolution is a torch
    module; only the channel counts it is built with are kept. *)
Record InstanceProblemConfig : Type := mk_config {
  map_to_semantic : bool;
  semantic_class_names : option (list string);
  semantic_vals : list Z;
  void_value : Z;
  include_instance_channel0 : bool;
  n_instances_by_semantic_id : list Z;
  model_n_instances_by_semantic_id : list Z;
  model_semantic_instance_class_list : list Z;
  semantic_instance_class_list : list Z;
  n_semantic_classes : nat;
  n_classes : nat;
  sem_ids_by_instance_id : list Z;
  instance_count_id_list : list Z;
  model_instance_count_id_list : list Z;
  instance_to_semantic_mapping_matrix : list (list Z);
  instance_to_semantic_conv1x1 : nat * nat
}.

(** [range(n)]. *)
Definition py_range (n : nat) : list Z := map Z.of_nat (seq 0 n).

(** [InstanceProblemConfig.__init__].  [n_instances_by_semantic_id] is a
    list, so the assertion that it is not [None] holds by typing.
    [semantic_vals or range(...)] takes the range when [semantic_vals] is
    [None] or empty. *)
Definition InstanceProblemConfig_init (n_instances_by_semantic_id0 : list Z)
    (semantic_class_names0 : option (list string))
    (semantic_vals0 : option (list Z)) (void_value0 : Z)
    (include_instance_channel00 map_to_semantic0 : bool)
  : result InstanceProblemConfig :=
  assert (match semantic_vals0 with
          | Some sv => Nat.eqb (length sv) (length n_instances_by_semantic_id0)
          | None => true
          end) ;;
  let semantic_vals1 :=
    match semantic_vals0 with
    | Some (v :: sv) => v :: sv
    | _ => py_range (length n_instances_by_semantic_id0)
    end in
  let n_instances1 :=
    if negb map_to_semantic0 then n_instances_by_semantic_id0
    else map (fun _ => 1) n_instances_by_semantic_id0 in
  let model_n_instances1 :=
    if negb map_to_semantic0 then n_instances_by_semantic_id0
    else map (fun _ => 1) n_instances_by_semantic_id0 in
  let model_sicl := get_semantic_instance_class_list n_instances_by_semantic_id0 in
  let sicl := get_semantic_instance_class_list n_instances1 in
  let n_semantic_classes1 := length semantic_vals1 in
  let n_classes1 :=
    if negb map_to_semantic0 then length model_sicl else n_semantic_classes1 in
  let sem_ids :=
    flat_map (fun '(id_into_sem_vals, n_inst) =>
                repeat (Z.of_nat id_into_sem_vals) (Z.to_nat n_inst))
             (enumerate n_instances1) in
  icil <- get_instance_count_id_list sicl default_non_instance_sem_classes
            include_instance_channel00 ;;
  model_icil <- get_instance_count_id_list model_sicl
                  default_non_instance_sem_classes include_instance_channel00 ;;
  matrix <- get_instance_to_semantic_mapping model_n_instances1 ;;
  Ok {| map_to_semantic := map_to_semantic0;
        semantic_class_names := semantic_class_names0;
        semantic_vals := semantic_vals1;
        void_value := void_value0;
        include_instance_channel0 := include_instance_channel00;
        n_instances_by_semantic_id := n_instances1;
        model_n_instances_by_semantic_id := model_n_instances1;
        model_semantic_instance_class_list := model_sicl;
        semantic_instance_class_list := sicl;
        n_semantic_classes := n_semantic_classes1;
        n_classes := n_classes1;
        sem_ids_by_instance_id := sem_ids;
        instance_count_id_list := icil;
        model_instance_count_id_list := model_icil;
        instance_to_semantic_mapping_matrix := matrix;
        instance_to_semantic_conv1x1 := (length model_sicl, n_semantic_classes1) |}.

(** A method that may assign attributes of [self] returns the object after
    the call together with its outcome; an exception leaves the object as the
    statements before it made it. *)
Definition set_class_names (class_names : option (list string))
    (self : InstanceProblemConfig) : InstanceProblemConfig * result unit :=
  if match class_names with
     | None => true
     | Some names => Nat.eqb (length names) (n_semantic_classes self)
     end
  then
    ({| map_to_semantic := map_to_semantic self;
        semantic_class_names := class_names;
        semantic_vals := semantic_vals self;
        void_value := void_value self;
        include_instance_channel0 := include_instance_channel0 self;
        n_instances_by_semantic_id := n_instances_by_semantic_id self;
        model_n_instances_by_semantic_id := model_n_instances_by_semantic_id self;
        model_semantic_instance_class_list := model_semantic_instance_class_list self;
        semantic_instance_class_list := semantic_instance_class_list self;
        n_semantic_classes := n_semantic_classes self;
        n_classes := n_classes self;
        sem_ids_by_instance_id := sem_ids_by_instance_id self;
        instance_count_id_list := instance_count_id_list self;
        model_instance_count_id_list := model_instance_count_id_list self;
        instance_to_semantic_mapping_matrix := instance_to_semantic_mapping_matrix self;
        instance_to_semantic_conv1x1 := instance_to_semantic_conv1x1 self |},
     Ok tt)
  else (self, Raise AssertionError).

Definition decouple_instance_result {T} (instance_scores : T)
    (self : InstanceProblemConfig) : InstanceProblemConfig * result unit :=
  (self, Raise NotImplementedError).

(* ================================================================== *)
(** ** Score tensors                                                    *)
(* ================================================================== *)

(** A 4-d tensor of shape (batch, channels, H, W): its four sizes and the
    value at each index.  Only indices inside the sizes are meaningful. *)
Record tensor4 (V : Type) : Type := mk_tensor4 {
  size0 : nat;
  size1 : nat;
  size2 : nat;
  size3 : nat;
  item : nat -> nat -> nat -> nat -> V
}.

Arguments mk_tensor4 {V} _ _ _ _ _.

(** All values of a tensor, in row-major order. *)
Definition elements {V} (t : tensor4 V) : list V :=
  flat_map (fun b =>
    flat_map (fun c =>
      flat_map (fun h =>
        map (fun w => item t b c h w) (seq 0 (size3 t)))
        (seq 0 (size2 t)))
      (seq 0 (size1 t)))
    (seq 0 (size0 t)).

(** The scores of all channels at one pixel of one image. *)
Definition channel_vector {V} (t : tensor4 V) (b h w : nat) : list V :=
  map (fun c => item t b c h w) (seq 0 (size1 t)).

Fixpoint map_result {A B} (f : A -> result B) (l : list A) : result (list B) :=
  match l with
  | [] => Ok []
  | x :: l' => y <- f x ;; ys <- map_result f l' ;; Ok (y :: ys)
  end.

(** An index into an axis of length [n], the way numpy and torch read it. *)
Definition normalize_index (n : nat) (i : Z) : result nat :=
  let j := if i <? 0 then i + Z.of_nat n else i in
  if (0 <=? j) && (j <? Z.of_nat n) then Ok (Z.to_nat j) else Raise IndexError.

(** [perms[:, ch]] for a 2-d integer array given by its rows. *)
Definition column (perms : list (list Z)) (ch : nat) : result (list Z) :=
  map_result (fun row => py_getitem row (Z.of_nat ch)) perms.

(** [score[:, idx, :, :]] for a 1-d integer index [idx]: advanced indexing
    along the channel axis, of shape (batch, len(idx), H, W). *)
Definition index_channels {V} (score : tensor4 V) (idx : list Z)
  : result (tensor4 V) :=
  js <- map_result (normalize_index (size1 score)) idx ;;
  Ok (mk_tensor4 (size0 score) (length js) (size2 score) (size3 score)
        (fun b k h w => item score b (nth k js 0%nat) h w)).

(** An axis of length [n_val] can fill an axis of length [n_dst] when the
    lengths agree or [n_val] is 1. *)
Definition broadcastable (n_val n_dst : nat) : bool :=
  Nat.eqb n_val n_dst || Nat.eqb n_val 1.

Definition broadcast_index (n_val i : nat) : nat :=
  if Nat.eqb n_val 1 then 0%nat else i.

(** [dst[:, ch, :, :] = val] for a 4-d [val].  The slot has shape
    (batch, H, W); [val] fits when its leading axis has length 1 and its
    three other axes broadcast to the slot. *)
Definition setitem_channel {V} (dst : tensor4 V) (ch : nat) (val : tensor4 V)
  : result (tensor4 V) :=
  if Nat.eqb (size0 val) 1
     && broadcastable (size1 val) (size0 dst)
     && broadcastable (size2 val) (size2 dst)
     && broadcastable (size3 val) (size3 dst)
  then
    Ok (mk_tensor4 (size0 dst) (size1 dst) (size2 dst) (size3 dst)
          (fun b c h w =>
             if Nat.eqb c ch
             then item val 0%nat (broadcast_index (size1 val) b)
                       (broadcast_index (size2 val) h)
                       (broadcast_index (size3 val) w)
             else item dst b c h w))
  else Raise ShapeError.

(* ================================================================== *)
(** ** instance_utils.py: the permutation appliers                     *)
(* ================================================================== *)

Definition permute_scores {V} (score : tensor4 V)
    (pred_permutations : list (list Z)) : result (tensor4 V) :=
  let score_permuted_to_match := score in
  for_each (seq 0 (size1 score))
    (fun score_permuted_to_match ch =>
       idx <- column pred_permutations ch ;;
       val <- index_channels score idx ;;
       setitem_channel score_permuted_to_match ch val)
    score_permuted_to_match.

(** One pass of the inner loop of [permute_labels]: the mask is taken on
    the label array that was passed in, the assignment goes to the copy. *)
Definition permute_labels_row (label_preds : list Z)
    (label_preds_permuted : list Z) (permutation : list Z) : list Z :=
  fold_left (fun acc '(new_channel, old_channel) =>
               setitem_mask acc (eq_scalar label_preds old_channel)
                            (Z.of_nat new_channel))
            (enumerate permutation) label_preds_permuted.

Definition permute_labels (label_preds : ndarray) (permutations : list (list Z))
  : ndarray :=
  mk_ndarray (shape label_preds)
    (fold_left (permute_labels_row (data label_preds)) permutations
               (data label_preds)).

(** The channel-wise argmax ([score.data.max(1)[1]], [np.argmax(sp, axis=0)]):
    the first index that holds the largest score. *)
Section Argmax.
Variable V : Type.
Variable ltb : V -> V -> bool.

Fixpoint argmax_from (best : nat) (vbest : V) (i : nat) (l : list V) : nat :=
  match l with
  | [] => best
  | x :: l' =>
      if ltb vbest x then argmax_from i x (Datatypes.S i) l'
      else argmax_from best vbest (Datatypes.S i) l'
  end.

Definition argmax (l : list V) : result nat :=
  match l with
  | [] => Raise ValueError
  | x :: l' => Ok (argmax_from 0%nat x 1%nat l')
  end.

Definition argmax_at (t : tensor4 V) (b h w : nat) : result Z :=
  a <- argmax (channel_vector t b h w) ;; Ok (Z.of_nat a).
End Argmax.

(* ================================================================== *)
(** ** trainer.py                                                      *)
(* ================================================================== *)

(** What a call leaves behind, in order.  [EvInstLblAssign a] is the
    in-place update of the caller's [inst_lbl] to [a]. *)
Inductive event : Type :=
| EvZeroGrad
| EvForward
| EvInstLblAssign (a : ndarray)
| EvLossFcn
| EvPrintWarning (loss : spec_float) (iteration : nat)
| EvBackward
| EvOptimStep.

(** A statement of the trainer: the events it emitted and how it ended. *)
Definition io (A : Type) : Type := list event * result A.

Definition ret {A} (a : A) : io A := ([], Ok a).
Definition raise {A} (e : exn) : io A := ([], Raise e).
Definition emit (ev : event) : io unit := ([ev], Ok tt).
Definition lift {A} (r : result A) : io A := ([], r).

Definition io_bind {A B} (m : io A) (k : A -> io B) : io B :=
  match m with
  | (evs, Ok a) => let '(evs', r) := k a in (evs ++ evs', r)
  | (evs, Raise e) => (evs, Raise e)
  end.

Declare Scope io_scope.
Delimit Scope io_scope with io.
Notation "x <-- m ;; k" := (io_bind m (fun x => k))
  (at level 61, m at next level, right associativity) : io_scope.
Notation "' pat <-- m ;; k" := (io_bind m (fun x => match x with pat => k end))
  (at level 61, pat pattern, m at next level, right associativity) : io_scope.
Notation "m ;;; k" := (io_bind m (fun _ => k))
  (at level 61, right associativity) : io_scope.

Definition is_finite (x : spec_float) : bool :=
  match x with
  | S754_zero _ | S754_finite _ _ _ => true
  | S754_infinity _ | S754_nan => false
  end.

(** Modelled from the spec: [instanceseg.models.model_utils.is_nan] is not
    among the sources.  The numerical-validity contract says the check
    fails when the loss holds a non-finite value. *)
Definition is_nan (x : spec_float) : bool := negb (is_finite x).

(** Modelled from the spec: [instanceseg.models.model_utils.any_nan] is not
    among the sources.  The numerical-validity contract says the check
    fails when the score tensor contains a non-finite value. *)
Definition any_nan (t : tensor4 spec_float) : bool :=
  existsb is_nan (elements t).

(** The literal [1e4] as a binary64 number. *)
Definition float_1e4 : spec_float := S754_finite false 5497558138880000 (-39).

Definition debug_check_values_are_valid (loss : spec_float)
    (score : tensor4 spec_float) (iteration : nat) : io unit :=
  ((if is_nan loss then raise ValueError else ret tt) ;;;
   (if SFltb float_1e4 loss then emit (EvPrintWarning loss iteration)
    else ret tt) ;;;
   (if any_nan score then raise ValueError else ret tt))%io.

(** What the data loader hands over: a pair of label maps, or the semantic
    map alone.  Where the code tells a tuple from a list
    ([type(target) is not tuple]), [TargetPair] is the tuple. *)
Inductive target : Type :=
| TargetPair (sem_lbl inst_lbl : ndarray)
| TargetSemantic (sem_lbl : ndarray).

Section Trainer.
(** The collaborators of the trainer that live outside the modelled
    files: the network, the loss objects, the input augmentation, the
    division of the loss tensor by the batch size, and the statements of
    [train_iteration] that follow [optim.step()] (gradient histograms,
    loss updates, exporter). *)
Variables image permutations components : Type.
Variable model_forward : image -> tensor4 spec_float.
Variable loss_fcn eval_loss_fcn_with_matching :
  tensor4 spec_float -> ndarray -> ndarray ->
  result (permutations * spec_float * components).
Variable augment_image : image -> ndarray -> image.
Variable tensor_div : spec_float -> nat -> spec_float.
Variable after_optim_step : io unit.

Record Trainer : Type := mk_trainer {
  model_training : bool;
  instance_problem : InstanceProblemConfig;
  state_iteration : nat;
  loader_semantic_lbl_only : bool;
  use_semantic_loss : bool;
  augment_input_with_semantic_masks : bool
}.

(** [inst_lbl = torch.zeros_like(sem_lbl); inst_lbl[sem_lbl == -1] = -1]. *)
Definition zero_instances (sem_lbl : ndarray) : ndarray :=
  mk_ndarray (shape sem_lbl)
    (setitem_mask (map (fun _ => 0) (data sem_lbl))
                  (eq_scalar (data sem_lbl) (-1)) (-1)).

(** [Trainer.prepare_data_for_forward_pass].  A lone tensor handed over by
    a loader of pairs is taken not to unpack into two label maps (it would
    when its first axis has length 2). *)
Definition prepare_data_for_forward_pass (self : Trainer) (img_data : image)
    (tgt : target) : result (image * ndarray * ndarray) :=
  labels <-
    (if negb (loader_semantic_lbl_only self) then
       match tgt with
       | TargetPair sem_lbl inst_lbl => Ok (sem_lbl, inst_lbl)
       | TargetSemantic _ => Raise ValueError
       end
     else
       assert (use_semantic_loss self) ;;
       match tgt with
       | TargetPair _ _ => Raise AssertionError
       | TargetSemantic sem_lbl => Ok (sem_lbl, zero_instances sem_lbl)
       end) ;;
  let '(sem_lbl, inst_lbl) := labels in
  let full_input :=
    if negb (augment_input_with_semantic_masks self) then img_data
    else augment_image img_data sem_lbl in
  Ok (full_input, sem_lbl, inst_lbl).

(** [inst_lbl[inst_lbl > 1] = 1]. *)
Definition clamp_instances (inst_lbl : ndarray) : ndarray :=
  mk_ndarray (shape inst_lbl)
    (map (fun x => if 1 <? x then 1 else x) (data inst_lbl)).

(** [Trainer.compute_loss].  The chained comparison first compares the two
    label shapes and then the label shape with
    [(score.size(0), score.size(2), score.size(3))]. *)
Definition compute_loss (self : Trainer) (score : tensor4 spec_float)
    (sem_lbl inst_lbl : ndarray) (val_matching_override : bool)
  : io (permutations * spec_float * components) :=
  let map_to_semantic := map_to_semantic (instance_problem self) in
  if negb (shape_eqb (shape sem_lbl) (shape inst_lbl)
           && shape_eqb (shape inst_lbl)
                        [size0 score; size2 score; size3 score])
  then raise Exception
  else
    (inst_lbl' <-- (if map_to_semantic
                    then emit (EvInstLblAssign (clamp_instances inst_lbl)) ;;;
                         ret (clamp_instances inst_lbl)
                    else ret inst_lbl) ;;
     let chosen_loss_fcn :=
       if negb val_matching_override then loss_fcn
       else eval_loss_fcn_with_matching in
     emit EvLossFcn ;;;
     '(permutations, total_loss, loss_components) <--
        lift (chosen_loss_fcn score sem_lbl inst_lbl') ;;
     let avg_loss := tensor_div total_loss (size0 score) in
     ret (permutations, avg_loss, loss_components))%io.

Definition train_iteration (self : Trainer) (img_data : image) (tgt : target)
  : io unit :=
  if negb (model_training self) then raise AssertionError
  else
    ('(full_input, sem_lbl, inst_lbl) <--
        lift (prepare_data_for_forward_pass self img_data tgt) ;;
     emit EvZeroGrad ;;;
     emit EvForward ;;;
     let score := model_forward full_input in
     '(pred_permutations, loss, loss_components) <--
        compute_loss self score sem_lbl inst_lbl false ;;
     debug_check_values_are_valid loss score (state_iteration self) ;;;
     emit EvBackward ;;;
     emit EvOptimStep ;;;
     after_optim_step)%io.
End Trainer.

(* ================================================================== *)
(** ** trainer_exporter.py: the ground truth of the metrics            *)
(* ================================================================== *)

(** [TrainerExporter.gt_tuple_to_combined]: the combiner on the layout of
    the exporter's [instance_problem], with the combiner's own defaults
    ([set_extras_to_void=True], [void_value=-1]). *)
Definition gt_tuple_to_combined (instance_problem0 : InstanceProblemConfig)
    (sem_lbl inst_lbl : ndarray) : result ndarray :=
  let semantic_instance_class_list0 :=
    semantic_instance_class_list instance_problem0 in
  let instance_count_id_list0 := instance_count_id_list instance_problem0 in
  combine_semantic_and_instance_labels sem_lbl inst_lbl
    semantic_instance_class_list0 instance_count_id_list0
    true default_void_value.

Section EvalMetrics.
(** [instanceseg.utils.misc.label_accuracy_score] lives outside the
    modelled files. *)
Variable metrics : Type.
Variable label_accuracy_score :
  list ndarray -> list ndarray -> nat -> result metrics.

(** [TrainerExporter.compute_eval_metrics] with the default
    [single_batch=False]; [permutations] is [None] or a list of permutation
    arrays, on which the assertion on its type holds. *)
Definition compute_eval_metrics (instance_problem0 : InstanceProblemConfig)
    (label_trues label_preds : list ndarray)
    (permutations : option (list (list (list Z)))) : result metrics :=
  let label_preds_permuted :=
    match permutations with
    | Some permutations' =>
        map (fun '(label_pred, perms) => permute_labels label_pred perms)
            (combine label_preds permutations')
    | None => label_preds
    end in
  label_accuracy_score label_trues label_preds_permuted
    (n_classes instance_problem0).
End EvalMetrics.

(* ================================================================== *)
(** ** instance_utils.py: channel labels                               *)
(* ================================================================== *)

(** What is handed to [str.format]: an integer or a string. *)
Inductive format_arg : Type :=
| ArgInt (z : Z)
| ArgStr (s : string).

(** [str(a)]: an integer in decimal, a string as it is. *)
Definition py_str (a : format_arg) : string :=
  match a with
  | ArgInt z => DecimalString.NilEmpty.string_of_int (Z.to_int z)
  | ArgStr s => s
  end.

(** A format string is given by what its [format] does with two arguments,
    which may raise.  The default ['{}_{}'] joins them with an underscore. *)
Definition default_sem_inst_format (a b : format_arg) : result string :=
  Ok (py_str a ++ "_" ++ py_str b)%string.

(** [InstanceProblemConfig._get_channel_labels]. *)
Definition _get_channel_labels
    (semantic_instance_class_list0 instance_count_id_list0 : list Z)
    (class_names : option (list string)) (map_to_semantic0 : bool)
    (sem_inst_format : format_arg -> format_arg -> result string)
  : result (list string) :=
  semantic_instance_labels <-
    match class_names with
    | None => Ok (map ArgInt semantic_instance_class_list0)
    | Some names =>
        map_result (fun c => name <- py_getitem names c ;; Ok (ArgStr name))
                   semantic_instance_class_list0
    end ;;
  if map_to_semantic0
  then map_result (fun '(sem_cls, inst_id) =>
                     sem_inst_format sem_cls (ArgStr ""))
                  (combine semantic_instance_labels instance_count_id_list0)
  else map_result (fun '(sem_cls, inst_id) =>
                     sem_inst_format sem_cls (ArgInt inst_id))
                  (combine semantic_instance_labels instance_count_id_list0).

Definition get_channel_labels (self : InstanceProblemConfig)
    (sem_inst_format : format_arg -> format_arg -> result string)
  : result (list string) :=
  _get_channel_labels (semantic_instance_class_list self)
    (instance_count_id_list self) (semantic_class_names self)
    (map_to_semantic self) sem_inst_format.

Definition get_model_channel_labels (self : InstanceProblemConfig)
    (sem_inst_format : format_arg -> format_arg -> result string)
  : result (list string) :=
  _get_channel_labels (model_semantic_instance_class_list self)
    (model_instance_count_id_list self) (semantic_class_names self)
    false sem_inst_format.

(* ================================================================== *)
(** ** trainer.py: the training loop                                   *)
(* ================================================================== *)

(** [class TrainingState]. *)
Record TrainingState : Type := mk_state {
  st_iteration : Z;
  st_epoch : Z;
  st_max_iteration : Z
}.

Definition TrainingState_init (max_iteration : Z) : TrainingState :=
  {| st_iteration := 0; st_epoch := 0; st_max_iteration := max_iteration |}.

Definition training_complete (self : TrainingState) : bool :=
  st_iteration self >=? st_max_iteration self.

(** What the loop itself can raise, besides what its callees raise. *)
Inductive loop_exn : Type :=
| ZeroDivisionError
| TypeError
| AttributeError
| Propagated (e : exn).

Inductive ran (A : Type) : Type :=
| Returned (a : A)
| Raised (e : loop_exn).
Arguments Returned {A} a.
Arguments Raised {A} e.

(** [range(a, b)] on integers. *)
Definition py_range_from (a b : Z) : list Z :=
  map (fun i => a + Z.of_nat i) (seq 0 (Z.to_nat (b - a))).

(** [a % b] on integers: the sign of the result is that of [b]. *)
Definition py_mod (a b : Z) : ran Z :=
  if b =? 0 then Raised ZeroDivisionError else Returned (a mod b).

Section TrainLoop.
(** The collaborators of the loop that live outside it: the float type,
    [validate_split] and [train_iteration] as functions of the state they
    read (neither assigns [self.state]), the conversion [1. * n] and the
    expression [int(math.ceil(x / n))] for a non-zero [n]. *)
Variables batch float metrics : Type.
Variable validate_split_call :
  string -> TrainingState -> result (float * metrics).
Variable train_iteration_call : TrainingState -> batch -> result unit.
Variable int_to_float : Z -> result float.
Variable ceil_quotient : float -> Z -> result Z.

(** The calls the loop makes, in order.  The calls of the scheduler, of the
    exporter's figure and scalar writers and of the datasets are recorded
    and taken to return. *)
Inductive loop_event : Type :=
| EvModelTrain
| EvValidateSplit (split : string) (epoch iteration : Z)
| EvLrSchedulerStep (val_loss : float) (epoch : Z)
| EvInitializeLocations (loader : string)
| EvUpdateLossFigure (train_loss val_loss : float) (iteration : Z)
| EvAddScalar (val_loss train_loss : float) (iteration : Z)
| EvTrainIteration (batch_idx : nat) (b : batch) (epoch iteration : Z).

(** A statement of the loop: from the state on entry, the calls made, the
    state on exit and how it ended. *)
Definition loop (A : Type) : Type :=
  TrainingState -> list loop_event * TrainingState * ran A.

Definition loop_ret {A} (a : A) : loop A := fun st => ([], st, Returned a).
Definition loop_raise {A} (e : loop_exn) : loop A :=
  fun st => ([], st, Raised e).
Definition loop_bind {A B} (m : loop A) (k : A -> loop B) : loop B :=
  fun st =>
    match m st with
    | (evs, st1, Returned a) =>
        let '(evs', st2, r) := k a st1 in (evs ++ evs', st2, r)
    | (evs, st1, Raised e) => (evs, st1, Raised e)
    end.
Definition get_state : loop TrainingState :=
  fun st => ([], st, Returned st).
Definition put_state (st' : TrainingState) : loop unit :=
  fun _ => ([], st', Returned tt).
Definition loop_emit (ev : loop_event) : loop unit :=
  fun st => ([ev], st, Returned tt).
Definition loop_lift {A} (r : ran A) : loop A := fun st => ([], st, r).
(** An expression that may raise. *)
Definition call_free {A} (r : result A) : loop A :=
  fun st => ([], st, match r with
                     | Ok a => Returned a
                     | Raise e => Raised (Propagated e)
                     end).
(** A call of a collaborator: it is made, then returns or raises. *)
Definition call {A} (ev : loop_event) (r : result A) : loop A :=
  fun st => ([ev], st, match r with
                       | Ok a => Returned a
                       | Raise e => Raised (Propagated e)
                       end).

Declare Scope loop_scope.
Delimit Scope loop_scope with loop.
Notation "x <-- m ;; k" := (loop_bind m (fun x => k))
  (at level 61, m at next level, right associativity) : loop_scope.
Notation "' pat <-- m ;; k" :=
  (loop_bind m (fun x => match x with pat => k end))
  (at level 61, pat pattern, m at next level, right associativity)
  : loop_scope.
Notation "m ;;; k" := (loop_bind m (fun _ => k))
  (at level 61, right associativity) : loop_scope.

(** The attributes of the trainer the loop reads.  A loader has a fixed
    number of batches and may yield other batches in each pass, so it is
    given by its length and by the batch at each index of the pass of each
    epoch.  [interval_validate] is the attribute as [__init__] set it. *)
Record LoopTrainer : Type := mk_loop_trainer {
  len_train_loader : nat;
  train_loader_batch : Z -> nat -> batch;
  interval_validate : Z;
  has_lr_scheduler : bool;
  generate_new_synthetic_data_each_epoch : bool;
  has_train_loader_for_val : bool;
  has_tensorboard_writer : bool
}.

(** One pass over [self.train_loader]. *)
Definition train_loader (self : LoopTrainer) (epoch : Z) : list batch :=
  map (train_loader_batch self epoch) (seq 0 (len_train_loader self)).

(** [interval_validate if interval_validate is not None else
    len(self.train_loader)] of [Trainer.__init__]. *)
Definition init_interval_validate (interval_validate0 : option Z)
    (len_train_loader0 : nat) : Z :=
  match interval_validate0 with
  | Some k => k
  | None => Z.of_nat len_train_loader0
  end.

Definition validate_split (split : string) : loop (float * metrics) :=
  (st <-- get_state ;;
   call (EvValidateSplit split (st_epoch st) (st_iteration st))
        (validate_split_call split st))%loop.

(** [Trainer.validate_all_splits].  [val_loss - train_loss] with
    [train_loss = None] is a [TypeError]. *)
Definition validate_all_splits (self : LoopTrainer)
  : loop (option metrics * option float * metrics * float) :=
  ('(val_loss, val_metrics) <-- validate_split "val" ;;
   '(train_loss, train_metrics) <--
      (if has_train_loader_for_val self
       then '(train_loss, train_metrics) <-- validate_split "train" ;;
            loop_ret (Some train_loss, Some train_metrics)
       else loop_ret (None, None)) ;;
   (match train_loss with
    | Some train_loss' =>
        st <-- get_state ;;
        loop_emit (EvUpdateLossFigure train_loss' val_loss (st_iteration st))
    | None => loop_ret tt
    end) ;;;
   (if has_tensorboard_writer self
    then match train_loss with
         | Some train_loss' =>
             st <-- get_state ;;
             loop_emit (EvAddScalar val_loss train_loss' (st_iteration st))
         | None => loop_raise TypeError
         end
    else loop_ret tt) ;;;
   loop_ret (train_metrics, train_loss, val_metrics, val_loss))%loop.

Definition train_iteration_of_batch (batch_idx : nat) (b : batch)
  : loop unit :=
  (st <-- get_state ;;
   call (EvTrainIteration batch_idx b (st_epoch st) (st_iteration st))
        (train_iteration_call st b))%loop.

(** The [for] loop of [train_epoch] over the batches still to come;
    [continue] goes on with the rest, [break] ends the loop. *)
Fixpoint train_batches (self : LoopTrainer) (batches : list (nat * batch))
  : loop unit :=
  match batches with
  | [] => loop_ret tt
  | (batch_idx, b) :: rest =>
      (st <-- get_state ;;
       let iteration :=
         Z.of_nat batch_idx
         + st_epoch st * Z.of_nat (len_train_loader self) in
       if negb (st_iteration st =? 0)
          && negb (iteration - 1 =? st_iteration st)
       then train_batches self rest
       else
         put_state {| st_iteration := iteration;
                      st_epoch := st_epoch st;
                      st_max_iteration := st_max_iteration st |} ;;;
         m <-- loop_lift (py_mod iteration (interval_validate self)) ;;
         (if m =? 0 then validate_all_splits self ;;; loop_ret tt
          else loop_ret tt) ;;;
         train_iteration_of_batch batch_idx b ;;;
         st' <-- get_state ;;
         if training_complete st'
         then validate_all_splits self ;;; loop_ret tt
         else train_batches self rest)%loop
  end.

(** [Trainer.train_epoch].  The new synthetic data are asked of the datasets
    of [train_loader] and of [train_loader_for_val]; the latter has no
    [dataset] when it is [None]. *)
Definition train_epoch (self : LoopTrainer) : loop unit :=
  (loop_emit EvModelTrain ;;;
   (if has_lr_scheduler self
    then '(val_loss, val_metrics) <-- validate_split "val" ;;
         st <-- get_state ;;
         loop_emit (EvLrSchedulerStep val_loss (st_epoch st))
    else loop_ret tt) ;;;
   (if generate_new_synthetic_data_each_epoch self
    then loop_emit (EvInitializeLocations "train_loader") ;;;
         (if has_train_loader_for_val self
          then loop_emit (EvInitializeLocations "train_loader_for_val")
          else loop_raise AttributeError)
    else loop_ret tt) ;;;
   st <-- get_state ;;
   train_batches self (enumerate (train_loader self (st_epoch st))))%loop.

(** The [for] loop of [train] over the epochs still to come. *)
Fixpoint train_epochs (self : LoopTrainer) (epochs : list Z) : loop unit :=
  match epochs with
  | [] => loop_ret tt
  | epoch :: rest =>
      (st <-- get_state ;;
       put_state {| st_iteration := st_iteration st;
                    st_epoch := epoch;
                    st_max_iteration := st_max_iteration st |} ;;;
       train_epoch self ;;;
       st' <-- get_state ;;
       if training_complete st' then loop_ret tt
       else train_epochs self rest)%loop
  end.

(** [Trainer.train]: the float division raises on an empty loader. *)
Definition train (self : LoopTrainer) : loop unit :=
  (st <-- get_state ;;
   x <-- call_free (int_to_float (st_max_iteration st)) ;;
   max_epoch <--
     (if Z.of_nat (len_train_loader self) =? 0
      then loop_raise ZeroDivisionError
      else call_free (ceil_quotient x (Z.of_nat (len_train_loader self)))) ;;
   st0 <-- get_state ;;
   train_epochs self (py_range_from (st_epoch st0) max_epoch))%loop.
End TrainLoop.

(* ================================================================== *)
(** ** Notions used to state the properties                            *)
(* ================================================================== *)

(** The instance slot that [get_instance_count_id_list] is expected to give
    channel [i], which belongs to class [s]: 0 for a non-instance class,
    otherwise the number of earlier channels of the class, counted from 0 or
    from 1. *)
Definition expected_slot (semantic_instance_class_list non_instance : list Z)
    (include_channel0 : bool) (i : nat) (s : Z) : Z :=
  if existsb (Z.eqb s) non_instance then 0
  else Z.of_nat (count_occ Z.eq_dec (firstn i semantic_instance_class_list) s)
       + (if include_channel0 then 0 else 1).

(** Sum of the channel counts, a negative count standing for no channel. *)
Definition total_channels (n_channels_by_semantic_id : list Z) : nat :=
  fold_right (fun k acc => (Z.to_nat k + acc)%nat) 0%nat
             n_channels_by_semantic_id.

(** Channel [c] of the layout owns the pair (semantic class [s], instance
    id [i]). *)
Definition owns (semantic_instance_class_list instance_count_id_list : list Z)
    (c : nat) (s i : Z) : Prop :=
  nth_error semantic_instance_class_list c = Some s /\
  nth_error instance_count_id_list c = Some i.

(** What [permute_labels] does to one pixel: [v] is the label the pixel had
    on entry, [x] its current label in the copy. *)
Definition relabel_row (v : Z) (x : Z) (permutation : list Z) : Z :=
  fold_left (fun acc '(new_channel, old_channel) =>
               if v =? old_channel then Z.of_nat new_channel else acc)
            (enumerate permutation) x.

Definition relabel (permutations : list (list Z)) (v : Z) : Z :=
  fold_left (relabel_row v) permutations v.

(** A row of a permutation array that is a bijection of [0, n_channels):
    [n_channels] distinct entries, all in range. *)
Definition bijection_row (n_channels : nat) (permutation : list Z) : Prop :=
  length permutation = n_channels /\
  NoDup permutation /\
  Forall (fun x => 0 <= x < Z.of_nat n_channels) permutation.

(** Channel [a] is the unique channel-wise argmax of [t] at pixel (h, w) of
    image [b]: every other channel scores strictly less. *)
Definition unique_argmax {V} (ltb : V -> V -> bool) (t : tensor4 V)
    (b h w : nat) (a : nat) : Prop :=
  (a < size1 t)%nat /\
  forall c, (c < size1 t)%nat -> c <> a ->
            ltb (item t b c h w) (item t b a h w) = true.

(** [m[r, c]] of a matrix given by its rows, for indices inside it. *)
Definition matrix_cell (m : list (list Z)) (r c : nat) : option Z :=
  match nth_error m r with
  | Some row => nth_error row c
  | None => None
  end.

(** The default label of a channel of class [s] and instance id [i]. *)
Definition channel_label (class_names : option (list string))
    (map_to_semantic0 : bool) (s i : Z) : string :=
  (py_str match class_names with
          | None => ArgInt s
          | Some names => ArgStr (nth (Z.to_nat s) names "")
          end
   ++ "_" ++ (if map_to_semantic0 then "" else py_str (ArgInt i)))%string.

(** The character between the two parts of a default channel label. *)
Definition underscore : Ascii.ascii :=
  Ascii.Ascii true true true true true false true false.

(** Whether a character occurs in a string. *)
Fixpoint has_char (c : Ascii.ascii) (s : string) : bool :=
  match s with
  | EmptyString => false
  | String c' s' => Ascii.eqb c c' || has_char c s'
  end.

(** The iterations of the training iterations among the calls made. *)
Definition trained {batch float : Type}
    (evs : list (loop_event batch float)) : list Z :=
  flat_map (fun ev => match ev with
                      | @EvTrainIteration _ _ _ _ _ iteration => [iteration]
                      | _ => []
                      end) evs.

(** The collaborators of the loop return, and a tensorboard writer or the
    making of new synthetic data comes with a training loader for
    validation. *)
Definition collaborators_return {batch float metrics : Type}
    (validate_split_call :
       string -> TrainingState -> result (float * metrics))
    (train_iteration_call : TrainingState -> batch -> result unit)
    (self : LoopTrainer batch) : Prop :=
  (forall split st, exists r, validate_split_call split st = Ok r) /\
  (forall st b, train_iteration_call st b = Ok tt) /\
  (has_tensorboard_writer self = true ->
   has_train_loader_for_val self = true) /\
  (generate_new_synthetic_data_each_epoch self = true ->
   has_train_loader_for_val self = true).

(** A statement of the loop that trains on nothing and leaves the state
    alone, however it ends. *)
Definition quiet {batch float A : Type} (m : loop batch float A) : Prop :=
  forall st, exists evs r, m st = (evs, st, r) /\ trained evs = [].

(** What the validation schedule keeps of the calls made, in the order of
    the calls: the validations of the validation split and the training
    iterations, each with the iteration of the state at the call. *)
Inductive scheduled : Type :=
| ValidatedAt (iteration : Z)
| TrainedAt (iteration : Z).

Definition schedule {batch float : Type}
    (evs : list (loop_event batch float)) : list scheduled :=
  flat_map (fun ev => match ev with
                      | @EvValidateSplit _ _ split _ iteration =>
                          if String.eqb split "val"
                          then [ValidatedAt iteration] else []
                      | @EvTrainIteration _ _ _ _ _ iteration =>
                          [TrainedAt iteration]
                      | _ => []
                      end) evs.

(** Training iteration [i] with the validation that goes before it when
    the interval divides [i]. *)
Definition scheduled_iteration (interval_validate0 i : Z) : list scheduled :=
  (if i mod interval_validate0 =? 0 then [ValidatedAt i] else [])
  ++ [TrainedAt i].

(** The iterations at which a split was validated, among the calls made. *)
Definition validated {batch float : Type} (split : string)
    (evs : list (loop_event batch float)) : list Z :=
  flat_map (fun ev => match ev with
                      | @EvValidateSplit _ _ split' _ iteration =>
                          if String.eqb split split' then [iteration] else []
                      | _ => []
                      end) evs.

(* ================================================================== *)
(** ** Worked examples                                                 *)
(* ================================================================== *)

(** A 2 x 3 label pair over the layout of the channel counts [[1; 2; 2]]:
    a background pixel, both instances of class 1, a third instance of
    class 1 (over budget), an instance of class 2 and a void pixel. *)
Definition example_sem_lbl : ndarray := mk_ndarray [2; 3]%nat [0; 1; 1; 1; 2; -1].
Definition example_inst_lbl : ndarray := mk_ndarray [2; 3]%nat [0; 1; 2; 3; 1; 1].
Definition example_sicl : list Z := [0; 1; 1; 2; 2].
Definition example_icil : list Z := [0; 1; 2; 1; 2].

(** A trainer over trivial collaborators, for worked examples: the network
    returns the given score tensor and the loss function the given loss. *)
Definition example_trainer (cfg : InstanceProblemConfig) : Trainer :=
  {| model_training := true;
     instance_problem := cfg;
     state_iteration := 7;
     loader_semantic_lbl_only := false;
     use_semantic_loss := false;
     augment_input_with_semantic_masks := false |}.

Definition constant_score (B C H W : nat) (x : spec_float)
  : tensor4 spec_float :=
  mk_tensor4 B C H W (fun _ _ _ _ => x).

Definition constant_loss_fcn (loss : spec_float)
    (score : tensor4 spec_float) (sem_lbl inst_lbl : ndarray)
  : result (unit * spec_float * unit) :=
  Ok (tt, loss, tt).

Definition empty_config : InstanceProblemConfig :=
  mk_config false None [] default_void_value false [] [] [] [] 0 0 [] [] []
            [] (0%nat, 0%nat).

(** The configuration of the channel counts [[1; 2; 2]]. *)
Definition example_config : InstanceProblemConfig :=
  Eval vm_compute in
  match InstanceProblemConfig_init [1; 2; 2] None None default_void_value
          false false with
  | Ok cfg => cfg
  | Raise _ => empty_config
  end.

(** The configuration of the channel counts [[1; 2]] with one name only. *)
Definition example_config_one_name : InstanceProblemConfig :=
  Eval vm_compute in
  match InstanceProblemConfig_init [1; 2] (Some ["background"]%string) None
          default_void_value false false with
  | Ok cfg => cfg
  | Raise _ => empty_config
  end.

(** One image of one pixel. *)
Definition one_pixel (v : Z) : ndarray := mk_ndarray [1; 1; 1]%nat [v].

(** 2^17 as a binary64 number. *)
Definition float_131072 : spec_float := S754_finite false 4503599627370496 (-35).

(** Two images of one pixel and two channels; channel 0 scores highest in
    both.  The first image keeps its channels, the second swaps them. *)
Definition example_score_batch2 : tensor4 Z :=
  mk_tensor4 2 2 1 1 (fun b c h w => if Nat.eqb c 0 then 5 else 3).
Definition example_permutations_batch2 : list (list Z) := [[0; 1]; [1; 0]].
Definition example_argmax_batch2 : ndarray := mk_ndarray [2; 1; 1]%nat [0; 0].

(** The first of the two images on its own, with its own row. *)
Definition example_score_image0 : tensor4 Z :=
  mk_tensor4 1 2 1 1 (fun b c h w => if Nat.eqb c 0 then 5 else 3).

(** A training loop over a loader of four batches with the default
    [interval_validate], with collaborators that return; floats are stood for
    by exact integers and the ceiling of the quotient is exact. *)
Definition example_loop_trainer : LoopTrainer nat :=
  {| len_train_loader := 4;
     train_loader_batch := fun _ i => i;
     interval_validate := init_interval_validate None 4;
     has_lr_scheduler := false;
     generate_new_synthetic_data_each_epoch := false;
     has_train_loader_for_val := false;
     has_tensorboard_writer := false |}.

Definition example_validate_split_call (split : string)
    (st : TrainingState) : result (Z * unit) := Ok (0, tt).

Definition example_train_iteration_call (st : TrainingState) (b : nat)
  : result unit := Ok tt.

Definition example_int_to_float (n : Z) : result Z := Ok n.

Definition example_ceil_quotient (x n : Z) : result Z := Ok (- ((- x) / n)).

Definition example_train (self : LoopTrainer nat) (max_iteration : Z)
  : list (loop_event nat Z) * TrainingState * ran unit :=
  train example_validate_split_call example_train_iteration_call
        example_int_to_float example_ceil_quotient self
        (TrainingState_init max_iteration).

(* ================================================================== *)
(** * Properties                                                       *)
(* ================================================================== *)

(** ** Loops *)

Section ForEach.
Context {A S : Type}.
Variable body : S -> A -> result S.
Variable Inv : S -> Prop.

(** A loop whose body keeps an invariant and never raises ends normally
    in a state that satisfies the invariant. *)
Lemma for_each_invariant (l : list A) :
  (forall s x, In x l -> Inv s -> exists s', body s x = Ok s' /\ Inv s') ->
  forall s, Inv s -> exists s', for_each l body s = Ok s' /\ Inv s'.
Proof.
  induction l as [|x l IH]; intros Hbody s Hs; simpl.
  - eauto.
  - destruct (Hbody s x (or_introl eq_refl) Hs) as (s1 & E1 & H1).
    rewrite E1; simpl. apply IH; auto.
    intros s2 y Hy. apply Hbody. now right.
Qed.

(** The same with an invariant that knows which elements were visited. *)
Lemma for_each_invariant_visited (Vis : list A -> S -> Prop) (l : list A) :
  (forall seen s x, In x l -> Vis seen s ->
     exists s', body s x = Ok s' /\ Vis (seen ++ [x]) s') ->
  forall seen s, Vis seen s ->
    exists s', for_each l body s = Ok s' /\ Vis (seen ++ l) s'.
Proof.
  induction l as [|x l IH]; intros Hbody seen s Hs; simpl.
  - rewrite app_nil_r. eauto.
  - destruct (Hbody seen s x (or_introl eq_refl) Hs) as (s1 & E1 & H1).
    rewrite E1; simpl.
    destruct (IH (fun sn s2 y Hy => Hbody sn s2 y (or_intror Hy)) _ _ H1)
      as (s2 & E2 & H2).
    exists s2. split; [exact E2|]. now rewrite <- app_assoc in H2.
Qed.

(** A loop whose body either keeps the invariant or raises [e], and that
    meets an element on which it raises whatever the state, raises [e]. *)
Lemma for_each_raises (e : exn) (l : list A) :
  (forall s x, In x l -> Inv s ->
     (exists s', body s x = Ok s' /\ Inv s') \/ body s x = Raise e) ->
  (exists x, In x l /\ forall s, Inv s -> body s x = Raise e) ->
  forall s, Inv s -> for_each l body s = Raise e.
Proof.
  induction l as [|x l IH]; intros Hbody (x0 & Hin & Hx0) s Hs; simpl.
  - destruct Hin.
  - destruct (Hbody s x (or_introl eq_refl) Hs) as [(s1 & E1 & H1)|E1];
      rewrite E1; simpl; auto.
    destruct Hin as [->|Hin].
    + rewrite (Hx0 s Hs) in E1. discriminate.
    + apply IH; eauto.
      intros s2 y Hy. apply Hbody. now right.
Qed.
End ForEach.

(** ** Lists, masks and [np.unique] *)

Lemma in_combine_seq {A} (l : list A) (k i : nat) (x : A) :
  In (i, x) (combine (seq k (length l)) l) <->
  (k <= i)%nat /\ nth_error l (i - k) = Some x.
Proof.
  revert k. induction l as [|a l IH]; intros k; simpl.
  - split; [tauto|]. intros [_ H]. now destruct (i - k)%nat.
  - rewrite IH. split.
    + intros [E|[Hle E]].
      * inversion E; subst. rewrite Nat.sub_diag. auto.
      * split; [lia|]. replace (i - k)%nat with (Datatypes.S (i - Datatypes.S k)) by lia.
        exact E.
    + intros [Hle E]. destruct (i - k)%nat as [|m] eqn:Em.
      * left. inversion E; subst. f_equal. lia.
      * right. split; [lia|]. replace (i - Datatypes.S k)%nat with m by lia. exact E.
Qed.

Lemma in_enumerate {A} (l : list A) (i : nat) (x : A) :
  In (i, x) (enumerate l) <-> nth_error l i = Some x.
Proof.
  unfold enumerate. rewrite in_combine_seq, Nat.sub_0_r.
  split; [tauto|]. split; [lia|assumption].
Qed.

Lemma in_sem_inst_idxs_of (sicl : list Z) (c : Z) (i : nat) :
  In i (sem_inst_idxs_of sicl c) <-> nth_error sicl i = Some c.
Proof.
  unfold sem_inst_idxs_of. rewrite in_map_iff. split.
  - intros ([j s] & Ej & Hin). simpl in Ej; subst j.
    apply filter_In in Hin. destruct Hin as [Hin Hs].
    apply in_enumerate in Hin. apply Z.eqb_eq in Hs. now subst.
  - intros H. exists (i, c). split; [reflexivity|].
    apply filter_In. split; [now apply in_enumerate | apply Z.eqb_refl].
Qed.

Lemma in_insert_unique (x y : Z) (l : list Z) :
  In y (insert_unique x l) <-> y = x \/ In y l.
Proof.
  induction l as [|z l IH]; simpl.
  - intuition.
  - destruct (x <? z) eqn:Elt; simpl; [intuition|].
    destruct (x =? z) eqn:Eeq; simpl.
    + apply Z.eqb_eq in Eeq. subst. intuition.
    + rewrite IH. intuition.
Qed.

Lemma in_np_unique (l : list Z) (x : Z) : In x (np_unique l) <-> In x l.
Proof.
  unfold np_unique. induction l as [|a l IH]; simpl; [tauto|].
  rewrite in_insert_unique, IH. intuition.
Qed.

Lemma hdrel_insert_unique (x y : Z) (l : list Z) :
  HdRel Z.lt y l -> y < x -> HdRel Z.lt y (insert_unique x l).
Proof.
  intros H Hyx. destruct l as [|z l]; simpl.
  - now constructor.
  - inversion H; subst.
    destruct (x <? z); [now constructor|].
    destruct (x =? z); now constructor.
Qed.

(** [np_unique] is sorted, strictly: no value occurs twice. *)
Lemma np_unique_sorted (l : list Z) : Sorted Z.lt (np_unique l).
Proof.
  unfold np_unique. induction l as [|a l IH]; simpl; [constructor|].
  revert IH. generalize (fold_right insert_unique [] l) as u.
  induction u as [|y u IHu]; intros Hs; simpl.
  - repeat constructor.
  - destruct (Z.ltb_spec a y) as [Hlt|Hge].
    + constructor; [exact Hs|now constructor].
    + destruct (Z.eqb_spec a y) as [->|Hne]; [exact Hs|].
      inversion Hs; subst. constructor; [now apply IHu|].
      apply hdrel_insert_unique; [assumption|lia].
Qed.

Lemma in_np_unique_counts (l : list Z) (x : Z) (k : nat) :
  In (x, k) (np_unique_counts l) -> In x l.
Proof.
  unfold np_unique_counts. rewrite in_map_iff.
  intros (v & E & Hin). inversion E; subst. now apply in_np_unique.
Qed.

Lemma mask_sum_eq_scalar (l : list Z) (c : Z) :
  mask_sum (eq_scalar l c) = count_occ Z.eq_dec l c.
Proof.
  unfold mask_sum, eq_scalar. induction l as [|a l IH]; simpl; [reflexivity|].
  destruct (Z.eq_dec a c) as [->|Hne].
  - rewrite Z.eqb_refl. simpl. now rewrite IH.
  - apply Z.eqb_neq in Hne. now rewrite Hne.
Qed.

Lemma length_setitem_mask {A} (arr : list A) (mask : list bool) (v : A) :
  length (setitem_mask arr mask v) = length arr.
Proof.
  revert mask. induction arr as [|a arr IH]; intros [|m mask]; simpl; auto.
Qed.

Lemma nth_error_setitem_mask {A} (arr : list A) (mask : list bool) (v : A)
    (i : nat) :
  length mask = length arr ->
  nth_error (setitem_mask arr mask v) i =
  match nth_error mask i with
  | Some true => Some v
  | _ => nth_error arr i
  end.
Proof.
  revert mask i. induction arr as [|a arr IH]; intros [|m mask] i Hlen;
    simpl in *; try discriminate.
  - now destruct i.
  - destruct i; simpl.
    + now destruct m.
    + apply IH. lia.
Qed.

Lemma length_scatter_mask {A} (arr : list A) (mask : list bool) (vals : list A) :
  length (scatter_mask arr mask vals) = length arr.
Proof.
  revert mask vals. induction arr as [|a arr IH]; intros [|[|] mask] vals;
    simpl; auto.
  destruct vals; simpl; auto.
Qed.

(** Scattering [f k, f (k+1), ...] over the cells that hold [c]: the cell at
    [i] receives [f] of [k] plus the number of earlier cells that hold [c]. *)
Lemma nth_error_scatter_eq_scalar {A} (f : nat -> A) (l : list Z) (c : Z) :
  forall (arr : list A) (k i : nat),
    length arr = length l ->
    nth_error
      (scatter_mask arr (eq_scalar l c)
         (map f (seq k (count_occ Z.eq_dec l c)))) i =
    match nth_error l i with
    | Some s => if s =? c
                then Some (f (k + count_occ Z.eq_dec (firstn i l) c)%nat)
                else nth_error arr i
    | None => nth_error arr i
    end.
Proof.
  induction l as [|a l IH]; intros [|b arr] k i Hlen; simpl in *;
    try discriminate.
  - now destruct i.
  - destruct (Z.eq_dec a c) as [->|Hne].
    + rewrite Z.eqb_refl. simpl. destruct i; simpl.
      * rewrite Z.eqb_refl. now rewrite Nat.add_0_r.
      * rewrite IH by lia. destruct (Z.eq_dec c c); [|congruence].
        destruct (nth_error l i); [|reflexivity].
        destruct (z =? c); [|reflexivity].
        do 2 f_equal. lia.
    + pose proof Hne as Hne'. apply Z.eqb_neq in Hne'. rewrite Hne'.
      destruct i; simpl.
      * now rewrite Hne'.
      * rewrite IH by lia. destruct (Z.eq_dec a c); [congruence|]. reflexivity.
Qed.

Lemma count_occ_firstn_lt (l : list Z) (i j : nat) (s : Z) :
  (i < j)%nat -> nth_error l i = Some s ->
  (count_occ Z.eq_dec (firstn i l) s < count_occ Z.eq_dec (firstn j l) s)%nat.
Proof.
  revert i j. induction l as [|a l IH]; intros i j Hij Hi.
  - now destruct i.
  - destruct j; [lia|]. destruct i; simpl in *.
    + inversion Hi; subst. destruct (Z.eq_dec s s); [lia|congruence].
    + specialize (IH i j ltac:(lia) Hi). destruct (Z.eq_dec a s); lia.
Qed.

Lemma count_occ_firstn_unique (l : list Z) (i : nat) (s : Z) :
  nth_error l i = Some s -> count_occ Z.eq_dec l s = 1%nat ->
  count_occ Z.eq_dec (firstn i l) s = 0%nat.
Proof.
  intros Hi Hone.
  assert (Hlt : (i < length l)%nat) by (apply nth_error_Some; congruence).
  pose proof (count_occ_firstn_lt l (i := i) (j := length l) Hlt Hi) as H.
  rewrite firstn_all in H. lia.
Qed.

Lemma py_getitem_nat {A} (l : list A) (c : nat) (x : A) :
  nth_error l c = Some x -> py_getitem l (Z.of_nat c) = Ok x.
Proof.
  intros H. unfold py_getitem.
  assert (Hlt : (c < length l)%nat) by (apply nth_error_Some; congruence).
  destruct (Z.ltb_spec (Z.of_nat c) 0); [lia|].
  destruct (Z.leb_spec 0 (Z.of_nat c)); [|lia].
  destruct (Z.ltb_spec (Z.of_nat c) (Z.of_nat (length l))); [|lia].
  simpl. now rewrite Nat2Z.id, H.
Qed.

Lemma shape_eqb_true (s1 s2 : list nat) : shape_eqb s1 s2 = true <-> s1 = s2.
Proof.
  unfold shape_eqb. destruct (list_eq_dec Nat.eq_dec s1 s2); split;
    congruence.
Qed.

(** ** [get_semantic_instance_class_list] *)

Lemma length_sicl_from (n : list Z) (k : nat) :
  length (flat_map (fun '(sem_cls, n_channels) =>
                      repeat (Z.of_nat sem_cls) (Z.to_nat n_channels))
                   (combine (seq k (length n)) n))
  = total_channels n.
Proof.
  revert k. induction n as [|a n IH]; intros k; simpl; [reflexivity|].
  now rewrite length_app, repeat_length, IH.
Qed.

Lemma length_get_semantic_instance_class_list (n : list Z) :
  length (get_semantic_instance_class_list n) = total_channels n.
Proof. apply length_sicl_from. Qed.

Lemma total_channels_sum (n : list Z) :
  Forall (fun k => 0 <= k) n ->
  Z.of_nat (total_channels n) = fold_right Z.add 0 n.
Proof.
  induction 1 as [|a n Ha _ IH]; simpl; [reflexivity|].
  rewrite Nat2Z.inj_add, IH. lia.
Qed.

Lemma count_occ_repeat (x y : Z) (k : nat) :
  count_occ Z.eq_dec (repeat x k) y = if Z.eq_dec x y then k else 0%nat.
Proof.
  induction k as [|k IH]; simpl.
  - now destruct (Z.eq_dec x y).
  - rewrite IH. now destruct (Z.eq_dec x y).
Qed.

Lemma count_occ_sicl_from (n : list Z) (k c : nat) :
  count_occ Z.eq_dec
    (flat_map (fun '(sem_cls, n_channels) =>
                 repeat (Z.of_nat sem_cls) (Z.to_nat n_channels))
              (combine (seq k (length n)) n))
    (Z.of_nat c)
  = if (c <? k)%nat then 0%nat else Z.to_nat (nth (c - k) n 0).
Proof.
  revert k. induction n as [|a n IH]; intros k; simpl.
  - destruct (c <? k)%nat; [reflexivity|]. now destruct (c - k)%nat.
  - rewrite count_occ_app, count_occ_repeat, IH.
    destruct (Z.eq_dec (Z.of_nat k) (Z.of_nat c)) as [E|NE].
    + apply Nat2Z.inj in E. subst c.
      rewrite Nat.sub_diag.
      destruct (Nat.ltb_spec k k); [lia|].
      destruct (Nat.ltb_spec k (Datatypes.S k)); lia.
    + assert (k <> c) by congruence.
      destruct (Nat.ltb_spec c k), (Nat.ltb_spec c (Datatypes.S k)); try lia.
      replace (c - k)%nat with (Datatypes.S (c - Datatypes.S k)) by lia.
      reflexivity.
Qed.

(** Class [c] owns [max(n[c], 0)] channels. *)
Lemma count_occ_get_semantic_instance_class_list (n : list Z) (c : nat) :
  count_occ Z.eq_dec (get_semantic_instance_class_list n) (Z.of_nat c)
  = Z.to_nat (nth c n 0).
Proof.
  unfold get_semantic_instance_class_list, enumerate.
  rewrite count_occ_sicl_from. simpl. now rewrite Nat.sub_0_r.
Qed.

(** ** [get_instance_count_id_list] *)

Section InstanceCountIds.
Variable sicl : list Z.
Variable non_instance : list Z.
Variable include_channel0 : bool.

Let step := instance_count_step sicl non_instance include_channel0.
Let slot := expected_slot sicl non_instance include_channel0.

Lemma nth_error_eq_scalar (c : Z) (i : nat) :
  nth_error (eq_scalar sicl c) i =
  option_map (fun s => s =? c) (nth_error sicl i).
Proof. unfold eq_scalar. apply nth_error_map. Qed.

(** A class that is non-instance and does not own exactly one channel
    trips the assertion, whatever the array holds. *)
Lemma instance_count_step_raises (arr : list (option Z)) (c : Z) :
  existsb (Z.eqb c) non_instance = true ->
  count_occ Z.eq_dec sicl c <> 1%nat ->
  step arr c = Raise AssertionError.
Proof.
  intros Hni Hcnt. unfold step, instance_count_step.
  rewrite Hni, mask_sum_eq_scalar.
  destruct (Nat.eqb_spec (count_occ Z.eq_dec sicl c) 1); congruence.
Qed.

(** Otherwise the step writes the expected slot into every cell of the
    class and leaves the others alone. *)
Lemma instance_count_step_ok (arr : list (option Z)) (c : Z) :
  length arr = length sicl ->
  (existsb (Z.eqb c) non_instance = true ->
   count_occ Z.eq_dec sicl c = 1%nat) ->
  exists arr',
    step arr c = Ok arr' /\ length arr' = length sicl /\
    forall i, nth_error arr' i =
              match nth_error sicl i with
              | Some s => if s =? c then Some (Some (slot i s))
                          else nth_error arr i
              | None => nth_error arr i
              end.
Proof.
  intros Hlen Hone. unfold step, instance_count_step, slot, expected_slot.
  destruct (existsb (Z.eqb c) non_instance) eqn:Hni.
  - rewrite mask_sum_eq_scalar, (Hone eq_refl). simpl.
    eexists. split; [reflexivity|]. split.
    + now rewrite length_setitem_mask.
    + intros i. rewrite nth_error_setitem_mask, nth_error_eq_scalar
        by (unfold eq_scalar; rewrite length_map; auto).
      destruct (nth_error sicl i) as [s|]; simpl; [|reflexivity].
      destruct (Z.eqb_spec s c) as [->|]; [|reflexivity].
      now rewrite Hni.
  - clear Hone. rewrite mask_sum_eq_scalar. unfold np_arange.
    rewrite map_map.
    set (f := fun k : nat =>
                Some (Z.of_nat k + (if include_channel0 then 0 else 1))).
    assert (Hscatter :
      forall i, nth_error
                  (scatter_mask arr (eq_scalar sicl c)
                     (map f (seq 0 (count_occ Z.eq_dec sicl c)))) i =
                match nth_error sicl i with
                | Some s =>
                    if s =? c
                    then Some (Some
                           (if existsb (Z.eqb s) non_instance then 0
                            else Z.of_nat
                                   (count_occ Z.eq_dec (firstn i sicl) s)
                                 + (if include_channel0 then 0 else 1)))
                    else nth_error arr i
                | None => nth_error arr i
                end).
    { intros i. rewrite nth_error_scatter_eq_scalar by assumption.
      destruct (nth_error sicl i) as [s|]; [|reflexivity].
      destruct (Z.eqb_spec s c) as [->|]; [|reflexivity].
      now rewrite Hni. }
    destruct (count_occ Z.eq_dec sicl c) as [|[|m]] eqn:Ecnt.
    + unfold setitem_mask_array. cbn [seq map length].
      rewrite mask_sum_eq_scalar, Ecnt. cbn [Nat.eqb].
      eexists. split; [reflexivity|]. split.
      * now rewrite length_scatter_mask.
      * exact Hscatter.
    + unfold setitem_mask_array. cbn [seq map].
      eexists. split; [reflexivity|]. split.
      * now rewrite length_setitem_mask.
      * intros i. rewrite nth_error_setitem_mask, nth_error_eq_scalar
          by (unfold eq_scalar; rewrite length_map; auto).
        destruct (nth_error sicl i) as [s|] eqn:Ei; simpl; [|reflexivity].
        destruct (Z.eqb_spec s c) as [->|]; [|reflexivity].
        rewrite Hni, (count_occ_firstn_unique sicl i Ei Ecnt).
        reflexivity.
    + unfold setitem_mask_array. cbn [seq map].
      rewrite mask_sum_eq_scalar, Ecnt.
      cbn [length]. rewrite length_map, length_seq, Nat.eqb_refl.
      eexists. split; [reflexivity|]. split.
      * now rewrite length_scatter_mask.
      * exact Hscatter.
Qed.

Lemma astype_int_tolist_defined (arr : list (option Z)) :
  (forall i, (i < length arr)%nat -> exists v, nth_error arr i = Some (Some v)) ->
  exists l, astype_int_tolist arr = Some l /\ arr = map Some l.
Proof.
  induction arr as [|a arr IH]; intros H; simpl.
  - exists []. auto.
  - destruct (H 0%nat ltac:(simpl; lia)) as (v & Ev). simpl in Ev.
    inversion Ev; subst a.
    destruct IH as (l & El & Em).
    { intros i Hi. apply (H (Datatypes.S i)). simpl. lia. }
    exists (v :: l). rewrite El. simpl. split; congruence.
Qed.

(** The layout is built, and holds the expected slots, as soon as every
    non-instance class that occurs owns exactly one channel. *)
Lemma get_instance_count_id_list_ok :
  (forall c, In c sicl -> existsb (Z.eqb c) non_instance = true ->
             count_occ Z.eq_dec sicl c = 1%nat) ->
  exists icil,
    get_instance_count_id_list sicl non_instance include_channel0 = Ok icil /\
    length icil = length sicl /\
    forall i s, nth_error sicl i = Some s ->
                nth_error icil i = Some (slot i s).
Proof.
  intros Hone. unfold get_instance_count_id_list.
  destruct (for_each_invariant_visited step
              (fun seen arr =>
                 length arr = length sicl /\
                 forall i s, nth_error sicl i = Some s -> In s seen ->
                             nth_error arr i = Some (Some (slot i s)))
              (np_unique sicl)) with (seen := @nil Z) (s := np_empty (length sicl))
    as (arr & Earr & Hlen & Hcells).
  - intros seen arr c Hc [Hlen Hcells].
    destruct (instance_count_step_ok arr c Hlen) as (arr' & E & Hlen' & Hnth).
    { apply Hone. now apply in_np_unique. }
    exists arr'. split; [exact E|]. split; [exact Hlen'|].
    intros i s Hi Hs. rewrite Hnth, Hi.
    destruct (Z.eqb_spec s c) as [->|Hne]; [reflexivity|].
    apply Hcells; [exact Hi|].
    apply in_app_or in Hs. destruct Hs as [Hs|[Hs|[]]]; congruence.
  - split; [apply repeat_length|]. intros i s _ [].
  - fold step. rewrite Earr. simpl.
    destruct (astype_int_tolist_defined arr) as (icil & Eicil & Hmap).
    { intros i Hi. rewrite Hlen in Hi.
      destruct (nth_error sicl i) as [s|] eqn:Ei.
      - eexists. apply (Hcells i s Ei). apply in_np_unique.
        eapply nth_error_In; eauto.
      - apply nth_error_None in Ei. lia. }
    rewrite Eicil. exists icil. split; [reflexivity|]. split.
    + rewrite <- Hlen, Hmap. now rewrite length_map.
    + intros i s Hi.
      assert (Hc := Hcells i s Hi
                      (proj2 (in_np_unique sicl s) (nth_error_In _ _ Hi))).
      rewrite Hmap, nth_error_map in Hc.
      destruct (nth_error icil i); simpl in Hc; congruence.
Qed.

(** It fails, on the assertion, as soon as some non-instance class that
    occurs does not own exactly one channel. *)
Lemma get_instance_count_id_list_raises (c : Z) :
  In c sicl -> existsb (Z.eqb c) non_instance = true ->
  count_occ Z.eq_dec sicl c <> 1%nat ->
  get_instance_count_id_list sicl non_instance include_channel0
  = Raise AssertionError.
Proof.
  intros Hin Hni Hcnt. unfold get_instance_count_id_list. fold step.
  rewrite (@for_each_raises _ _ step (fun arr => length arr = length sicl)
             AssertionError (np_unique sicl)); [reflexivity| | |].
  - intros arr x _ Hlen.
    destruct (existsb (Z.eqb x) non_instance) eqn:Hx.
    + destruct (Nat.eq_dec (count_occ Z.eq_dec sicl x) 1) as [E|NE].
      * left. destruct (instance_count_step_ok arr x Hlen (fun _ => E))
          as (arr' & E' & Hl & _). eauto.
      * right. now apply instance_count_step_raises.
    + left. destruct (instance_count_step_ok arr x Hlen) as (arr' & E' & Hl & _).
      { congruence. }
      eauto.
  - exists c. split; [now apply in_np_unique|].
    intros arr _. now apply instance_count_step_raises.
  - apply repeat_length.
Qed.
End InstanceCountIds.

(** ** The channel layout as a pairing *)

Lemma nth_error_combine {A B} (l1 : list A) (l2 : list B) (i : nat) :
  nth_error (combine l1 l2) i =
  match nth_error l1 i, nth_error l2 i with
  | Some x, Some y => Some (x, y)
  | _, _ => None
  end.
Proof.
  revert l2 i. induction l1 as [|a l1 IH]; intros [|b l2] [|i]; simpl; auto.
  now destruct (nth_error l1 i).
Qed.

(** A layout that was built satisfies the assertion of every non-instance
    class. *)
Lemma get_instance_count_id_list_ok_inv (sicl non_instance : list Z)
    (include_channel0 : bool) (icil : list Z) :
  get_instance_count_id_list sicl non_instance include_channel0 = Ok icil ->
  forall c, In c sicl -> existsb (Z.eqb c) non_instance = true ->
            count_occ Z.eq_dec sicl c = 1%nat.
Proof.
  intros Hok c Hin Hni.
  destruct (Nat.eq_dec (count_occ Z.eq_dec sicl c) 1) as [E|NE]; [exact E|].
  rewrite (get_instance_count_id_list_raises sicl non_instance
             include_channel0 c Hin Hni NE) in Hok.
  discriminate.
Qed.

(** The only ways out: a layout, or the failed assertion.  No cell of the
    [np.empty] array is read before it is written, and no masked assignment
    is handed the wrong number of values. *)
Lemma get_instance_count_id_list_outcome (sicl non_instance : list Z)
    (include_channel0 : bool) :
  (exists icil,
     get_instance_count_id_list sicl non_instance include_channel0 = Ok icil)
  \/ get_instance_count_id_list sicl non_instance include_channel0
     = Raise AssertionError.
Proof.
  destruct (Exists_dec
              (fun c => existsb (Z.eqb c) non_instance = true /\
                        count_occ Z.eq_dec sicl c <> 1%nat) sicl)
    as [Hex|Hall].
  - intros c. destruct (existsb (Z.eqb c) non_instance);
      destruct (Nat.eq_dec (count_occ Z.eq_dec sicl c) 1);
      [right|left|right|right]; try tauto; intros [H _]; discriminate.
  - right. apply Exists_exists in Hex. destruct Hex as (c & Hin & Hni & Hcnt).
    eapply get_instance_count_id_list_raises; eauto.
  - left.
    destruct (@get_instance_count_id_list_ok sicl non_instance
                include_channel0) as (icil & E & _); [|eauto].
    intros c Hin Hni.
    destruct (Nat.eq_dec (count_occ Z.eq_dec sicl c) 1) as [E|NE]; [exact E|].
    exfalso. apply Hall. apply Exists_exists. eauto.
Qed.

(** The slots of a layout that was built. *)
Lemma get_instance_count_id_list_slots (sicl non_instance : list Z)
    (include_channel0 : bool) (icil : list Z) :
  get_instance_count_id_list sicl non_instance include_channel0 = Ok icil ->
  length icil = length sicl /\
  forall i s, nth_error sicl i = Some s ->
              nth_error icil i
              = Some (expected_slot sicl non_instance include_channel0 i s).
Proof.
  intros Hok.
  destruct (get_instance_count_id_list_ok sicl non_instance include_channel0
              (get_instance_count_id_list_ok_inv _ _ _ Hok))
    as (icil' & E & Hlen & Hslots).
  rewrite Hok in E. inversion E; subst icil'. auto.
Qed.

(** No two channels of a layout that was built carry the same
    (semantic class, instance slot) pair. *)
Lemma layout_pairs_distinct (sicl non_instance : list Z)
    (include_channel0 : bool) (icil : list Z) :
  get_instance_count_id_list sicl non_instance include_channel0 = Ok icil ->
  NoDup (combine sicl icil).
Proof.
  intros Hok.
  pose proof (get_instance_count_id_list_ok_inv _ _ _ Hok) as Hone.
  destruct (get_instance_count_id_list_slots _ _ _ Hok) as [Hlen Hslots].
  assert (Hlt : forall i j s,
             (i < j)%nat -> nth_error sicl i = Some s ->
             nth_error sicl j = Some s ->
             expected_slot sicl non_instance include_channel0 i s
             <> expected_slot sicl non_instance include_channel0 j s).
  { intros i j s Hij Hi Hj. unfold expected_slot.
    pose proof (count_occ_firstn_lt sicl Hij Hi) as H1.
    destruct (existsb (Z.eqb s) non_instance) eqn:Hni.
    - exfalso.
      assert (Hjl : (j < length sicl)%nat) by (apply nth_error_Some; congruence).
      pose proof (count_occ_firstn_lt sicl Hjl Hj) as H2.
      rewrite firstn_all in H2.
      pose proof (Hone s (nth_error_In _ _ Hi) Hni). lia.
    - destruct include_channel0; lia. }
  apply NoDup_nth_error. intros i j Hi E.
  rewrite length_combine, Hlen, Nat.min_id in Hi.
  rewrite !nth_error_combine in E.
  destruct (nth_error sicl i) as [s|] eqn:Esi;
    [|apply nth_error_None in Esi; lia].
  rewrite (Hslots i s Esi) in E.
  destruct (nth_error sicl j) as [s'|] eqn:Esj; [|discriminate].
  rewrite (Hslots j s' Esj) in E.
  inversion E; subst s'.
  destruct (Nat.lt_trichotomy i j) as [Hij|[Hij|Hij]]; [|exact Hij|].
  - exfalso. eapply Hlt; eauto.
  - exfalso. eapply Hlt; eauto.
Qed.

(** A valid list of channel counts: every class has at least one channel
    and the non-instance class, semantic id 0, has exactly one. *)
Lemma valid_counts_class0 (n : list Z) :
  (forall k, nth_error n 0 = Some k -> k = 1) ->
  forall c, In c (get_semantic_instance_class_list n) ->
            existsb (Z.eqb c) default_non_instance_sem_classes = true ->
            count_occ Z.eq_dec (get_semantic_instance_class_list n) c = 1%nat.
Proof.
  intros H0 c Hin Hc. simpl in Hc. rewrite orb_false_r in Hc.
  apply Z.eqb_eq in Hc. subst c.
  change 0 with (Z.of_nat 0) in *.
  rewrite count_occ_get_semantic_instance_class_list in *.
  apply (count_occ_In Z.eq_dec) in Hin.
  rewrite count_occ_get_semantic_instance_class_list in Hin.
  destruct n as [|k n]; simpl in *; [lia|].
  now rewrite (H0 k eq_refl).
Qed.

(** C4.  Channel layout round-trip: for a valid list of channel counts
    (every entry at least 1, exactly one channel for the non-instance class
    0) the two parallel lists are built, their common length is the sum of
    the counts, and the (semantic class, instance slot) pairs of the channels
    are pairwise distinct, so that every channel appears exactly once in the
    pairing. *)
Theorem C4_channel_layout_round_trip (n : list Z) (include_channel0 : bool) :
  Forall (fun k => 1 <= k) n ->
  (forall k, nth_error n 0 = Some k -> k = 1) ->
  exists icil,
    get_instance_count_id_list (get_semantic_instance_class_list n)
      default_non_instance_sem_classes include_channel0 = Ok icil /\
    Z.of_nat (length (get_semantic_instance_class_list n))
      = fold_right Z.add 0 n /\
    length icil = length (get_semantic_instance_class_list n) /\
    NoDup (combine (get_semantic_instance_class_list n) icil).
Proof.
  intros Hpos H0.
  destruct (get_instance_count_id_list_ok
              (get_semantic_instance_class_list n)
              default_non_instance_sem_classes include_channel0
              (valid_counts_class0 n H0))
    as (icil & Hok & Hlen & _).
  exists icil. split; [exact Hok|]. split; [|split].
  - rewrite length_get_semantic_instance_class_list.
    apply total_channels_sum.
    eapply Forall_impl; [|exact Hpos]. simpl. intros; lia.
  - exact Hlen.
  - eapply layout_pairs_distinct; eauto.
Qed.

Lemma C4_channel_layout_round_trip_witness :
  exists icil,
    get_instance_count_id_list (get_semantic_instance_class_list [1; 3; 3; 3])
      default_non_instance_sem_classes false = Ok icil /\
    Z.of_nat (length (get_semantic_instance_class_list [1; 3; 3; 3]))
      = fold_right Z.add 0 [1; 3; 3; 3] /\
    length icil = length (get_semantic_instance_class_list [1; 3; 3; 3]) /\
    NoDup (combine (get_semantic_instance_class_list [1; 3; 3; 3]) icil).
Proof.
  apply (@C4_channel_layout_round_trip [1; 3; 3; 3] false).
  - repeat constructor; lia.
  - intros k E. simpl in E. now inversion E.
Defined.

(** ** Which channel counts are rejected *)

Lemma in_default_non_instance (c : Z) :
  existsb (Z.eqb c) default_non_instance_sem_classes = true <-> c = 0.
Proof.
  simpl. rewrite orb_false_r. apply Z.eqb_eq.
Qed.

(** C5 (as stated) fails: the list [[1; 0; 2]] gives class 1 no channel and
    the list [[0; 2]] gives the non-instance class 0 no channel, and for both
    the layout is built, also from [InstanceProblemConfig.__init__]. *)
Lemma C5_zero_count_accepted :
  In 0 [1; 0; 2] /\
  get_instance_count_id_list (get_semantic_instance_class_list [1; 0; 2])
    default_non_instance_sem_classes false = Ok [0; 1; 2] /\
  nth 0 [0; 2] 0 <> 1 /\
  get_instance_count_id_list (get_semantic_instance_class_list [0; 2])
    default_non_instance_sem_classes false = Ok [1; 2] /\
  exists cfg,
    InstanceProblemConfig_init [1; 0; 2] None None default_void_value
      false false = Ok cfg /\
    semantic_instance_class_list cfg = [0; 2; 2] /\
    instance_count_id_list cfg = [0; 1; 2].
Proof.
  split; [simpl; auto|]. split; [reflexivity|].
  split; [simpl; lia|]. split; [reflexivity|].
  eexists. split; [vm_compute; reflexivity|]. split; reflexivity.
Qed.

(** C5 (amended).  Building the channel layout fails, on the assertion,
    exactly for the lists that give semantic id 0 two or more channels;
    every other list, also one with a count of 0 for some class, yields a
    layout with one entry per channel. *)
Theorem C5_layout_rejects_only_overbooked_class0 (n : list Z)
    (include_channel0 : bool) :
  match get_instance_count_id_list (get_semantic_instance_class_list n)
          default_non_instance_sem_classes include_channel0 with
  | Ok icil => nth 0 n 0 <= 1 /\ length icil = total_channels n
  | Raise e => e = AssertionError /\ 2 <= nth 0 n 0
  end.
Proof.
  pose proof (count_occ_get_semantic_instance_class_list n 0) as Hcnt.
  change (Z.of_nat 0) with 0 in Hcnt.
  destruct (Z_le_gt_dec (nth 0 n 0) 1) as [Hle|Hgt].
  - destruct (get_instance_count_id_list_ok
                (get_semantic_instance_class_list n)
                default_non_instance_sem_classes include_channel0)
      as (icil & Hok & Hlen & _).
    { intros c Hin Hc. apply in_default_non_instance in Hc. subst c.
      apply (count_occ_In Z.eq_dec) in Hin. lia. }
    rewrite Hok. split; [exact Hle|].
    now rewrite Hlen, length_get_semantic_instance_class_list.
  - rewrite (@get_instance_count_id_list_raises
               (get_semantic_instance_class_list n)
               default_non_instance_sem_classes include_channel0 0).
    + split; [reflexivity|lia].
    + apply (count_occ_In Z.eq_dec). lia.
    + reflexivity.
    + lia.
Qed.

(** ** [InstanceProblemConfig] with [map_to_semantic=True] *)

Lemma sicl_of_ones_from (n : list Z) (k : nat) :
  flat_map (fun '(sem_cls, n_channels) =>
              repeat (Z.of_nat sem_cls) (Z.to_nat n_channels))
           (combine (seq k (length (map (fun _ : Z => 1) n)))
                    (map (fun _ : Z => 1) n))
  = map Z.of_nat (seq k (length n)).
Proof.
  revert k. induction n as [|a n IH]; intros k; simpl; [reflexivity|].
  now rewrite IH.
Qed.

Lemma get_semantic_instance_class_list_ones (n : list Z) :
  get_semantic_instance_class_list (map (fun _ => 1) n) = py_range (length n).
Proof. apply sicl_of_ones_from. Qed.

(** C9.  An [InstanceProblemConfig] constructed with [map_to_semantic=True]
    from a list of length S has [semantic_instance_class_list] equal to
    [[0, 1, ..., S-1]], one channel per semantic class, and
    [n_classes = n_semantic_classes = S]. *)
Theorem C9_map_to_semantic_one_channel_per_class (n : list Z)
    (names : option (list string)) (vals : option (list Z)) (void : Z)
    (include_channel0 : bool) (cfg : InstanceProblemConfig) :
  InstanceProblemConfig_init n names vals void include_channel0 true = Ok cfg ->
  semantic_instance_class_list cfg = py_range (length n) /\
  n_classes cfg = length n /\
  n_semantic_classes cfg = length n.
Proof.
  unfold InstanceProblemConfig_init. intros H.
  assert (Hvals : length (match vals with
                          | Some (v :: sv) => v :: sv
                          | _ => py_range (length n)
                          end) = length n).
  { destruct vals as [[|v sv]|].
    - unfold py_range. now rewrite length_map, length_seq.
    - cbv beta iota in H. revert H.
      destruct (Nat.eqb_spec (length (v :: sv)) (length n)) as [E|NE];
        [intros _; exact E|discriminate].
    - unfold py_range. now rewrite length_map, length_seq. }
  destruct (match vals with
            | Some sv => Nat.eqb (length sv) (length n)
            | None => true
            end); [|discriminate].
  cbn [negb] in H.
  destruct (get_instance_count_id_list _ _ _) as [icil|]; [|discriminate].
  destruct (get_instance_count_id_list _ _ _) as [micil|]; [|discriminate].
  destruct (get_instance_to_semantic_mapping _) as [mat|]; [|discriminate].
  simpl in H. inversion H; subst cfg; clear H. simpl.
  rewrite get_semantic_instance_class_list_ones. auto.
Qed.

Lemma C9_map_to_semantic_one_channel_per_class_witness :
  exists cfg,
    InstanceProblemConfig_init [1; 3; 2] None None default_void_value
      false true = Ok cfg /\
    (semantic_instance_class_list cfg = py_range (length [1; 3; 2]) /\
     n_classes cfg = length [1; 3; 2] /\
     n_semantic_classes cfg = length [1; 3; 2]).
Proof.
  eexists. split.
  - vm_compute. reflexivity.
  - apply (@C9_map_to_semantic_one_channel_per_class [1; 3; 2] None None
             default_void_value false).
    vm_compute. reflexivity.
Defined.

(** ** When [InstanceProblemConfig.__init__] returns *)

Lemma fold_left_max_ge (l : list Z) (x : Z) :
  x <= fold_left Z.max l x /\ forall y, In y l -> y <= fold_left Z.max l x.
Proof.
  revert x. induction l as [|a l IH]; intros x; simpl.
  - split; [lia|tauto].
  - destruct (IH (Z.max x a)) as [H1 H2]. split; [lia|].
    intros y [->|Hy]; [lia|auto].
Qed.

Lemma py_max_ok (l : list Z) :
  l <> [] -> exists m, py_max l = Ok m /\ forall y, In y l -> y <= m.
Proof.
  destruct l as [|x l]; [congruence|]. intros _.
  exists (fold_left Z.max l x). split; [reflexivity|].
  destruct (fold_left_max_ge l x) as [H1 H2].
  intros y [->|Hy]; auto.
Qed.

Lemma py_setitem_ok {A} (l : list A) (i : nat) (v : A) :
  (i < length l)%nat ->
  exists l', py_setitem l (Z.of_nat i) v = Ok l' /\ length l' = length l.
Proof.
  intros Hi. unfold py_setitem.
  destruct (Z.ltb_spec (Z.of_nat i) 0); [lia|].
  destruct (Z.leb_spec 0 (Z.of_nat i)); [|lia].
  destruct (Z.ltb_spec (Z.of_nat i) (Z.of_nat (length l))); [|lia].
  cbn [andb]. eexists. split; [reflexivity|].
  rewrite Nat2Z.id, length_app. cbn [length].
  rewrite length_firstn, length_skipn. lia.
Qed.

Lemma py_getitem_ok {A} (l : list A) (i : nat) :
  (i < length l)%nat ->
  exists x, py_getitem l (Z.of_nat i) = Ok x /\ In x l.
Proof.
  intros Hi. destruct (nth_error l i) as [x|] eqn:E.
  - exists x. split; [now apply py_getitem_nat|]. eapply nth_error_In; eauto.
  - apply nth_error_None in E. lia.
Qed.

Lemma in_py_setitem {A} (l l' : list A) (i : Z) (v x : A) :
  py_setitem l i v = Ok l' -> In x l' -> x = v \/ In x l.
Proof.
  unfold py_setitem.
  destruct ((0 <=? _) && _); [|discriminate].
  intros E Hx. inversion E; subst l'; clear E.
  apply in_app_or in Hx. destruct Hx as [Hx|[->|Hx]]; auto.
  - right. rewrite <- (firstn_skipn (Z.to_nat (if i <? 0
                                                then i + Z.of_nat (length l)
                                                else i)) l).
    apply in_or_app. now left.
  - right. rewrite <- (firstn_skipn (Datatypes.S
                                       (Z.to_nat (if i <? 0
                                                  then i + Z.of_nat (length l)
                                                  else i))) l).
    apply in_or_app. now right.
Qed.

(** The mapping matrix is built for every non-empty class list of
    non-negative ids. *)
Lemma get_instance_to_semantic_mapping_returns (sicl : list Z) :
  sicl <> [] -> Forall (fun s => 0 <= s) sicl ->
  exists mat,
    get_instance_to_semantic_mapping_from_sem_inst_class_list sicl true
    = Ok mat.
Proof.
  intros Hne Hnn.
  unfold get_instance_to_semantic_mapping_from_sem_inst_class_list.
  destruct (py_max_ok Hne) as (m & Em & Hm). rewrite Em. cbn [bind negb].
  rewrite Forall_forall in Hnn.
  destruct (@for_each_invariant (nat * Z) (list (list Z))
              (fun mat '(instance_idx, semantic_idx) =>
                 setitem2 mat semantic_idx (Z.of_nat instance_idx) 1)
              (fun mat =>
                 length mat = Z.to_nat (m + 1) /\
                 forall row, In row mat -> length row = length sicl)
              (enumerate sicl)) with (s := zeros (Z.to_nat (m + 1)) (length sicl))
    as (mat & Emat & _).
  - intros mat [i s] His [Hrows Hcols]. apply in_enumerate in His.
    assert (Hi : (i < length sicl)%nat) by (apply nth_error_Some; congruence).
    pose proof (Hnn s (nth_error_In _ _ His)) as Hs0.
    pose proof (Hm s (nth_error_In _ _ His)) as Hsm.
    unfold setitem2.
    destruct (@py_getitem_ok _ mat (Z.to_nat s)) as (row & Erow & Hrow); [lia|].
    rewrite Z2Nat.id in Erow by lia. rewrite Erow. cbn [bind].
    destruct (@py_setitem_ok _ row i 1) as (row' & Erow' & Hlen');
      [rewrite (Hcols row Hrow); lia|].
    rewrite Erow'. cbn [bind].
    destruct (@py_setitem_ok _ mat (Z.to_nat s) row') as (mat' & Emat' & Hlenm);
      [lia|].
    rewrite Z2Nat.id in Emat' by lia.
    exists mat'. split; [exact Emat'|]. split; [congruence|].
    intros r Hr. destruct (@in_py_setitem _ _ _ _ _ _ Emat' Hr) as [->|Hr'].
    + rewrite Hlen'. auto.
    + auto.
  - unfold zeros. split; [apply repeat_length|].
    intros row Hrow. apply repeat_spec in Hrow. subst row.
    apply repeat_length.
  - eauto.
Qed.

Lemma get_semantic_instance_class_list_nonneg (n : list Z) :
  Forall (fun s => 0 <= s) (get_semantic_instance_class_list n).
Proof.
  apply Forall_forall. intros s Hs.
  unfold get_semantic_instance_class_list in Hs.
  apply in_flat_map in Hs. destruct Hs as ([c k] & _ & Hin).
  apply repeat_spec in Hin. lia.
Qed.

(** With [map_to_semantic=True] the constructor returns for every non-empty
    list of counts that gives semantic id 0 at most one channel (and, when
    [semantic_vals] is given, as many values as counts). *)
Lemma InstanceProblemConfig_init_map_to_semantic_returns (n : list Z)
    (names : option (list string)) (vals : option (list Z)) (void : Z)
    (include_channel0 : bool) :
  n <> [] -> nth 0 n 0 <= 1 ->
  (forall sv, vals = Some sv -> length sv = length n) ->
  exists cfg,
    InstanceProblemConfig_init n names vals void include_channel0 true = Ok cfg.
Proof.
  intros Hne H0 Hvals. unfold InstanceProblemConfig_init.
  assert (Ea : match vals with
               | Some sv => Nat.eqb (length sv) (length n)
               | None => true
               end = true).
  { destruct vals as [sv|]; [|reflexivity]. apply Nat.eqb_eq. now apply Hvals. }
  rewrite Ea. cbn [negb].
  destruct (get_instance_count_id_list_ok
              (get_semantic_instance_class_list (map (fun _ => 1) n))
              default_non_instance_sem_classes include_channel0)
    as (icil & Eicil & _).
  { intros c Hin Hc. apply in_default_non_instance in Hc. subst c.
    change 0 with (Z.of_nat 0).
    rewrite count_occ_get_semantic_instance_class_list.
    destruct n; [congruence|reflexivity]. }
  rewrite Eicil. cbn [bind].
  destruct (get_instance_count_id_list_ok
              (get_semantic_instance_class_list n)
              default_non_instance_sem_classes include_channel0)
    as (micil & Emicil & _).
  { intros c Hin Hc. apply in_default_non_instance in Hc. subst c.
    apply (count_occ_In Z.eq_dec) in Hin.
    pose proof (count_occ_get_semantic_instance_class_list n 0) as Hcnt.
    change (Z.of_nat 0) with 0 in Hcnt. lia. }
  rewrite Emicil. cbn [bind].
  unfold get_instance_to_semantic_mapping.
  destruct (@get_instance_to_semantic_mapping_returns
              (get_semantic_instance_class_list (map (fun _ => 1) n)))
    as (mat & Emat).
  { rewrite get_semantic_instance_class_list_ones.
    destruct n; [congruence|discriminate]. }
  { apply get_semantic_instance_class_list_nonneg. }
  rewrite Emat. cbn [bind]. eauto.
Qed.

(** ** [InstanceProblemConfig] after construction *)

(** C8 (as stated) fails: [set_class_names], which the single-image VOC
    pipeline calls right after construction, replaces a field of a
    constructed configuration. *)
Lemma C8_set_class_names_mutates :
  exists cfg,
    InstanceProblemConfig_init [1; 2] None None default_void_value false false
    = Ok cfg /\
    semantic_class_names cfg = None /\
    semantic_class_names
      (fst (set_class_names (Some ["background"; "person"]%string) cfg))
    = Some ["background"; "person"]%string.
Proof.
  eexists. split; [vm_compute; reflexivity|]. split; reflexivity.
Qed.

(** C8 (amended).  After construction a configuration changes through
    [set_class_names] only.  [set_class_names] returns exactly when
    [class_names] is [None] or has [n_semantic_classes] entries, and then
    the field [semantic_class_names] is [class_names]; otherwise it raises
    [AssertionError] and changes nothing; in both cases it leaves every
    other field as it was.  [decouple_instance_result], the other method
    that is not a constructor or a reader, raises [NotImplementedError] and
    changes nothing.  (The readers [get_channel_labels] and
    [get_model_channel_labels] assign no attribute; they are functions of
    the configuration.) *)
Theorem C8_set_class_names_changes_only_the_names
    (class_names : option (list string)) (self : InstanceProblemConfig) :
  let self' := fst (set_class_names class_names self) in
  (snd (set_class_names class_names self) = Ok tt <->
   class_names = None
   \/ exists names, class_names = Some names
                    /\ length names = n_semantic_classes self) /\
  match snd (set_class_names class_names self) with
  | Ok _ => semantic_class_names self' = class_names
  | Raise e => e = AssertionError /\ self' = self
  end /\
  map_to_semantic self' = map_to_semantic self /\
  semantic_vals self' = semantic_vals self /\
  void_value self' = void_value self /\
  include_instance_channel0 self' = include_instance_channel0 self /\
  n_instances_by_semantic_id self' = n_instances_by_semantic_id self /\
  model_n_instances_by_semantic_id self'
  = model_n_instances_by_semantic_id self /\
  model_semantic_instance_class_list self'
  = model_semantic_instance_class_list self /\
  semantic_instance_class_list self' = semantic_instance_class_list self /\
  n_semantic_classes self' = n_semantic_classes self /\
  n_classes self' = n_classes self /\
  sem_ids_by_instance_id self' = sem_ids_by_instance_id self /\
  instance_count_id_list self' = instance_count_id_list self /\
  model_instance_count_id_list self' = model_instance_count_id_list self /\
  instance_to_semantic_mapping_matrix self'
  = instance_to_semantic_mapping_matrix self /\
  instance_to_semantic_conv1x1 self' = instance_to_semantic_conv1x1 self /\
  forall (T : Type) (instance_scores : T),
    decouple_instance_result instance_scores self
    = (self, Raise NotImplementedError).
Proof.
  cbv zeta. split.
  - unfold set_class_names. destruct class_names as [names|].
    + destruct (Nat.eqb_spec (length names) (n_semantic_classes self))
        as [Hlen|Hlen]; cbn [snd]; split.
      * intros _. right. exists names. auto.
      * reflexivity.
      * discriminate.
      * intros [H|(names' & H & Hlen')]; [discriminate|].
        inversion H; subst names'. contradiction.
    + cbn [snd]. split; [now left|reflexivity].
  - unfold set_class_names.
    destruct (match class_names with
              | Some names => Nat.eqb (length names) (n_semantic_classes self)
              | None => true
              end); simpl; repeat split; reflexivity.
Qed.

(** ** The label combiner *)

Lemma length_mask_mul (m1 m2 : list bool) :
  length m1 = length m2 -> length (mask_mul m1 m2) = length m2.
Proof.
  revert m2. induction m1 as [|a m1 IH]; intros [|b m2] H; simpl in *;
    try discriminate; auto.
Qed.

Lemma nth_error_mask_mul (m1 m2 : list bool) (p : nat) :
  nth_error (mask_mul m1 m2) p =
  match nth_error m1 p, nth_error m2 p with
  | Some a, Some b => Some (a && b)
  | _, _ => None
  end.
Proof.
  revert m2 p. induction m1 as [|a m1 IH]; intros [|b m2] [|p]; simpl; auto.
  now destruct (nth_error m1 p).
Qed.

Section Combine.
Variables sem_lbl inst_lbl : list Z.
Variables sicl icil : list Z.
Variable void : Z.
Hypothesis same_size : length sem_lbl = length inst_lbl.
Hypothesis parallel : length icil = length sicl.

(** What the loops keep true of the output map [y]: it has the size of the
    inputs, and each of its pixels is void or holds a channel that owns the
    pixel's (semantic class, instance id) pair. *)
Let combined (y : list Z) : Prop :=
  length y = length inst_lbl /\
  forall p v, nth_error y p = Some v ->
    v = void \/
    exists c s i, v = Z.of_nat c /\
                  nth_error sem_lbl p = Some s /\
                  nth_error inst_lbl p = Some i /\
                  owns sicl icil c s i.

Lemma combine_channel_keeps (sem_val : Z) (y : list Z) (c : nat) :
  nth_error sicl c = Some sem_val -> combined y ->
  exists y', combine_channel sem_lbl inst_lbl icil sem_val y c = Ok y' /\
             combined y'.
Proof.
  intros Hc [Hlen Hpix]. unfold combine_channel.
  destruct (nth_error icil c) as [i|] eqn:Ei.
  2:{ apply nth_error_None in Ei.
      assert (c < length sicl)%nat by (apply nth_error_Some; congruence). lia. }
  rewrite (py_getitem_nat _ _ Ei). simpl.
  eexists. split; [reflexivity|].
  assert (Hmask : length (mask_mul (eq_scalar sem_lbl sem_val)
                                   (eq_scalar inst_lbl i)) = length y).
  { rewrite length_mask_mul; unfold eq_scalar; rewrite !length_map; congruence. }
  split.
  - now rewrite length_setitem_mask.
  - intros p v. rewrite nth_error_setitem_mask by exact Hmask.
    rewrite nth_error_mask_mul. unfold eq_scalar. rewrite !nth_error_map.
    specialize (Hpix p v).
    destruct (nth_error sem_lbl p) as [s|]; simpl; [|exact Hpix].
    destruct (nth_error inst_lbl p) as [i'|]; simpl; [|exact Hpix].
    destruct (Z.eqb_spec s sem_val) as [->|]; simpl; [|exact Hpix].
    destruct (Z.eqb_spec i' i) as [->|]; simpl; [|exact Hpix].
    intros E. inversion E; subst v. right.
    exists c, sem_val, i. unfold owns. auto.
Qed.

Lemma combine_loops_keep (y : list Z) :
  combined y ->
  exists y',
    for_each (np_unique_counts sicl)
      (fun y '(sem_val, n_instances_for_this_sem_cls) =>
         for_each (sem_inst_idxs_of sicl sem_val)
           (combine_channel sem_lbl inst_lbl icil sem_val) y)
      y = Ok y' /\ combined y'.
Proof.
  apply for_each_invariant. intros y0 [sem_val k] _ Hy0.
  apply for_each_invariant; [|exact Hy0].
  intros y1 c Hc Hy1. apply combine_channel_keeps; [|exact Hy1].
  now apply in_sem_inst_idxs_of.
Qed.
End Combine.

(** The combiner returns, and every pixel of its output is void or holds a
    channel that owns the pixel's pair. *)
Lemma combine_semantic_and_instance_labels_spec (sem_lbl inst_lbl : ndarray)
    (sicl icil : list Z) (void : Z) :
  well_formed sem_lbl -> well_formed inst_lbl ->
  shape sem_lbl = shape inst_lbl ->
  length icil = length sicl ->
  exists y,
    combine_semantic_and_instance_labels sem_lbl inst_lbl sicl icil true void
    = Ok y /\
    shape y = shape inst_lbl /\
    length (data y) = length (data inst_lbl) /\
    forall p v, nth_error (data y) p = Some v ->
      v = void \/
      exists c s i, v = Z.of_nat c /\
                    nth_error (data sem_lbl) p = Some s /\
                    nth_error (data inst_lbl) p = Some i /\
                    owns sicl icil c s i.
Proof.
  intros Hws Hwi Hshape Hpar.
  unfold combine_semantic_and_instance_labels, shape_eqb.
  destruct (list_eq_dec Nat.eq_dec (shape sem_lbl) (shape inst_lbl));
    [|contradiction].
  assert (Hsize : length (data sem_lbl) = length (data inst_lbl)).
  { unfold well_formed in *. congruence. }
  destruct (@combine_loops_keep (data sem_lbl) (data inst_lbl) sicl icil void
              Hsize Hpar (map (fun _ => void) (data inst_lbl)))
    as (y' & Ey & Hlen & Hpix).
  { split; [apply length_map|].
    intros p v Hv. left. rewrite nth_error_map in Hv.
    destruct (nth_error (data inst_lbl) p); simpl in Hv; congruence. }
  rewrite Ey. simpl. eexists. split; [reflexivity|]. simpl. auto.
Qed.

Example combine_example :
  combine_semantic_and_instance_labels example_sem_lbl example_inst_lbl
    example_sicl example_icil true default_void_value
  = Ok (mk_ndarray [2; 3]%nat [0; 1; 2; -1; 3; -1]).
Proof. reflexivity. Qed.

Example example_layout :
  get_semantic_instance_class_list [1; 2; 2] = example_sicl /\
  get_instance_count_id_list example_sicl default_non_instance_sem_classes false
  = Ok example_icil.
Proof. split; reflexivity. Qed.

(** C1.  Label combiner round-trip: the combiner returns, and at every
    non-void pixel [v] of its output the two parallel lists give back the
    pixel's original pair: [semantic_instance_class_list[v]] is the pixel of
    [sem_lbl] and [instance_count_id_list[v]] is the pixel of [inst_lbl].
    (This holds for every layout of two parallel lists; it does not need the
    pairs of the layout to be distinct.) *)
Theorem C1_label_combiner_round_trip (sem_lbl inst_lbl : ndarray)
    (sicl icil : list Z) (void : Z) :
  well_formed sem_lbl -> well_formed inst_lbl ->
  shape sem_lbl = shape inst_lbl ->
  length icil = length sicl ->
  exists y,
    combine_semantic_and_instance_labels sem_lbl inst_lbl sicl icil true void
    = Ok y /\
    forall p v, nth_error (data y) p = Some v -> v <> void ->
      exists s i, nth_error (data sem_lbl) p = Some s /\
                  nth_error (data inst_lbl) p = Some i /\
                  py_getitem sicl v = Ok s /\
                  py_getitem icil v = Ok i.
Proof.
  intros Hws Hwi Hshape Hpar.
  destruct (@combine_semantic_and_instance_labels_spec _ _ _ _ void
              Hws Hwi Hshape Hpar)
    as (y & Ey & _ & _ & Hpix).
  exists y. split; [exact Ey|].
  intros p v Hv Hnv.
  destruct (Hpix p v Hv) as [E|(c & s & i & -> & Hs & Hi & Hcs & Hci)];
    [contradiction|].
  exists s, i. repeat split; auto using py_getitem_nat.
Qed.

Lemma C1_label_combiner_round_trip_witness :
  exists y,
    combine_semantic_and_instance_labels example_sem_lbl example_inst_lbl
      example_sicl example_icil true default_void_value = Ok y /\
    forall p v, nth_error (data y) p = Some v -> v <> default_void_value ->
      exists s i, nth_error (data example_sem_lbl) p = Some s /\
                  nth_error (data example_inst_lbl) p = Some i /\
                  py_getitem example_sicl v = Ok s /\
                  py_getitem example_icil v = Ok i.
Proof.
  apply (@C1_label_combiner_round_trip example_sem_lbl example_inst_lbl
           example_sicl example_icil default_void_value); reflexivity.
Defined.

(** C2.  Silent-drop overflow policy: the combiner returns (it raises
    nothing), and every pixel whose (semantic class, instance id) pair is
    owned by no channel is set to the void value. *)
Theorem C2_overflow_pixels_set_to_void (sem_lbl inst_lbl : ndarray)
    (sicl icil : list Z) (void : Z) :
  well_formed sem_lbl -> well_formed inst_lbl ->
  shape sem_lbl = shape inst_lbl ->
  length icil = length sicl ->
  exists y,
    combine_semantic_and_instance_labels sem_lbl inst_lbl sicl icil true void
    = Ok y /\
    forall p s i,
      nth_error (data sem_lbl) p = Some s ->
      nth_error (data inst_lbl) p = Some i ->
      (forall c, ~ owns sicl icil c s i) ->
      nth_error (data y) p = Some void.
Proof.
  intros Hws Hwi Hshape Hpar.
  destruct (@combine_semantic_and_instance_labels_spec _ _ _ _ void
              Hws Hwi Hshape Hpar)
    as (y & Ey & _ & Hlen & Hpix).
  exists y. split; [exact Ey|].
  intros p s i Hs Hi Hnone.
  destruct (nth_error (data y) p) as [v|] eqn:Ev.
  - destruct (Hpix p v Ev) as [->|(c & s' & i' & _ & Hs' & Hi' & Hown)];
      [reflexivity|].
    exfalso. apply (Hnone c). congruence.
  - apply nth_error_None in Ev.
    assert (p < length (data inst_lbl))%nat by (apply nth_error_Some; congruence).
    lia.
Qed.

Lemma C2_overflow_pixels_set_to_void_witness :
  exists y,
    combine_semantic_and_instance_labels example_sem_lbl example_inst_lbl
      example_sicl example_icil true default_void_value = Ok y /\
    forall p s i,
      nth_error (data example_sem_lbl) p = Some s ->
      nth_error (data example_inst_lbl) p = Some i ->
      (forall c, ~ owns example_sicl example_icil c s i) ->
      nth_error (data y) p = Some default_void_value.
Proof.
  apply (@C2_overflow_pixels_set_to_void example_sem_lbl example_inst_lbl
           example_sicl example_icil default_void_value); reflexivity.
Defined.

(** In the example the third instance of class 1 is over budget: no channel
    owns (1, 3), and its pixel is void in the output. *)
Example example_overflow_pixel :
  (forall c, ~ owns example_sicl example_icil c 1 3) /\
  nth_error (data example_sem_lbl) 3 = Some 1 /\
  nth_error (data example_inst_lbl) 3 = Some 3.
Proof.
  split; [|split; reflexivity].
  intros c [Hs Hi].
  do 5 (destruct c as [|c]; [simpl in *; congruence|]).
  now destruct c.
Qed.

(** C3.  Output range and void propagation: with the default void value
    -1 and a layout of non-negative class and slot ids, the combiner returns
    a map of the shape of its inputs, every pixel of which is a channel index
    in [0, n_channels) or the void value, and a pixel that is void in
    [sem_lbl] or in [inst_lbl] is void in the output. *)
Theorem C3_label_combiner_range_and_void (sem_lbl inst_lbl : ndarray)
    (sicl icil : list Z) :
  well_formed sem_lbl -> well_formed inst_lbl ->
  shape sem_lbl = shape inst_lbl ->
  length icil = length sicl ->
  Forall (fun s => 0 <= s) sicl ->
  Forall (fun i => 0 <= i) icil ->
  exists y,
    combine_semantic_and_instance_labels sem_lbl inst_lbl sicl icil true
      default_void_value = Ok y /\
    shape y = shape sem_lbl /\ shape y = shape inst_lbl /\ well_formed y /\
    (forall p v, nth_error (data y) p = Some v ->
       0 <= v < Z.of_nat (length sicl) \/ v = default_void_value) /\
    (forall p s i,
       nth_error (data sem_lbl) p = Some s ->
       nth_error (data inst_lbl) p = Some i ->
       s = default_void_value \/ i = default_void_value ->
       nth_error (data y) p = Some default_void_value).
Proof.
  intros Hws Hwi Hshape Hpar Hsnn Hinn.
  destruct (@combine_semantic_and_instance_labels_spec _ _ _ _
              default_void_value Hws Hwi Hshape Hpar)
    as (y & Ey & Hsh & Hlen & Hpix).
  exists y. split; [exact Ey|].
  split; [congruence|]. split; [exact Hsh|]. split; [|split].
  - unfold well_formed in *. congruence.
  - intros p v Hv.
    destruct (Hpix p v Hv) as [->|(c & s & i & -> & _ & _ & Hcs & _)];
      [now right|left].
    assert (c < length sicl)%nat by (apply nth_error_Some; congruence). lia.
  - intros p s i Hs Hi Hvoid.
    destruct (nth_error (data y) p) as [v|] eqn:Ev.
    + destruct (Hpix p v Ev) as [->|(c & s' & i' & _ & Hs' & Hi' & Hcs & Hci)];
        [reflexivity|].
      exfalso.
      rewrite Forall_forall in Hsnn, Hinn.
      pose proof (Hsnn _ (nth_error_In _ _ Hcs)).
      pose proof (Hinn _ (nth_error_In _ _ Hci)).
      unfold default_void_value in Hvoid.
      assert (s' = s) by congruence. assert (i' = i) by congruence. lia.
    + apply nth_error_None in Ev.
      assert (p < length (data inst_lbl))%nat by (apply nth_error_Some; congruence).
      lia.
Qed.

Lemma C3_label_combiner_range_and_void_witness :
  exists y,
    combine_semantic_and_instance_labels example_sem_lbl example_inst_lbl
      example_sicl example_icil true default_void_value = Ok y /\
    shape y = shape example_sem_lbl /\ shape y = shape example_inst_lbl /\
    well_formed y /\
    (forall p v, nth_error (data y) p = Some v ->
       0 <= v < Z.of_nat (length example_sicl) \/ v = default_void_value) /\
    (forall p s i,
       nth_error (data example_sem_lbl) p = Some s ->
       nth_error (data example_inst_lbl) p = Some i ->
       s = default_void_value \/ i = default_void_value ->
       nth_error (data y) p = Some default_void_value).
Proof.
  apply (@C3_label_combiner_range_and_void example_sem_lbl example_inst_lbl
           example_sicl example_icil); try reflexivity.
  - unfold example_sicl. repeat constructor; lia.
  - unfold example_icil. repeat constructor; lia.
Defined.

(** ** The combiner inverts a layout of distinct pairs *)

Section CombineOwned.
Variables sem_lbl inst_lbl : list Z.
Variables sicl icil : list Z.
Hypothesis same_size : length sem_lbl = length inst_lbl.
Hypothesis parallel : length icil = length sicl.

(** Once the channels in [D] are through, a pixel whose pair one of them
    owns holds a channel that owns its pair. *)
Let assigned (D : nat -> Prop) (y : list Z) : Prop :=
  length y = length inst_lbl /\
  forall p s i c,
    nth_error sem_lbl p = Some s -> nth_error inst_lbl p = Some i ->
    D c -> owns sicl icil c s i ->
    exists c', nth_error y p = Some (Z.of_nat c') /\ owns sicl icil c' s i.

Lemma combine_channel_assigns (D : nat -> Prop) (sem_val : Z) (y : list Z)
    (ch : nat) :
  nth_error sicl ch = Some sem_val -> assigned D y ->
  exists y', combine_channel sem_lbl inst_lbl icil sem_val y ch = Ok y' /\
             assigned (fun c => D c \/ c = ch) y'.
Proof.
  intros Hch [Hlen Hass]. unfold combine_channel.
  destruct (nth_error icil ch) as [iv|] eqn:Eiv.
  2:{ apply nth_error_None in Eiv.
      assert (ch < length sicl)%nat by (apply nth_error_Some; congruence). lia. }
  rewrite (py_getitem_nat _ _ Eiv). cbn [bind].
  eexists. split; [reflexivity|].
  assert (Hmask : length (mask_mul (eq_scalar sem_lbl sem_val)
                                   (eq_scalar inst_lbl iv)) = length y).
  { rewrite length_mask_mul; unfold eq_scalar; rewrite !length_map; congruence. }
  split; [now rewrite length_setitem_mask|].
  intros p s i c Hs Hi Hc Hown.
  rewrite nth_error_setitem_mask by exact Hmask.
  rewrite nth_error_mask_mul. unfold eq_scalar.
  rewrite !nth_error_map, Hs, Hi. cbn [option_map].
  destruct (Z.eqb_spec s sem_val) as [->|Hs'];
    [destruct (Z.eqb_spec i iv) as [->|Hi']|]; cbn [andb].
  - exists ch. split; [reflexivity|]. split; assumption.
  - destruct Hc as [Hc| ->]; [eauto|].
    destruct Hown as [_ Hown]. congruence.
  - destruct Hc as [Hc| ->]; [eauto|].
    destruct Hown as [Hown _]. congruence.
Qed.

Lemma combine_loops_assign (y : list Z) :
  length y = length inst_lbl ->
  exists y',
    for_each (np_unique_counts sicl)
      (fun y '(sem_val, n_instances_for_this_sem_cls) =>
         for_each (sem_inst_idxs_of sicl sem_val)
           (combine_channel sem_lbl inst_lbl icil sem_val) y)
      y = Ok y' /\
    assigned (fun c => (c < length sicl)%nat) y'.
Proof.
  intros Hlen.
  destruct (@for_each_invariant_visited (Z * nat) (list Z)
              (fun y '(sem_val, n_instances_for_this_sem_cls) =>
                 for_each (sem_inst_idxs_of sicl sem_val)
                   (combine_channel sem_lbl inst_lbl icil sem_val) y)
              (fun seen y =>
                 assigned (fun c => exists s, In s (map fst seen) /\
                                              nth_error sicl c = Some s) y)
              (np_unique_counts sicl)) with (seen := @nil (Z * nat)) (s := y)
    as (y' & Ey' & Hy').
  - intros seen y0 [sem_val k] _ Hy0.
    destruct (@for_each_invariant_visited nat (list Z)
                (combine_channel sem_lbl inst_lbl icil sem_val)
                (fun idxs y1 =>
                   assigned (fun c => (exists s, In s (map fst seen) /\
                                                 nth_error sicl c = Some s)
                                      \/ In c idxs) y1)
                (sem_inst_idxs_of sicl sem_val)) with (seen := @nil nat) (s := y0)
      as (y1 & Ey1 & Hlen1 & Hy1).
    + intros idxs y1 ch Hch Hy1. apply in_sem_inst_idxs_of in Hch.
      destruct (@combine_channel_assigns _ sem_val y1 ch Hch Hy1)
        as (y2 & Ey2 & Hlen2 & Hy2).
      exists y2. split; [exact Ey2|]. split; [exact Hlen2|].
      intros p s i c Hs Hi Hc Hown. apply (Hy2 p s i c Hs Hi); [|exact Hown].
      destruct Hc as [Hc|Hc]; [auto|].
      apply in_app_or in Hc. destruct Hc as [Hc|[Hc|[]]]; auto.
    + destruct Hy0 as [Hlen0 Hy0]. split; [exact Hlen0|].
      intros p s i c Hs Hi [Hc|[]] Hown. eauto.
    + exists y1. split; [exact Ey1|]. split; [exact Hlen1|].
      intros p s i c Hs Hi (s0 & Hs0 & Hc) Hown.
      apply (Hy1 p s i c Hs Hi); [|exact Hown].
      rewrite map_app in Hs0. apply in_app_or in Hs0.
      destruct Hs0 as [Hs0|[Hs0|[]]]; [left; eauto|right].
      simpl in Hs0. subst s0. now apply in_sem_inst_idxs_of.
  - split; [exact Hlen|]. intros p s i c _ _ (s0 & [] & _).
  - exists y'. split; [exact Ey'|].
    destruct Hy' as [Hlen' Hy']. split; [exact Hlen'|].
    intros p s i c Hs Hi Hc Hown. apply (Hy' p s i c Hs Hi); [|exact Hown].
    destruct (nth_error sicl c) as [s0|] eqn:Es0;
      [|apply nth_error_None in Es0; lia].
    exists s0. split; [|reflexivity].
    simpl. unfold np_unique_counts. rewrite map_map. simpl. rewrite map_id.
    apply in_np_unique. eapply nth_error_In; eauto.
Qed.
End CombineOwned.

(** On a layout of pairwise distinct pairs the combiner is the inverse of
    the two parallel lists: a pixel whose pair is the pair of channel [c]
    holds [c]. *)
Lemma combine_semantic_and_instance_labels_inverts
    (sem_lbl inst_lbl : ndarray) (sicl icil : list Z) (void : Z) (y : ndarray)
    (p c : nat) (s i : Z) :
  well_formed sem_lbl -> well_formed inst_lbl ->
  length icil = length sicl ->
  NoDup (combine sicl icil) ->
  combine_semantic_and_instance_labels sem_lbl inst_lbl sicl icil true void
  = Ok y ->
  nth_error (data sem_lbl) p = Some s ->
  nth_error (data inst_lbl) p = Some i ->
  owns sicl icil c s i ->
  nth_error (data y) p = Some (Z.of_nat c).
Proof.
  intros Hws Hwi Hpar Hnd Hy Hs Hi Hown.
  unfold combine_semantic_and_instance_labels in Hy. cbn [negb] in Hy.
  destruct (shape_eqb (shape sem_lbl) (shape inst_lbl)) eqn:Esh;
    [|discriminate].
  apply shape_eqb_true in Esh.
  assert (Hsize : length (data sem_lbl) = length (data inst_lbl)).
  { unfold well_formed in *. congruence. }
  destruct (@combine_loops_assign (data sem_lbl) (data inst_lbl) sicl icil
              Hsize Hpar (map (fun _ => void) (data inst_lbl))
              (length_map _ _))
    as (y' & Ey' & _ & Hass).
  rewrite Ey' in Hy. cbn [bind] in Hy. inversion Hy; subst y; clear Hy.
  cbn [data].
  assert (Hc : (c < length sicl)%nat).
  { destruct Hown as [Hc _]. apply nth_error_Some. congruence. }
  destruct (Hass p s i c Hs Hi Hc Hown) as (c' & Ec' & Hown').
  rewrite Ec'. do 2 f_equal.
  destruct Hown as [H1 H2], Hown' as [H1' H2'].
  apply (proj1 (NoDup_nth_error (combine sicl icil)) Hnd c' c).
  - rewrite length_combine. apply Nat.min_glb_lt; [|rewrite Hpar];
      apply nth_error_Some; congruence.
  - rewrite !nth_error_combine, H1, H2, H1', H2'. reflexivity.
Qed.

(** ** The trainer *)

Lemma io_bind_ok {A B} (evs : list event) (a : A) (k : A -> io B) :
  io_bind (evs, Ok a) k = (evs ++ fst (k a), snd (k a)).
Proof. simpl. now destruct (k a). Qed.

Section TrainerFacts.
Variables image permutations components : Type.
Variable model_forward : image -> tensor4 spec_float.
Variable loss_fcn eval_loss_fcn_with_matching :
  tensor4 spec_float -> ndarray -> ndarray ->
  result (permutations * spec_float * components).
Variable augment_image : image -> ndarray -> image.
Variable tensor_div : spec_float -> nat -> spec_float.
Variable after_optim_step : io unit.

Let compute := @compute_loss permutations components loss_fcn
                 eval_loss_fcn_with_matching tensor_div.

(** [compute_loss] leaves behind at most the in-place update of [inst_lbl]
    and the call of the loss function. *)
Lemma compute_loss_events (self : Trainer) (score : tensor4 spec_float)
    (sem_lbl inst_lbl : ndarray) (override : bool) (ev : event) :
  In ev (fst (compute self score sem_lbl inst_lbl override)) ->
  ev = EvLossFcn \/ exists a, ev = EvInstLblAssign a.
Proof.
  unfold compute, compute_loss.
  destruct (negb _); [simpl; tauto|].
  destruct (map_to_semantic (instance_problem self)); simpl.
  - destruct ((if negb override then loss_fcn else eval_loss_fcn_with_matching)
                score sem_lbl (clamp_instances inst_lbl)) as [[[pm l] cs]|e];
      simpl; intros [<-|[<-|[]]]; eauto.
  - destruct ((if negb override then loss_fcn else eval_loss_fcn_with_matching)
                score sem_lbl inst_lbl) as [[[pm l] cs]|e];
      simpl; intros [<-|[]]; eauto.
Qed.

(** C7.  Shape mismatch fails at the call boundary: when [sem_lbl] and
    [inst_lbl] do not both have the shape (batch, H, W) given by dimensions
    0, 2, 3 of the score tensor, [compute_loss] raises without having touched
    [inst_lbl] or called the loss function (it leaves no event behind);
    and [combine_semantic_and_instance_labels] fails on its assertion, with
    no output, when the two label shapes differ. *)
Theorem C7_shape_mismatch_fails_at_call_boundary
    (self : Trainer) (score : tensor4 spec_float)
    (sem_lbl inst_lbl : ndarray) (override : bool)
    (sem_lbl' inst_lbl' : ndarray) (sicl icil : list Z)
    (set_extras_to_void : bool) (void : Z) :
  ~ (shape sem_lbl = [size0 score; size2 score; size3 score] /\
     shape inst_lbl = [size0 score; size2 score; size3 score]) ->
  shape sem_lbl' <> shape inst_lbl' ->
  compute_loss loss_fcn eval_loss_fcn_with_matching tensor_div
    self score sem_lbl inst_lbl override = ([], Raise Exception) /\
  combine_semantic_and_instance_labels sem_lbl' inst_lbl' sicl icil
    set_extras_to_void void = Raise AssertionError.
Proof.
  intros Hbad Hdiff. split.
  - unfold compute_loss.
    destruct (shape_eqb (shape sem_lbl) (shape inst_lbl)) eqn:E1;
      [|reflexivity].
    destruct (shape_eqb (shape inst_lbl)
                [size0 score; size2 score; size3 score]) eqn:E2;
      [|reflexivity].
    apply shape_eqb_true in E1, E2. exfalso. apply Hbad. split; congruence.
  - unfold combine_semantic_and_instance_labels.
    destruct set_extras_to_void; [|reflexivity].
    destruct (shape_eqb (shape sem_lbl') (shape inst_lbl')) eqn:E;
      [|reflexivity].
    apply shape_eqb_true in E. contradiction.
Qed.

(** What [debug_check_values_are_valid] does, by cases on its three tests. *)
Lemma debug_check_values_are_valid_cases (loss : spec_float)
    (score : tensor4 spec_float) (iteration : nat) :
  debug_check_values_are_valid loss score iteration =
  if is_nan loss then ([], Raise ValueError)
  else ((if SFltb float_1e4 loss then [EvPrintWarning loss iteration] else []),
        if any_nan score then Raise ValueError else Ok tt).
Proof.
  unfold debug_check_values_are_valid.
  destruct (is_nan loss); [reflexivity|].
  destruct (SFltb float_1e4 loss), (any_nan score); reflexivity.
Qed.

(** [train_iteration] once the forward pass and the loss are through. *)
Lemma train_iteration_after_loss (self : Trainer) (img_data : image)
    (tgt : target) (full_input : image) (sem_lbl inst_lbl : ndarray)
    (evs : list event) (perms : permutations) (loss : spec_float)
    (comps : components) :
  model_training self = true ->
  prepare_data_for_forward_pass augment_image self img_data tgt
  = Ok (full_input, sem_lbl, inst_lbl) ->
  compute self (model_forward full_input) sem_lbl inst_lbl false
  = (evs, Ok (perms, loss, comps)) ->
  train_iteration model_forward loss_fcn eval_loss_fcn_with_matching
    augment_image tensor_div after_optim_step self img_data tgt
  = io_bind
      (EvZeroGrad :: EvForward :: evs
         ++ fst (debug_check_values_are_valid loss (model_forward full_input)
                   (state_iteration self)),
       snd (debug_check_values_are_valid loss (model_forward full_input)
              (state_iteration self)))
      (fun _ => io_bind (emit EvBackward)
                  (fun _ => io_bind (emit EvOptimStep)
                              (fun _ => after_optim_step))).
Proof.
  intros Htr Hprep Hloss. unfold train_iteration.
  rewrite Htr, Hprep. unfold lift, emit. cbn [negb].
  rewrite io_bind_ok. cbn [fst snd app].
  rewrite io_bind_ok. cbn [fst snd app].
  rewrite io_bind_ok. cbn [fst snd app].
  unfold compute in Hloss. rewrite Hloss.
  rewrite io_bind_ok. cbn [fst snd app].
  destruct (debug_check_values_are_valid loss (model_forward full_input)
              (state_iteration self)) as [evs' [[]|e]]; cbn [fst snd].
  - rewrite !io_bind_ok. cbn [fst snd app].
    rewrite <- !app_assoc. reflexivity.
  - cbn [io_bind fst snd app]. rewrite <- ?app_assoc. reflexivity.
Qed.

(** C6.  Numerical-validity contract.  Take a training iteration that got
    as far as a loss.  If the loss is non-finite or the score tensor contains
    a non-finite value, the iteration ends in [ValueError] and has run neither
    [loss.backward()] nor [optim.step()] ([optim.zero_grad()] and the forward
    pass precede the check).  Otherwise, if the loss exceeds 1e4, the check
    only prints its warning, and the iteration goes on with
    [loss.backward()], [optim.step()] and the statements after them. *)
Theorem C6_numerical_validity_contract (self : Trainer) (img_data : image)
    (tgt : target) (full_input : image) (sem_lbl inst_lbl : ndarray)
    (evs : list event) (perms : permutations) (loss : spec_float)
    (comps : components) :
  model_training self = true ->
  prepare_data_for_forward_pass augment_image self img_data tgt
  = Ok (full_input, sem_lbl, inst_lbl) ->
  compute_loss loss_fcn eval_loss_fcn_with_matching tensor_div
    self (model_forward full_input) sem_lbl inst_lbl false
  = (evs, Ok (perms, loss, comps)) ->
  if negb (is_finite loss)
     || existsb (fun x => negb (is_finite x))
                (elements (model_forward full_input))
  then
    snd (train_iteration model_forward loss_fcn eval_loss_fcn_with_matching
           augment_image tensor_div after_optim_step self img_data tgt)
    = Raise ValueError /\
    ~ In EvBackward
         (fst (train_iteration model_forward loss_fcn
                 eval_loss_fcn_with_matching augment_image tensor_div
                 after_optim_step self img_data tgt)) /\
    ~ In EvOptimStep
         (fst (train_iteration model_forward loss_fcn
                 eval_loss_fcn_with_matching augment_image tensor_div
                 after_optim_step self img_data tgt))
  else if SFltb float_1e4 loss then
    debug_check_values_are_valid loss (model_forward full_input)
      (state_iteration self)
    = ([EvPrintWarning loss (state_iteration self)], Ok tt) /\
    train_iteration model_forward loss_fcn eval_loss_fcn_with_matching
      augment_image tensor_div after_optim_step self img_data tgt
    = (EvZeroGrad :: EvForward :: evs
         ++ [EvPrintWarning loss (state_iteration self);
             EvBackward; EvOptimStep]
         ++ fst after_optim_step,
       snd after_optim_step)
  else
    train_iteration model_forward loss_fcn eval_loss_fcn_with_matching
      augment_image tensor_div after_optim_step self img_data tgt
    = (EvZeroGrad :: EvForward :: evs ++ [EvBackward; EvOptimStep]
         ++ fst after_optim_step,
       snd after_optim_step).
Proof.
  intros Htr Hprep Hloss.
  rewrite (@train_iteration_after_loss self img_data tgt full_input sem_lbl
             inst_lbl evs perms loss comps Htr Hprep Hloss).
  rewrite debug_check_values_are_valid_cases.
  change (existsb (fun x => negb (is_finite x))
            (elements (model_forward full_input)))
    with (any_nan (model_forward full_input)).
  change (negb (is_finite loss)) with (is_nan loss).
  assert (Hevs : ~ In EvBackward evs /\ ~ In EvOptimStep evs).
  { split; intros Hin;
      pose proof (fun ev => @compute_loss_events self (model_forward full_input)
                              sem_lbl inst_lbl false ev) as Hc;
      unfold compute in Hc; rewrite Hloss in Hc;
      destruct (Hc _ Hin) as [E|[a E]]; discriminate. }
  destruct Hevs as [HnoB HnoS].
  destruct (is_nan loss) eqn:Enan; cbn [orb fst snd].
  - cbn [io_bind app]. rewrite app_nil_r. repeat split.
    + intros [E|[E|Hin]]; [discriminate|discriminate|auto].
    + intros [E|[E|Hin]]; [discriminate|discriminate|auto].
  - destruct (any_nan (model_forward full_input)) eqn:Eany.
    + cbn [io_bind]. repeat split.
      * intros [E|[E|Hin]]; [discriminate|discriminate|].
        apply in_app_or in Hin. destruct Hin as [Hin|Hin]; [auto|].
        destruct (SFltb float_1e4 loss); simpl in Hin;
          [destruct Hin as [E|[]]; discriminate|contradiction].
      * intros [E|[E|Hin]]; [discriminate|discriminate|].
        apply in_app_or in Hin. destruct Hin as [Hin|Hin]; [auto|].
        destruct (SFltb float_1e4 loss); simpl in Hin;
          [destruct Hin as [E|[]]; discriminate|contradiction].
    + unfold emit. rewrite !io_bind_ok. cbn [fst snd app].
      destruct (SFltb float_1e4 loss).
      * split; [reflexivity|]. now rewrite <- app_assoc.
      * now rewrite app_nil_r.
Qed.
End TrainerFacts.

Lemma C7_shape_mismatch_fails_at_call_boundary_witness :
  compute_loss (constant_loss_fcn (S754_zero false))
    (constant_loss_fcn (S754_zero false)) (fun x _ => x)
    (example_trainer example_config)
    (constant_score 1 5 1 1 (S754_zero false))
    (one_pixel 1) (mk_ndarray [1; 1]%nat [1]) false
  = ([], Raise Exception) /\
  combine_semantic_and_instance_labels (one_pixel 1)
    (mk_ndarray [1; 1]%nat [1]) example_sicl example_icil true
    default_void_value = Raise AssertionError.
Proof.
  apply (@C7_shape_mismatch_fails_at_call_boundary unit unit
           (constant_loss_fcn (S754_zero false))
           (constant_loss_fcn (S754_zero false)) (fun x _ => x)
           (example_trainer example_config)
           (constant_score 1 5 1 1 (S754_zero false))
           (one_pixel 1) (mk_ndarray [1; 1]%nat [1]) false
           (one_pixel 1) (mk_ndarray [1; 1]%nat [1])
           example_sicl example_icil true default_void_value).
  - simpl. intros [_ E]. discriminate.
  - simpl. discriminate.
Defined.

(** A non-finite loss: the iteration stops in [ValueError] after
    [zero_grad], the forward pass and the loss function. *)
Lemma C6_numerical_validity_contract_witness :
  snd (train_iteration (fun _ : unit => constant_score 1 5 1 1 (S754_zero false))
         (constant_loss_fcn S754_nan) (constant_loss_fcn S754_nan)
         (fun x _ => x) (fun x _ => x) (ret tt)
         (example_trainer example_config) tt
         (TargetPair (one_pixel 1) (one_pixel 1)))
  = Raise ValueError /\
  ~ In EvBackward
      (fst (train_iteration
              (fun _ : unit => constant_score 1 5 1 1 (S754_zero false))
              (constant_loss_fcn S754_nan) (constant_loss_fcn S754_nan)
              (fun x _ => x) (fun x _ => x) (ret tt)
              (example_trainer example_config) tt
              (TargetPair (one_pixel 1) (one_pixel 1)))) /\
  ~ In EvOptimStep
      (fst (train_iteration
              (fun _ : unit => constant_score 1 5 1 1 (S754_zero false))
              (constant_loss_fcn S754_nan) (constant_loss_fcn S754_nan)
              (fun x _ => x) (fun x _ => x) (ret tt)
              (example_trainer example_config) tt
              (TargetPair (one_pixel 1) (one_pixel 1)))).
Proof.
  exact (@C6_numerical_validity_contract unit unit unit
           (fun _ : unit => constant_score 1 5 1 1 (S754_zero false))
           (constant_loss_fcn S754_nan) (constant_loss_fcn S754_nan)
           (fun x _ => x) (fun x _ => x) (ret tt)
           (example_trainer example_config) tt
           (TargetPair (one_pixel 1) (one_pixel 1))
           tt (one_pixel 1) (one_pixel 1) [EvLossFcn] tt S754_nan tt
           eq_refl eq_refl eq_refl).
Defined.

(** A finite loss above 1e4 with finite scores: one warning, then the
    backward pass and the optimizer step. *)
Example large_loss_only_warns :
  train_iteration (fun _ : unit => constant_score 1 5 1 1 (S754_zero false))
    (constant_loss_fcn float_131072) (constant_loss_fcn float_131072)
    (fun x _ => x) (fun x _ => x) (ret tt)
    (example_trainer example_config) tt
    (TargetPair (one_pixel 1) (one_pixel 1))
  = ([EvZeroGrad; EvForward; EvLossFcn; EvPrintWarning float_131072 7;
      EvBackward; EvOptimStep], Ok tt).
Proof. reflexivity. Qed.

(** An infinite loss is non-finite: no warning, no backward pass. *)
Example infinite_loss_raises :
  train_iteration (fun _ : unit => constant_score 1 5 1 1 (S754_zero false))
    (constant_loss_fcn (S754_infinity false))
    (constant_loss_fcn (S754_infinity false))
    (fun x _ => x) (fun x _ => x) (ret tt)
    (example_trainer example_config) tt
    (TargetPair (one_pixel 1) (one_pixel 1))
  = ([EvZeroGrad; EvForward; EvLossFcn], Raise ValueError).
Proof. reflexivity. Qed.

(** ** The channel-wise argmax *)

Section ArgmaxFacts.
Variable V : Type.
Variable ltb : V -> V -> bool.
Hypothesis ltb_asym : forall x y, ltb x y = true -> ltb y x = false.

Lemma argmax_from_stays (l : list V) (best : nat) (vbest : V) (i : nat) :
  (forall x, In x l -> ltb x vbest = true) ->
  argmax_from ltb best vbest i l = best.
Proof.
  revert i. induction l as [|x l IH]; intros i H; simpl; [reflexivity|].
  rewrite (ltb_asym (H x (or_introl eq_refl))).
  apply IH. intros y Hy. apply H. now right.
Qed.

Lemma argmax_from_finds (l : list V) :
  forall (best : nat) (vbest : V) (i k : nat) (va : V),
    nth_error l k = Some va ->
    ltb vbest va = true ->
    (forall j x, nth_error l j = Some x -> j <> k -> ltb x va = true) ->
    argmax_from ltb best vbest i l = (i + k)%nat.
Proof.
  induction l as [|x l IH]; intros best vbest i k va Hk Hbest Hothers.
  - now destruct k.
  - destruct k as [|k]; simpl in *.
    + inversion Hk; subst x. rewrite Hbest.
      rewrite argmax_from_stays; [lia|].
      intros y Hy. apply In_nth_error in Hy. destruct Hy as [j Hj].
      apply (Hothers (Datatypes.S j) y Hj). discriminate.
    + assert (Hx : ltb x va = true) by (apply (Hothers 0%nat x eq_refl); discriminate).
      assert (Hrest : forall j y, nth_error l j = Some y -> j <> k ->
                                  ltb y va = true).
      { intros j y Hj Hne. apply (Hothers (Datatypes.S j) y Hj). congruence. }
      destruct (ltb vbest x).
      * rewrite (IH i x (Datatypes.S i) k va Hk Hx Hrest). lia.
      * rewrite (IH best vbest (Datatypes.S i) k va Hk Hbest Hrest). lia.
Qed.

(** When one position beats all others, [argmax] returns it. *)
Lemma argmax_unique (l : list V) (a : nat) (va : V) :
  nth_error l a = Some va ->
  (forall j x, nth_error l j = Some x -> j <> a -> ltb x va = true) ->
  argmax ltb l = Ok a.
Proof.
  intros Ha Hothers. destruct l as [|x l]; [now destruct a|].
  simpl. f_equal. destruct a as [|a]; simpl in Ha.
  - inversion Ha; subst x. apply argmax_from_stays.
    intros y Hy. apply In_nth_error in Hy. destruct Hy as [j Hj].
    apply (Hothers (Datatypes.S j) y Hj). discriminate.
  - rewrite (@argmax_from_finds l 0%nat x 1%nat a va Ha).
    + reflexivity.
    + apply (Hothers 0%nat x eq_refl). discriminate.
    + intros j y Hj Hne. apply (Hothers (Datatypes.S j) y Hj). congruence.
Qed.

Lemma nth_error_channel_vector (t : tensor4 V) (b h w c : nat) :
  nth_error (channel_vector t b h w) c =
  if (c <? size1 t)%nat then Some (item t b c h w) else None.
Proof.
  unfold channel_vector. rewrite nth_error_map.
  destruct (Nat.ltb_spec c (size1 t)) as [Hlt|Hge].
  - rewrite nth_error_nth' with (d := 0%nat) by (now rewrite length_seq).
    now rewrite seq_nth.
  - assert (E : nth_error (seq 0 (size1 t)) c = None).
    { apply nth_error_None. now rewrite length_seq. }
    now rewrite E.
Qed.

Lemma argmax_at_unique (t : tensor4 V) (b h w a : nat) :
  unique_argmax ltb t b h w a -> argmax_at ltb t b h w = Ok (Z.of_nat a).
Proof.
  intros [Ha Hothers]. unfold argmax_at.
  rewrite (@argmax_unique (channel_vector t b h w) a (item t b a h w)).
  - reflexivity.
  - rewrite nth_error_channel_vector.
    destruct (Nat.ltb_spec a (size1 t)); [reflexivity|lia].
  - intros j x Hj Hne. rewrite nth_error_channel_vector in Hj.
    destruct (Nat.ltb_spec j (size1 t)); [|discriminate].
    inversion Hj; subst x. now apply Hothers.
Qed.
End ArgmaxFacts.

(** ** [permute_labels], pixel by pixel *)

Lemma map_snd_combine_seq {A} (l : list A) (k : nat) :
  map snd (combine (seq k (length l)) l) = l.
Proof.
  revert k. induction l as [|a l IH]; intros k; simpl; [reflexivity|].
  now rewrite IH.
Qed.

Lemma map_snd_enumerate {A} (l : list A) : map snd (enumerate l) = l.
Proof. apply map_snd_combine_seq. Qed.

Section RelabelFacts.
Variable v : Z.

Let pick := fun (acc : Z) '((new_channel, old_channel) : nat * Z) =>
              if v =? old_channel then Z.of_nat new_channel else acc.

Lemma relabel_pairs_stays (pairs : list (nat * Z)) (x : Z) :
  ~ In v (map snd pairs) -> fold_left pick pairs x = x.
Proof.
  revert x. induction pairs as [|[n o] pairs IH]; intros x H; simpl;
    [reflexivity|].
  simpl in H. destruct (Z.eqb_spec v o) as [->|_]; [tauto|].
  apply IH. tauto.
Qed.

Lemma relabel_pairs_finds (pairs : list (nat * Z)) (x : Z) (n : nat) :
  NoDup (map snd pairs) -> In (n, v) pairs ->
  fold_left pick pairs x = Z.of_nat n.
Proof.
  revert x. induction pairs as [|[n0 o0] pairs IH]; intros x Hnd Hin;
    [destruct Hin|].
  simpl in Hnd. inversion Hnd as [|? ? Hnotin Hnd']; subst.
  destruct Hin as [E|Hin].
  - inversion E; subst n0 o0. simpl. rewrite Z.eqb_refl.
    now apply relabel_pairs_stays.
  - simpl. apply IH; assumption.
Qed.

(** A label that the row does not mention is left as it is. *)
Lemma relabel_row_other (x : Z) (row : list Z) :
  ~ In v row -> relabel_row v x row = x.
Proof.
  intros H. unfold relabel_row. apply relabel_pairs_stays.
  now rewrite map_snd_enumerate.
Qed.

(** A label that a row without repetitions holds at position [n] becomes
    [n]. *)
Lemma relabel_row_position (x : Z) (row : list Z) (n : nat) :
  NoDup row -> nth_error row n = Some v ->
  relabel_row v x row = Z.of_nat n.
Proof.
  intros Hnd Hn. unfold relabel_row. apply relabel_pairs_finds.
  - now rewrite map_snd_enumerate.
  - now apply in_enumerate.
Qed.
End RelabelFacts.

Lemma permute_labels_row_pixel (orig : list Z) (pairs : list (nat * Z)) :
  forall (cur : list Z) (k : nat) (v x : Z),
    length cur = length orig ->
    nth_error orig k = Some v -> nth_error cur k = Some x ->
    nth_error
      (fold_left (fun acc '(new_channel, old_channel) =>
                    setitem_mask acc (eq_scalar orig old_channel)
                                 (Z.of_nat new_channel))
                 pairs cur) k
    = Some (fold_left (fun acc '(new_channel, old_channel) =>
                         if v =? old_channel then Z.of_nat new_channel
                         else acc)
                      pairs x).
Proof.
  induction pairs as [|[n o] pairs IH]; intros cur k v x Hlen Hv Hx; simpl;
    [exact Hx|].
  apply IH.
  - now rewrite length_setitem_mask.
  - exact Hv.
  - rewrite nth_error_setitem_mask
      by (unfold eq_scalar; rewrite length_map; congruence).
    unfold eq_scalar. rewrite nth_error_map, Hv. simpl.
    now destruct (v =? o).
Qed.

Lemma length_permute_labels_row (orig cur row : list Z) :
  length (permute_labels_row orig cur row) = length cur.
Proof.
  unfold permute_labels_row. generalize (enumerate row) as pairs.
  intros pairs. revert cur.
  induction pairs as [|[n o] pairs IH]; intros cur; simpl; [reflexivity|].
  now rewrite IH, length_setitem_mask.
Qed.

(** [permute_labels] relabels every pixel on its own, by [relabel]. *)
Lemma permute_labels_pixel (label_preds : ndarray)
    (permutations : list (list Z)) (k : nat) (v : Z) :
  nth_error (data label_preds) k = Some v ->
  nth_error (data (permute_labels label_preds permutations)) k
  = Some (relabel permutations v).
Proof.
  intros Hv. unfold permute_labels, relabel. simpl.
  assert (G : forall rows cur x,
             length cur = length (data label_preds) ->
             nth_error cur k = Some x ->
             nth_error (fold_left (permute_labels_row (data label_preds))
                                  rows cur) k
             = Some (fold_left (relabel_row v) rows x)).
  { induction rows as [|row rows IH]; intros cur x Hlen Hx; simpl;
      [exact Hx|].
    apply IH.
    - now rewrite length_permute_labels_row.
    - unfold permute_labels_row, relabel_row.
      now apply permute_labels_row_pixel. }
  now apply G.
Qed.

(** Labels outside every row, such as the void value, are left unchanged. *)
Lemma relabel_other (permutations : list (list Z)) (v : Z) :
  (forall row, In row permutations -> ~ In v row) ->
  relabel permutations v = v.
Proof.
  unfold relabel. intros H.
  assert (G : forall x, fold_left (relabel_row v) permutations x = x).
  { induction permutations as [|row rows IH]; intros x; simpl; [reflexivity|].
    rewrite relabel_row_other by (apply H; now left).
    apply IH. intros r Hr. apply H. now right. }
  apply G.
Qed.

(** ** [permute_scores] *)

Lemma normalize_index_in_range (n : nat) (i : Z) :
  0 <= i < Z.of_nat n -> normalize_index n i = Ok (Z.to_nat i).
Proof.
  intros H. unfold normalize_index.
  destruct (Z.ltb_spec i 0); [lia|].
  destruct (Z.leb_spec 0 i); [|lia].
  destruct (Z.ltb_spec i (Z.of_nat n)); [reflexivity|lia].
Qed.

Section PermuteScores.
Variable V : Type.
Variable score : tensor4 V.

(** With any batch size other than 1 the first channel already fails: the
    indexed value has shape (batch, rows, H, W) and cannot be stored in a
    slot of shape (batch, H, W). *)
Lemma permute_scores_batch_raises (pred_permutations : list (list Z)) :
  size0 score <> 1%nat -> (0 < size1 score)%nat ->
  exists e, permute_scores score pred_permutations = Raise e.
Proof.
  intros HB HC. unfold permute_scores.
  destruct (size1 score) as [|C] eqn:EC; [lia|].
  cbn [seq for_each].
  destruct (column pred_permutations 0) as [idx|e]; [|simpl; eauto].
  cbn [bind]. unfold index_channels.
  destruct (map_result (normalize_index (size1 score)) idx) as [js|e];
    [|simpl; eauto].
  cbn [bind]. unfold setitem_channel. cbn [size0].
  destruct (Nat.eqb_spec (size0 score) 1); [contradiction|].
  simpl. eauto.
Qed.

(** With one image and one row that is a bijection, channel [c] of the
    result is channel [p[c]] of the input. *)
Lemma permute_scores_single_image (p : list Z) :
  size0 score = 1%nat -> bijection_row (size1 score) p ->
  exists t,
    permute_scores score [p] = Ok t /\
    size0 t = 1%nat /\ size1 t = size1 score /\
    size2 t = size2 score /\ size3 t = size3 score /\
    forall c h w,
      (c < size1 score)%nat -> (h < size2 score)%nat -> (w < size3 score)%nat ->
      item t 0%nat c h w = item score 0%nat (Z.to_nat (nth c p 0)) h w.
Proof.
  intros HB (Hlen & Hnd & Hrange).
  rewrite Forall_forall in Hrange.
  unfold permute_scores.
  destruct (@for_each_invariant_visited nat (tensor4 V)
              (fun dst ch =>
                 idx <- column [p] ch ;;
                 val <- index_channels score idx ;;
                 setitem_channel dst ch val)
              (fun seen dst =>
                 size0 dst = 1%nat /\ size1 dst = size1 score /\
                 size2 dst = size2 score /\ size3 dst = size3 score /\
                 forall c h w,
                   In c seen -> (h < size2 score)%nat -> (w < size3 score)%nat ->
                   item dst 0%nat c h w
                   = item score 0%nat (Z.to_nat (nth c p 0)) h w)
              (seq 0 (size1 score))) with (seen := @nil nat) (s := score)
    as (t & Et & H0 & H1 & H2 & H3 & Hitem).
  - intros seen dst ch Hch (D0 & D1 & D2 & D3 & Ditem).
    apply in_seq in Hch.
    destruct (nth_error p ch) as [pc|] eqn:Epc;
      [|apply nth_error_None in Epc; lia].
    assert (Hpc : 0 <= pc < Z.of_nat (size1 score))
      by (apply Hrange; eapply nth_error_In; eauto).
    unfold column. cbn [map_result]. rewrite (py_getitem_nat _ _ Epc).
    cbn [bind]. unfold index_channels. cbn [map_result].
    rewrite (@normalize_index_in_range _ _ Hpc). cbn [bind length].
    unfold setitem_channel. cbn [size0 size1 size2 size3 item].
    rewrite HB, D0, D2, D3. unfold broadcastable.
    rewrite !Nat.eqb_refl. cbn [andb orb].
    eexists. split; [reflexivity|]. cbn [size0 size1 size2 size3 item].
    repeat (split; [first [assumption|reflexivity]|]).
    intros c h w Hc Hh Hw.
    destruct (Nat.eqb_spec c ch) as [->|Hne].
    + unfold broadcast_index. cbn [nth].
      rewrite (nth_error_nth _ _ 0 Epc).
      destruct (Nat.eqb_spec (size2 score) 1) as [E2|_];
        destruct (Nat.eqb_spec (size3 score) 1) as [E3|_];
        repeat match goal with
               | |- context [if ?b then _ else _] => destruct b
               end;
        f_equal; lia.
    + apply Ditem; auto.
      apply in_app_or in Hc. destruct Hc as [Hc|[Hc|[]]]; congruence.
  - repeat split; auto. intros c h w [].
  - exists t. repeat (split; [assumption|]).
    intros c h w Hc Hh Hw. apply Hitem; auto.
    apply in_seq. lia.
Qed.
End PermuteScores.

(** ** Permuting scores and permuting labels *)

Lemma bijection_row_onto (n_channels : nat) (p : list Z) (a : nat) :
  bijection_row n_channels p -> (a < n_channels)%nat ->
  exists n, nth_error p n = Some (Z.of_nat a).
Proof.
  intros (Hlen & Hnd & Hrange) Ha.
  rewrite Forall_forall in Hrange.
  apply In_nth_error.
  apply (@NoDup_length_incl Z p (py_range n_channels) Hnd).
  - unfold py_range. rewrite length_map, length_seq. lia.
  - intros x Hx. specialize (Hrange x Hx). unfold py_range.
    apply in_map_iff. exists (Z.to_nat x). split; [lia|].
    apply in_seq. lia.
  - unfold py_range. apply in_map_iff. exists a. split; [reflexivity|].
    apply in_seq. lia.
Qed.

Section Commute.
Variable V : Type.
Variable ltb : V -> V -> bool.
Hypothesis ltb_asym : forall x y, ltb x y = true -> ltb y x = false.

(** X9.  For a batch of one image and a row that is a bijection, the two
    appliers agree: at a pixel whose channel-wise argmax [a] is unique, the
    argmax of the permuted scores is the label that [permute_labels] writes
    where the label map holds [a]. *)
Lemma permute_commutes_single_image (score : tensor4 V) (p : list Z)
    (h w a : nat) (label_preds : ndarray) (k : nat) :
  size0 score = 1%nat -> bijection_row (size1 score) p ->
  (h < size2 score)%nat -> (w < size3 score)%nat ->
  unique_argmax ltb score 0 h w a ->
  nth_error (data label_preds) k = Some (Z.of_nat a) ->
  exists t a',
    permute_scores score [p] = Ok t /\
    argmax_at ltb score 0 h w = Ok (Z.of_nat a) /\
    argmax_at ltb t 0 h w = Ok a' /\
    nth_error (data (permute_labels label_preds [p])) k = Some a'.
Proof.
  intros HB Hbij Hh Hw Huniq Hk.
  destruct (permute_scores_single_image score HB Hbij)
    as (t & Et & _ & T1 & _ & _ & Hitem).
  destruct Huniq as [Ha Hothers].
  destruct (bijection_row_onto Hbij Ha) as (n & Hn).
  destruct Hbij as (Hlen & Hnd & Hrange). rewrite Forall_forall in Hrange.
  assert (Hnlt : (n < size1 score)%nat).
  { rewrite <- Hlen. apply nth_error_Some. congruence. }
  exists t, (Z.of_nat n). split; [exact Et|]. split; [|split].
  - apply argmax_at_unique; [exact ltb_asym|]. split; assumption.
  - apply argmax_at_unique; [exact ltb_asym|]. split; [lia|].
    intros c Hc Hne. rewrite T1 in Hc.
    rewrite !Hitem by assumption.
    rewrite (nth_error_nth _ _ 0 Hn), Nat2Z.id.
    destruct (nth_error p c) as [pc|] eqn:Epc;
      [|apply nth_error_None in Epc; lia].
    rewrite (nth_error_nth _ _ 0 Epc).
    pose proof (Hrange pc (nth_error_In _ _ Epc)) as Hpc.
    apply Hothers; [lia|].
    intros E. apply Hne.
    assert (Epc' : nth_error p c = nth_error p n).
    { rewrite Epc, Hn. f_equal. lia. }
    apply (proj1 (NoDup_nth_error p) Hnd c n); [lia|exact Epc'].
  - rewrite (permute_labels_pixel _ _ _ Hk). f_equal.
    unfold relabel. simpl. now apply relabel_row_position.
Qed.
End Commute.

(** Labels outside [0, n_channels), such as the void value, are left
    unchanged by [permute_labels]. *)
Lemma permute_labels_keeps_out_of_range (n_channels : nat)
    (label_preds : ndarray) (permutations : list (list Z)) (k : nat) (v : Z) :
  (forall row, In row permutations -> bijection_row n_channels row) ->
  ~ (0 <= v < Z.of_nat n_channels) ->
  nth_error (data label_preds) k = Some v ->
  nth_error (data (permute_labels label_preds permutations)) k = Some v.
Proof.
  intros Hrows Hout Hk. rewrite (permute_labels_pixel _ _ _ Hk). f_equal.
  apply relabel_other. intros row Hrow Hin.
  destruct (Hrows row Hrow) as (_ & _ & Hrange).
  rewrite Forall_forall in Hrange. apply Hout. now apply Hrange.
Qed.

Example permute_commutes_single_image_example :
  exists t,
    permute_scores example_score_image0 [[1; 0]] = Ok t /\
    argmax_at Z.ltb example_score_image0 0 0 0 = Ok 0 /\
    argmax_at Z.ltb t 0 0 0 = Ok 1 /\
    permute_labels (one_pixel 0) [[1; 0]] = one_pixel 1.
Proof. eexists. repeat split; reflexivity. Qed.

(** C10 at a batch of two images.  Both images have their argmax at
    channel 0; the first row keeps the channels, the second swaps them.
    [permute_scores] raises: the value indexed for a channel has shape
    (2, 2, 1, 1) and the slot it is stored in has shape (2, 1, 1).
    [permute_labels] applies every row to every image, so that the last row
    wins: it relabels the pixel of the first image to 1, although that
    image, permuted on its own with its own row, has its argmax at 0. *)
Theorem C10_batch_of_two_breaks_commutation :
  bijection_row 2 [0; 1] /\ bijection_row 2 [1; 0] /\
  argmax_at Z.ltb example_score_batch2 0 0 0 = Ok 0 /\
  argmax_at Z.ltb example_score_batch2 1 0 0 = Ok 0 /\
  permute_scores example_score_batch2 example_permutations_batch2
  = Raise ShapeError /\
  permute_labels example_argmax_batch2 example_permutations_batch2
  = mk_ndarray [2; 1; 1]%nat [1; 1] /\
  exists t,
    permute_scores example_score_image0 [[0; 1]] = Ok t /\
    argmax_at Z.ltb t 0 0 0 = Ok 0.
Proof.
  split; [|split].
  - split; [reflexivity|]. split; [|repeat constructor; lia].
    repeat constructor; simpl; intuition discriminate.
  - split; [reflexivity|]. split; [|repeat constructor; lia].
    repeat constructor; simpl; intuition discriminate.
  - repeat split; try reflexivity.
    eexists. split; reflexivity.
Qed.

(* ================================================================== *)
(** * Further properties of the modelled code                          *)
(* ================================================================== *)

(** ** The class list: grouped, counted, in range *)

Lemma strongly_sorted_app (l1 l2 : list Z) :
  StronglySorted Z.le l1 -> StronglySorted Z.le l2 ->
  (forall x y, In x l1 -> In y l2 -> x <= y) ->
  StronglySorted Z.le (l1 ++ l2).
Proof.
  induction l1 as [|a l1 IH]; intros H1 H2 Hle; simpl; [exact H2|].
  inversion H1 as [|? ? Hs Hall]; subst. constructor.
  - apply IH; auto. intros x y Hx Hy. apply Hle; [now right|exact Hy].
  - rewrite Forall_forall in *. intros y Hy.
    apply in_app_or in Hy. destruct Hy as [Hy|Hy]; auto.
    apply Hle; [now left|exact Hy].
Qed.

Lemma strongly_sorted_repeat (x : Z) (k : nat) :
  StronglySorted Z.le (repeat x k).
Proof.
  induction k as [|k IH]; simpl; constructor; [exact IH|].
  apply Forall_forall. intros y Hy. apply repeat_spec in Hy. lia.
Qed.

Lemma in_sicl_from (n : list Z) (k : nat) (s : Z) :
  In s (flat_map (fun '(sem_cls, n_channels) =>
                    repeat (Z.of_nat sem_cls) (Z.to_nat n_channels))
                 (combine (seq k (length n)) n)) ->
  Z.of_nat k <= s < Z.of_nat (k + length n).
Proof.
  revert k. induction n as [|a n IH]; intros k; simpl; [tauto|].
  intros H. apply in_app_or in H. destruct H as [H|H].
  - apply repeat_spec in H. lia.
  - apply IH in H. lia.
Qed.

(** X1.  [get_semantic_instance_class_list] lists the class ids in
    non-decreasing order, so that the channels of a class are contiguous;
    class [c] occurs [max(n[c], 0)] times; and every entry is the index of a
    count. *)
Theorem X1_class_list_grouped_counted_in_range (n : list Z) :
  StronglySorted Z.le (get_semantic_instance_class_list n) /\
  (forall c, count_occ Z.eq_dec (get_semantic_instance_class_list n)
                       (Z.of_nat c) = Z.to_nat (nth c n 0)) /\
  (forall s, In s (get_semantic_instance_class_list n) ->
             0 <= s < Z.of_nat (length n)).
Proof.
  split; [|split].
  - unfold get_semantic_instance_class_list, enumerate.
    generalize 0%nat as k. induction n as [|a n IH]; intros k; simpl.
    + constructor.
    + apply strongly_sorted_app.
      * apply strongly_sorted_repeat.
      * apply IH.
      * intros x y Hx Hy. apply repeat_spec in Hx. subst x.
        apply in_sicl_from in Hy. lia.
  - intros c. apply count_occ_get_semantic_instance_class_list.
  - intros s Hs. unfold get_semantic_instance_class_list, enumerate in Hs.
    apply in_sicl_from in Hs. lia.
Qed.

(** ** The instance slots: closed form and failure *)

(** X2.  [get_instance_count_id_list] either returns a list parallel to the
    class list, in which a channel of a non-instance class holds 0 and any
    other channel holds its rank among the channels of its class (counted
    from 1, or from 0 with [include_channel0]); or it fails on its assertion,
    which happens exactly when some non-instance class occurs in the class
    list other than once. *)
Theorem X2_instance_slots_characterised (sicl non_instance : list Z)
    (include_channel0 : bool) :
  match get_instance_count_id_list sicl non_instance include_channel0 with
  | Ok icil =>
      length icil = length sicl /\
      (forall i s, nth_error sicl i = Some s ->
         nth_error icil i =
         Some (if existsb (Z.eqb s) non_instance then 0
               else Z.of_nat (count_occ Z.eq_dec (firstn i sicl) s)
                    + (if include_channel0 then 0 else 1))) /\
      (forall c, In c sicl -> In c non_instance ->
                 count_occ Z.eq_dec sicl c = 1%nat)
  | Raise e =>
      e = AssertionError /\
      exists c, In c sicl /\ In c non_instance /\
                count_occ Z.eq_dec sicl c <> 1%nat
  end.
Proof.
  assert (Hmem : forall c, existsb (Z.eqb c) non_instance = true
                           <-> In c non_instance).
  { intros c. rewrite existsb_exists. split.
    - intros (x & Hx & E). apply Z.eqb_eq in E. now subst.
    - intros H. exists c. split; [exact H|apply Z.eqb_refl]. }
  destruct (get_instance_count_id_list sicl non_instance include_channel0)
    as [icil|e] eqn:E.
  - destruct (get_instance_count_id_list_slots _ _ _ E) as [Hlen Hslots].
    split; [exact Hlen|]. split; [exact Hslots|].
    intros c Hin Hni.
    apply (get_instance_count_id_list_ok_inv _ _ _ E c Hin).
    now apply Hmem.
  - destruct (Exists_dec
                (fun c => existsb (Z.eqb c) non_instance = true /\
                          count_occ Z.eq_dec sicl c <> 1%nat) sicl)
      as [Hex|Hall].
    + intros c. destruct (existsb (Z.eqb c) non_instance);
        destruct (Nat.eq_dec (count_occ Z.eq_dec sicl c) 1);
        [right|left|right|right]; try tauto; intros [H _]; discriminate.
    + apply Exists_exists in Hex. destruct Hex as (c & Hin & Hni & Hcnt).
      rewrite (get_instance_count_id_list_raises sicl non_instance
                 include_channel0 c Hin Hni Hcnt) in E.
      inversion E; subst e. split; [reflexivity|].
      exists c. repeat split; auto. now apply Hmem.
    + exfalso.
      destruct (@get_instance_count_id_list_ok sicl non_instance
                  include_channel0) as (icil & E' & _); [|congruence].
      intros c Hin Hni.
      destruct (Nat.eq_dec (count_occ Z.eq_dec sicl c) 1) as [E1|NE];
        [exact E1|].
      exfalso. apply Hall. apply Exists_exists. eauto.
Qed.

(** ** The combiner on built layouts and on lists that are not parallel *)

(** X3.  On a layout built by [get_instance_count_id_list] the combiner is
    the inverse of the two parallel lists: a pixel whose (semantic class,
    instance id) pair is the pair of channel [c] holds exactly [c] in the
    output. *)
Theorem X3_combiner_inverts_built_layout (sem_lbl inst_lbl : ndarray)
    (sicl non_instance : list Z) (include_channel0 : bool) (icil : list Z)
    (void : Z) (y : ndarray) (p c : nat) (s i : Z) :
  well_formed sem_lbl -> well_formed inst_lbl ->
  get_instance_count_id_list sicl non_instance include_channel0 = Ok icil ->
  combine_semantic_and_instance_labels sem_lbl inst_lbl sicl icil true void
  = Ok y ->
  nth_error (data sem_lbl) p = Some s ->
  nth_error (data inst_lbl) p = Some i ->
  owns sicl icil c s i ->
  nth_error (data y) p = Some (Z.of_nat c).
Proof.
  intros Hws Hwi Hlayout Hy Hs Hi Hown.
  destruct (get_instance_count_id_list_slots _ _ _ Hlayout) as [Hlen _].
  pose proof (layout_pairs_distinct _ _ _ Hlayout) as Hnd.
  exact (@combine_semantic_and_instance_labels_inverts sem_lbl inst_lbl sicl
           icil void y p c s i Hws Hwi Hlen Hnd Hy Hs Hi Hown).
Qed.

Lemma X3_combiner_inverts_built_layout_witness :
  nth_error (data (mk_ndarray [2; 3]%nat [0; 1; 2; -1; 3; -1])) 2
  = Some (Z.of_nat 2).
Proof.
  apply (@X3_combiner_inverts_built_layout example_sem_lbl example_inst_lbl
           example_sicl default_non_instance_sem_classes false example_icil
           default_void_value (mk_ndarray [2; 3]%nat [0; 1; 2; -1; 3; -1])
           2%nat 2%nat 1 2); try reflexivity.
  split; reflexivity.
Defined.

Lemma py_getitem_out_of_range {A} (l : list A) (c : nat) :
  (length l <= c)%nat -> py_getitem l (Z.of_nat c) = Raise IndexError.
Proof.
  intros H. unfold py_getitem.
  destruct (Z.ltb_spec (Z.of_nat c) 0); [lia|].
  destruct (Z.ltb_spec (Z.of_nat c) (Z.of_nat (length l))); [lia|].
  now rewrite andb_false_r.
Qed.

(** X4.  When [instance_count_id_list] is shorter than
    [semantic_instance_class_list], the combiner fails with [IndexError] on
    label maps of equal shape, whatever they hold: the channel past the end
    of the shorter list is always reached. *)
Theorem X4_combiner_short_slot_list_raises (sem_lbl inst_lbl : ndarray)
    (sicl icil : list Z) (void : Z) :
  shape sem_lbl = shape inst_lbl ->
  (length icil < length sicl)%nat ->
  combine_semantic_and_instance_labels sem_lbl inst_lbl sicl icil true void
  = Raise IndexError.
Proof.
  intros Hshape Hshort. unfold combine_semantic_and_instance_labels.
  apply shape_eqb_true in Hshape. rewrite Hshape. cbn [negb].
  assert (Hstep : forall sem_val (y : list Z) (c : nat),
             (exists y', combine_channel (data sem_lbl) (data inst_lbl) icil
                           sem_val y c = Ok y' /\ True)
             \/ combine_channel (data sem_lbl) (data inst_lbl) icil
                  sem_val y c = Raise IndexError).
  { intros sem_val y c. unfold combine_channel.
    destruct (Nat.lt_ge_cases c (length icil)) as [Hlt|Hge].
    - destruct (nth_error icil c) as [iv|] eqn:E;
        [|apply nth_error_None in E; lia].
      rewrite (py_getitem_nat _ _ E). left. cbn [bind]. eauto.
    - rewrite (py_getitem_out_of_range _ Hge). now right. }
  assert (Hinner : forall sem_val (y : list Z),
             (exists y', for_each (sem_inst_idxs_of sicl sem_val)
                           (combine_channel (data sem_lbl) (data inst_lbl)
                              icil sem_val) y = Ok y' /\ True)
             \/ for_each (sem_inst_idxs_of sicl sem_val)
                  (combine_channel (data sem_lbl) (data inst_lbl)
                     icil sem_val) y = Raise IndexError).
  { intros sem_val y. revert y.
    induction (sem_inst_idxs_of sicl sem_val) as [|c l IH]; intros y; simpl.
    - left. eauto.
    - destruct (Hstep sem_val y c) as [(y' & E & _)|E]; rewrite E; simpl; auto. }
  destruct (nth_error sicl (length icil)) as [s0|] eqn:Es0;
    [|apply nth_error_None in Es0; lia].
  rewrite (@for_each_raises (Z * nat) (list Z)
             (fun y '(sem_val, n_instances_for_this_sem_cls) =>
                for_each (sem_inst_idxs_of sicl sem_val)
                  (combine_channel (data sem_lbl) (data inst_lbl) icil sem_val)
                  y)
             (fun _ => True) IndexError (np_unique_counts sicl));
    [reflexivity| | |exact I].
  - intros y [sem_val k] _ _. apply Hinner.
  - exists (s0, count_occ Z.eq_dec sicl s0). split.
    + unfold np_unique_counts. apply in_map_iff. exists s0. split; [reflexivity|].
      apply in_np_unique. eapply nth_error_In; eauto.
    + intros y _.
      apply (@for_each_raises nat (list Z)
               (combine_channel (data sem_lbl) (data inst_lbl) icil s0)
               (fun _ => True) IndexError (sem_inst_idxs_of sicl s0));
        [| |exact I].
      * intros y1 c _ _. apply Hstep.
      * exists (length icil). split; [now apply in_sem_inst_idxs_of|].
        intros y1 _. unfold combine_channel.
        now rewrite (py_getitem_out_of_range icil (Nat.le_refl _)).
Qed.

Lemma X4_combiner_short_slot_list_raises_witness :
  combine_semantic_and_instance_labels example_sem_lbl example_inst_lbl
    example_sicl [0; 1; 2] true default_void_value = Raise IndexError.
Proof.
  apply (@X4_combiner_short_slot_list_raises example_sem_lbl example_inst_lbl
           example_sicl [0; 1; 2] default_void_value).
  - reflexivity.
  - simpl. lia.
Defined.

(** ** [permute_labels]: which row counts, and undoing a permutation *)

Lemma length_permute_labels (label_preds : ndarray)
    (permutations : list (list Z)) :
  length (data (permute_labels label_preds permutations))
  = length (data label_preds).
Proof.
  unfold permute_labels. simpl.
  generalize (data label_preds) at 2 3 as cur.
  induction permutations as [|row rows IH]; intros cur; simpl; [reflexivity|].
  now rewrite IH, length_permute_labels_row.
Qed.

(** Two label arrays are equal when [permute_labels] relabels their pixels
    alike. *)
Lemma permute_labels_ext (lbl1 lbl2 : ndarray) (rows1 rows2 : list (list Z)) :
  shape lbl1 = shape lbl2 ->
  length (data lbl1) = length (data lbl2) ->
  (forall k v1, nth_error (data lbl1) k = Some v1 ->
     exists v2, nth_error (data lbl2) k = Some v2 /\
                relabel rows1 v1 = relabel rows2 v2) ->
  permute_labels lbl1 rows1 = permute_labels lbl2 rows2.
Proof.
  intros Hshape Hlen Hpix.
  assert (Hdata : data (permute_labels lbl1 rows1)
                  = data (permute_labels lbl2 rows2)).
  { apply nth_error_ext. intros k.
    destruct (nth_error (data lbl1) k) as [v1|] eqn:E1.
    - destruct (Hpix k v1 E1) as (v2 & E2 & Hrel).
      rewrite (permute_labels_pixel _ _ _ E1), (permute_labels_pixel _ _ _ E2).
      now rewrite Hrel.
    - assert (N1 : nth_error (data (permute_labels lbl1 rows1)) k = None).
      { apply nth_error_None. rewrite length_permute_labels.
        now apply nth_error_None. }
      assert (N2 : nth_error (data (permute_labels lbl2 rows2)) k = None).
      { apply nth_error_None. rewrite length_permute_labels, <- Hlen.
        now apply nth_error_None. }
      now rewrite N1, N2. }
  unfold permute_labels in *. simpl in Hdata. now rewrite Hshape, Hdata.
Qed.

Lemma relabel_app (rows : list (list Z)) (p : list Z) (v : Z) :
  relabel (rows ++ [p]) v = relabel_row v (relabel rows v) p.
Proof. unfold relabel. now rewrite fold_left_app. Qed.

(** What a bijection row does to a label: a label in range becomes its
    position in the row, whatever the copy held; any other label keeps what
    the copy held. *)
Lemma relabel_row_bijection (n_channels : nat) (p : list Z) (v x : Z) :
  bijection_row n_channels p ->
  (0 <= v < Z.of_nat n_channels /\
   exists n, nth_error p n = Some v /\ relabel_row v x p = Z.of_nat n)
  \/ (~ 0 <= v < Z.of_nat n_channels /\ relabel_row v x p = x).
Proof.
  intros Hbij.
  destruct (Z_le_gt_dec 0 v) as [H0|H0];
    [destruct (Z_lt_ge_dec v (Z.of_nat n_channels)) as [H1|H1]|].
  - left. split; [lia|].
    destruct (@bijection_row_onto n_channels p (Z.to_nat v) Hbij) as (n & Hn);
      [lia|].
    rewrite Z2Nat.id in Hn by lia.
    exists n. split; [exact Hn|].
    destruct Hbij as (_ & Hnd & _). now apply relabel_row_position.
  - right. split; [lia|]. apply relabel_row_other.
    destruct Hbij as (_ & _ & Hr). rewrite Forall_forall in Hr.
    intros Hin. specialize (Hr v Hin). lia.
  - right. split; [lia|]. apply relabel_row_other.
    destruct Hbij as (_ & _ & Hr). rewrite Forall_forall in Hr.
    intros Hin. specialize (Hr v Hin). lia.
Qed.

(** X5.  [permute_labels] applies every row of the permutation array to the
    whole label array, so that only the last row counts: after any rows over
    [0, n_channels), a last row that is a bijection gives the same result as
    that row alone. *)
Theorem X5_permute_labels_last_row_wins (n_channels : nat)
    (label_preds : ndarray) (rows : list (list Z)) (p : list Z) :
  (forall row, In row rows ->
     Forall (fun x => 0 <= x < Z.of_nat n_channels) row) ->
  bijection_row n_channels p ->
  permute_labels label_preds (rows ++ [p]) = permute_labels label_preds [p].
Proof.
  intros Hrows Hbij. apply permute_labels_ext; try reflexivity.
  intros k v Hv. exists v. split; [exact Hv|].
  rewrite relabel_app. change (relabel [p] v) with (relabel_row v v p).
  destruct (relabel_row_bijection v (relabel rows v) Hbij)
    as [(_ & n & Hn & E)|(Hout & E)]; rewrite E.
  - destruct Hbij as (_ & Hnd & _).
    symmetry. now apply relabel_row_position.
  - destruct (relabel_row_bijection v v Hbij)
      as [(Hin & _)|(_ & E')]; [contradiction|].
    rewrite E'. apply relabel_other.
    intros row Hrow Hin. specialize (Hrows row Hrow).
    rewrite Forall_forall in Hrows. apply Hout. now apply Hrows.
Qed.

Lemma X5_permute_labels_last_row_wins_witness :
  permute_labels example_argmax_batch2 ([[0; 1]] ++ [[1; 0]])
  = permute_labels example_argmax_batch2 [[1; 0]].
Proof.
  apply (@X5_permute_labels_last_row_wins 2 example_argmax_batch2
           [[0; 1]] [1; 0]).
  - intros row [<-|[]]. repeat constructor; lia.
  - split; [reflexivity|]. split; [|repeat constructor; lia].
    repeat constructor; simpl; intuition discriminate.
Defined.

(** X6.  Relabelling with a bijection row [p] and then with a row [q] that
    undoes it ([q[p[n]] = n] for every channel [n]) gives the label array
    back, void and other out-of-range labels included. *)
Theorem X6_permute_labels_round_trip (n_channels : nat)
    (label_preds : ndarray) (p q : list Z) :
  bijection_row n_channels p -> bijection_row n_channels q ->
  (forall n, (n < n_channels)%nat ->
             nth (Z.to_nat (nth n p 0)) q 0 = Z.of_nat n) ->
  permute_labels (permute_labels label_preds [p]) [q] = label_preds.
Proof.
  intros Hp Hq Hinv.
  assert (Hdata : data (permute_labels (permute_labels label_preds [p]) [q])
                  = data label_preds).
  { apply nth_error_ext. intros k.
    destruct (nth_error (data label_preds) k) as [v|] eqn:Ev.
    - rewrite (permute_labels_pixel _ [q] k
                 (permute_labels_pixel label_preds [p] k Ev)).
      f_equal. change (relabel [p] v) with (relabel_row v v p).
      destruct (relabel_row_bijection v v Hp)
        as [(Hin & n & Hn & E)|(Hout & E)]; rewrite E.
      + change (relabel [q] (Z.of_nat n))
          with (relabel_row (Z.of_nat n) (Z.of_nat n) q).
        assert (Hnlt : (n < n_channels)%nat).
        { destruct Hp as (Hlen & _). rewrite <- Hlen.
          apply nth_error_Some. congruence. }
        specialize (Hinv n Hnlt).
        rewrite (nth_error_nth _ _ 0 Hn) in Hinv.
        assert (Hqv : nth_error q (Z.to_nat v) = Some (Z.of_nat n)).
        { rewrite <- Hinv. apply nth_error_nth'.
          destruct Hq as (Hlen & _). lia. }
        destruct Hq as (_ & Hnd & _).
        rewrite (@relabel_row_position (Z.of_nat n) (Z.of_nat n) q
                   (Z.to_nat v) Hnd Hqv). lia.
      + change (relabel [q] v) with (relabel_row v v q).
        destruct (relabel_row_bijection v v Hq)
          as [(Hin & _)|(_ & E')]; [contradiction|exact E'].
    - assert (N : nth_error
                    (data (permute_labels (permute_labels label_preds [p]) [q]))
                    k = None).
      { apply nth_error_None. rewrite !length_permute_labels.
        now apply nth_error_None. }
      exact N. }
  destruct label_preds as [sh d]. unfold permute_labels in *.
  simpl in *. now rewrite Hdata.
Qed.

Lemma X6_permute_labels_round_trip_witness :
  permute_labels (permute_labels example_sem_lbl [[1; 2; 0]]) [[2; 0; 1]]
  = example_sem_lbl.
Proof.
  apply (@X6_permute_labels_round_trip 3 example_sem_lbl [1; 2; 0] [2; 0; 1]).
  - split; [reflexivity|]. split; [|repeat constructor; lia].
    repeat constructor; simpl; intuition discriminate.
  - split; [reflexivity|]. split; [|repeat constructor; lia].
    repeat constructor; simpl; intuition discriminate.
  - intros n Hn. destruct n as [|[|[|n]]]; try reflexivity. lia.
Defined.

(** ** [permute_scores]: what it gathers, and when it cannot store *)

Lemma map_result_ok {A B} (f : A -> result B) (g : A -> B) (l : list A) :
  (forall x, In x l -> f x = Ok (g x)) -> map_result f l = Ok (map g l).
Proof.
  induction l as [|x l IH]; intros H; simpl; [reflexivity|].
  rewrite (H x (or_introl eq_refl)). cbn [bind].
  rewrite IH by (intros y Hy; apply H; now right). reflexivity.
Qed.

(** X7.  For a batch of one image and one row of in-range channel indices,
    [permute_scores] returns a tensor of the same sizes whose channel [c] is
    channel [p[c]] of the input; the row need not be a bijection. *)
Theorem X7_permute_scores_gathers_channels (V : Type) (score : tensor4 V)
    (p : list Z) :
  size0 score = 1%nat ->
  length p = size1 score ->
  Forall (fun x => 0 <= x < Z.of_nat (size1 score)) p ->
  exists t,
    permute_scores score [p] = Ok t /\
    size0 t = size0 score /\ size1 t = size1 score /\
    size2 t = size2 score /\ size3 t = size3 score /\
    forall c h w,
      (c < size1 score)%nat -> (h < size2 score)%nat -> (w < size3 score)%nat ->
      item t 0%nat c h w = item score 0%nat (Z.to_nat (nth c p 0)) h w.
Proof.
  intros HB Hlen Hrange. rewrite Forall_forall in Hrange.
  unfold permute_scores.
  destruct (@for_each_invariant_visited nat (tensor4 V)
              (fun dst ch =>
                 idx <- column [p] ch ;;
                 val <- index_channels score idx ;;
                 setitem_channel dst ch val)
              (fun seen dst =>
                 size0 dst = 1%nat /\ size1 dst = size1 score /\
                 size2 dst = size2 score /\ size3 dst = size3 score /\
                 forall c h w,
                   In c seen -> (h < size2 score)%nat -> (w < size3 score)%nat ->
                   item dst 0%nat c h w
                   = item score 0%nat (Z.to_nat (nth c p 0)) h w)
              (seq 0 (size1 score))) with (seen := @nil nat) (s := score)
    as (t & Et & H0 & H1 & H2 & H3 & Hitem).
  - intros seen dst ch Hch (D0 & D1 & D2 & D3 & Ditem).
    apply in_seq in Hch.
    destruct (nth_error p ch) as [pc|] eqn:Epc;
      [|apply nth_error_None in Epc; lia].
    assert (Hpc : 0 <= pc < Z.of_nat (size1 score))
      by (apply Hrange; eapply nth_error_In; eauto).
    unfold column. cbn [map_result]. rewrite (py_getitem_nat _ _ Epc).
    cbn [bind]. unfold index_channels. cbn [map_result].
    rewrite (@normalize_index_in_range _ _ Hpc). cbn [bind length].
    unfold setitem_channel. cbn [size0 size1 size2 size3 item].
    rewrite HB, D0, D2, D3. unfold broadcastable.
    rewrite !Nat.eqb_refl. cbn [andb orb].
    eexists. split; [reflexivity|]. cbn [size0 size1 size2 size3 item].
    repeat (split; [first [assumption|reflexivity]|]).
    intros c h w Hc Hh Hw.
    destruct (Nat.eqb_spec c ch) as [->|Hne].
    + unfold broadcast_index. cbn [nth].
      rewrite (nth_error_nth _ _ 0 Epc).
      destruct (Nat.eqb_spec (size2 score) 1) as [E2|_];
        destruct (Nat.eqb_spec (size3 score) 1) as [E3|_];
        repeat match goal with
               | |- context [if ?b then _ else _] => destruct b
               end;
        f_equal; lia.
    + apply Ditem; auto.
      apply in_app_or in Hc. destruct Hc as [Hc|[Hc|[]]]; congruence.
  - repeat split; auto. intros c h w [].
  - exists t. split; [exact Et|]. split; [congruence|].
    repeat (split; [assumption|]).
    intros c h w Hc Hh Hw. apply Hitem; auto.
    apply in_seq. lia.
Qed.

Lemma X7_permute_scores_gathers_channels_witness :
  exists t,
    permute_scores example_score_image0 [[1; 1]] = Ok t /\
    size0 t = size0 example_score_image0 /\
    size1 t = size1 example_score_image0 /\
    size2 t = size2 example_score_image0 /\
    size3 t = size3 example_score_image0 /\
    forall c h w,
      (c < size1 example_score_image0)%nat ->
      (h < size2 example_score_image0)%nat ->
      (w < size3 example_score_image0)%nat ->
      item t 0%nat c h w
      = item example_score_image0 0%nat (Z.to_nat (nth c [1; 1] 0)) h w.
Proof.
  apply (@X7_permute_scores_gathers_channels Z example_score_image0 [1; 1]).
  - reflexivity.
  - reflexivity.
  - repeat constructor; simpl; lia.
Defined.

(** X8.  For any batch size other than one, [permute_scores] cannot store
    what it indexed: with at least one channel and a permutation array whose
    rows are full rows of in-range indices, it raises the shape error of the
    assignment, at the first channel. *)
Theorem X8_permute_scores_batch_shape_error (V : Type) (score : tensor4 V)
    (pred_permutations : list (list Z)) :
  size0 score <> 1%nat -> (0 < size1 score)%nat ->
  (forall row, In row pred_permutations ->
     length row = size1 score /\
     Forall (fun x => 0 <= x < Z.of_nat (size1 score)) row) ->
  permute_scores score pred_permutations = Raise ShapeError.
Proof.
  intros HB HC Hrows. unfold permute_scores.
  destruct (size1 score) as [|C] eqn:EC; [lia|].
  cbn [seq for_each]. unfold column.
  rewrite (@map_result_ok _ _ (fun row => py_getitem row (Z.of_nat 0))
             (fun row => nth 0 row 0) pred_permutations).
  2:{ intros row Hrow. destruct (Hrows row Hrow) as [Hlen _].
      apply py_getitem_nat. apply nth_error_nth'. lia. }
  cbn [bind]. unfold index_channels.
  rewrite (@map_result_ok _ _ (normalize_index (size1 score)) Z.to_nat).
  2:{ intros x Hx. apply in_map_iff in Hx. destruct Hx as (row & <- & Hrow).
      destruct (Hrows row Hrow) as [Hlen Hr]. rewrite Forall_forall in Hr.
      apply normalize_index_in_range. rewrite EC. apply Hr.
      apply nth_In. lia. }
  cbn [bind]. unfold setitem_channel. cbn [size0].
  destruct (Nat.eqb_spec (size0 score) 1); [contradiction|].
  reflexivity.
Qed.

Lemma X8_permute_scores_batch_shape_error_witness :
  permute_scores example_score_batch2 example_permutations_batch2
  = Raise ShapeError.
Proof.
  apply (@X8_permute_scores_batch_shape_error Z example_score_batch2
           example_permutations_batch2).
  - discriminate.
  - simpl. lia.
  - intros row [<-|[<-|[]]]; (split; [reflexivity|]);
      repeat constructor; simpl; lia.
Defined.

Lemma permute_commutes_single_image_witness :
  exists t a',
    permute_scores example_score_image0 [[1; 0]] = Ok t /\
    argmax_at Z.ltb example_score_image0 0 0 0 = Ok (Z.of_nat 0) /\
    argmax_at Z.ltb t 0 0 0 = Ok a' /\
    nth_error (data (permute_labels (one_pixel 0) [[1; 0]])) 0 = Some a'.
Proof.
  apply (@permute_commutes_single_image Z Z.ltb).
  - intros x y H. apply Z.ltb_lt in H. apply Z.ltb_ge. lia.
  - reflexivity.
  - split; [reflexivity|]. split; [|repeat constructor; simpl; lia].
    repeat constructor; simpl; intuition discriminate.
  - simpl. lia.
  - simpl. lia.
  - split; [simpl; lia|]. intros c Hc Hne. simpl in Hc.
    destruct c as [|[|c]]; [congruence|reflexivity|lia].
  - reflexivity.
Defined.

(** ** The instance-to-semantic mapping matrix *)

Lemma nth_error_py_setitem {A} (l l' : list A) (i : nat) (v : A) (j : nat) :
  py_setitem l (Z.of_nat i) v = Ok l' ->
  nth_error l' j = if Nat.eqb j i then Some v else nth_error l j.
Proof.
  unfold py_setitem.
  destruct (Z.ltb_spec (Z.of_nat i) 0); [lia|].
  destruct (Z.leb_spec 0 (Z.of_nat i)); [|discriminate].
  destruct (Z.ltb_spec (Z.of_nat i) (Z.of_nat (length l))); [|discriminate].
  cbn [andb]. rewrite Nat2Z.id. intros E.
  assert (E' : l' = firstn i l ++ v :: skipn (Datatypes.S i) l) by congruence.
  subst l'. clear E.
  assert (Hi : (i < length l)%nat) by lia.
  assert (Hf : length (firstn i l) = i) by (rewrite length_firstn; lia).
  destruct (Nat.eqb_spec j i) as [->|Hne].
  - rewrite nth_error_app2 by lia. rewrite Hf, Nat.sub_diag. reflexivity.
  - destruct (Nat.lt_ge_cases j i) as [Hlt|Hge].
    + rewrite nth_error_app1 by lia. rewrite nth_error_firstn.
      destruct (Nat.ltb_spec j i); [reflexivity|lia].
    + rewrite nth_error_app2 by lia. rewrite Hf.
      replace (j - i)%nat with (Datatypes.S (j - Datatypes.S i)) by lia.
      cbn [nth_error]. rewrite nth_error_skipn. f_equal. lia.
Qed.

Section ScatterOnes.
Variables rowidx colidx : nat -> Z -> nat.
Variables R Cn : nat.

(** The matrix after some of the assignments [m[rowidx, colidx] = 1]: it
    is R x Cn, and a cell holds 1 when one of the assignments made so far
    addressed it, and 0 otherwise. *)
Let filled (seen : list (nat * Z)) (mat : list (list Z)) : Prop :=
  length mat = R /\
  forall r row, nth_error mat r = Some row ->
    length row = Cn /\
    forall c, (c < Cn)%nat ->
      (nth_error row c = Some 1 /\
       exists i s, In (i, s) seen /\ rowidx i s = r /\ colidx i s = c)
      \/ (nth_error row c = Some 0 /\
          forall i s, In (i, s) seen -> ~ (rowidx i s = r /\ colidx i s = c)).

Lemma scatter_ones (cells : list (nat * Z)) :
  (forall i s, In (i, s) cells ->
               (rowidx i s < R)%nat /\ (colidx i s < Cn)%nat) ->
  exists mat,
    for_each cells
      (fun mat '(i, s) =>
         setitem2 mat (Z.of_nat (rowidx i s)) (Z.of_nat (colidx i s)) 1)
      (zeros R Cn) = Ok mat /\
    filled cells mat.
Proof.
  intros Hin.
  destruct (@for_each_invariant_visited (nat * Z) (list (list Z))
              (fun mat '(i, s) =>
                 setitem2 mat (Z.of_nat (rowidx i s))
                          (Z.of_nat (colidx i s)) 1)
              filled cells) with (seen := @nil (nat * Z)) (s := zeros R Cn)
    as (mat & E & Hmat).
  - intros seen mat [i s] His [Hrows Hcells].
    destruct (Hin i s His) as [Hr Hc].
    unfold setitem2.
    destruct (nth_error mat (rowidx i s)) as [row|] eqn:Erow;
      [|apply nth_error_None in Erow; lia].
    rewrite (py_getitem_nat _ _ Erow). cbn [bind].
    destruct (Hcells _ _ Erow) as [Hlen Hrowcells].
    destruct (@py_setitem_ok _ row (colidx i s) 1) as (row' & Erow' & Hlen');
      [lia|].
    rewrite Erow'. cbn [bind].
    destruct (@py_setitem_ok _ mat (rowidx i s) row') as (mat' & Emat' & Hlenm);
      [lia|].
    exists mat'. split; [exact Emat'|]. split; [congruence|].
    intros r row0 Hr0.
    rewrite (nth_error_py_setitem _ _ _ _ Emat') in Hr0.
    destruct (Nat.eqb_spec r (rowidx i s)) as [->|Hne].
    + inversion Hr0; subst row0. split; [congruence|].
      intros c Hclt. rewrite (nth_error_py_setitem _ _ _ _ Erow').
      destruct (Nat.eqb_spec c (colidx i s)) as [->|Hnec].
      * left. split; [reflexivity|]. exists i, s.
        split; [apply in_or_app; right; now left|auto].
      * destruct (Hrowcells c Hclt) as [(H1 & i' & s' & Hs' & Hrc)|(H0 & Hno)].
        -- left. split; [exact H1|]. exists i', s'.
           split; [apply in_or_app; now left|exact Hrc].
        -- right. split; [exact H0|]. intros i' s' Hs' [Hr' Hc'].
           apply in_app_or in Hs'. destruct Hs' as [Hs'|[Hs'|[]]].
           ++ apply (Hno i' s' Hs'). auto.
           ++ inversion Hs'; subst. congruence.
    + destruct (Hcells _ _ Hr0) as [Hlen0 Hcells0]. split; [exact Hlen0|].
      intros c Hclt.
      destruct (Hcells0 c Hclt) as [(H1 & i' & s' & Hs' & Hrc)|(H0 & Hno)].
      * left. split; [exact H1|]. exists i', s'.
        split; [apply in_or_app; now left|exact Hrc].
      * right. split; [exact H0|]. intros i' s' Hs' [Hr' Hc'].
        apply in_app_or in Hs'. destruct Hs' as [Hs'|[Hs'|[]]].
        -- apply (Hno i' s' Hs'). auto.
        -- inversion Hs'; subst. congruence.
  - unfold zeros. split; [apply repeat_length|].
    intros r row Hr. apply nth_error_In, repeat_spec in Hr. subst row.
    split; [apply repeat_length|].
    intros c Hc. right. split.
    + rewrite nth_error_repeat by exact Hc. reflexivity.
    + intros i s [].
  - exists mat. split; [exact E|exact Hmat].
Qed.
End ScatterOnes.

Lemma for_each_ext {A S} (f g : S -> A -> result S) (l : list A) (s : S) :
  (forall x st, In x l -> f st x = g st x) ->
  for_each l f s = for_each l g s.
Proof.
  revert s. induction l as [|x l IH]; intros s H; simpl; [reflexivity|].
  rewrite (H x s (or_introl eq_refl)).
  destruct (g s x) as [s'|e]; simpl; [|reflexivity].
  apply IH. intros y st Hy. apply H. now right.
Qed.

(** X10.  For a non-empty class list of non-negative ids,
    [get_instance_to_semantic_mapping_from_sem_inst_class_list] returns a
    0/1 matrix with one axis per channel and one per semantic class
    [0 .. max]: the cell of channel [i] and class [s] holds 1 exactly when
    channel [i] belongs to class [s], so that every channel marks exactly its
    own class.  With [compose_transposed] the classes index the rows,
    otherwise the channels do. *)
Theorem X10_mapping_matrix_marks_class_of_channel (sicl : list Z)
    (compose_transposed : bool) :
  sicl <> [] -> Forall (fun s => 0 <= s) sicl ->
  exists mat m,
    py_max sicl = Ok m /\
    get_instance_to_semantic_mapping_from_sem_inst_class_list sicl
      compose_transposed = Ok mat /\
    length mat = (if compose_transposed then Z.to_nat (m + 1)
                  else length sicl) /\
    (forall i, (i < length sicl)%nat -> 0 <= nth i sicl 0 < m + 1) /\
    forall i s, (i < length sicl)%nat -> (s < Z.to_nat (m + 1))%nat ->
      matrix_cell mat (if compose_transposed then s else i)
                      (if compose_transposed then i else s)
      = Some (if nth i sicl 0 =? Z.of_nat s then 1 else 0).
Proof.
  intros Hne Hnn. rewrite Forall_forall in Hnn.
  destruct (py_max_ok Hne) as (m & Em & Hm).
  assert (Hbound : forall i s, In (i, s) (enumerate sicl) ->
                     (i < length sicl)%nat /\ 0 <= s <= m /\
                     nth i sicl 0 = s).
  { intros i s His. apply in_enumerate in His.
    pose proof (nth_error_In _ _ His) as Hin.
    split; [apply nth_error_Some; congruence|].
    split; [split; [now apply Hnn|now apply Hm]|].
    now apply nth_error_nth. }
  unfold get_instance_to_semantic_mapping_from_sem_inst_class_list.
  rewrite Em. cbn [bind].
  assert (Hcells : forall i, (i < length sicl)%nat ->
                     0 <= nth i sicl 0 < m + 1).
  { intros i Hi. pose proof (nth_In sicl 0 Hi) as Hin.
    specialize (Hnn _ Hin). specialize (Hm _ Hin). lia. }
  destruct compose_transposed; cbn [negb].
  - destruct (@scatter_ones (fun i s => Z.to_nat s) (fun i s => i)
                (Z.to_nat (m + 1)) (length sicl) (enumerate sicl))
      as (mat & E & Hlen & Hmat).
    { intros i s His. destruct (Hbound i s His) as (Hi & Hs & _). lia. }
    exists mat, m. split; [reflexivity|]. split.
    { rewrite <- E. apply for_each_ext. intros [i s] st His.
      destruct (Hbound i s His) as (_ & Hs & _).
      now rewrite Z2Nat.id by lia. }
    split; [exact Hlen|]. split; [exact Hcells|].
    intros i s Hi Hs. unfold matrix_cell.
    destruct (nth_error mat s) as [row|] eqn:Erow;
      [|apply nth_error_None in Erow; lia].
    destruct (Hmat s row Erow) as [_ Hrow].
    destruct (Hrow i Hi) as [(H1 & i' & s' & His' & Hr & Hc)|(H0 & Hno)].
    + rewrite H1. simpl in Hc. subst i'.
      destruct (Hbound i s' His') as (_ & Hs' & Hnth).
      rewrite Hnth. rewrite <- Hr, Z2Nat.id by lia. now rewrite Z.eqb_refl.
    + rewrite H0. destruct (Z.eqb_spec (nth i sicl 0) (Z.of_nat s)) as [Heq|];
        [|reflexivity].
      exfalso. apply (Hno i (nth i sicl 0)).
      * apply in_enumerate. now apply nth_error_nth'.
      * split; [rewrite Heq; apply Nat2Z.id|reflexivity].
  - destruct (@scatter_ones (fun i s => i) (fun i s => Z.to_nat s)
                (length sicl) (Z.to_nat (m + 1)) (enumerate sicl))
      as (mat & E & Hlen & Hmat).
    { intros i s His. destruct (Hbound i s His) as (Hi & Hs & _). lia. }
    exists mat, m. split; [reflexivity|]. split.
    { rewrite <- E. apply for_each_ext. intros [i s] st His.
      destruct (Hbound i s His) as (_ & Hs & _).
      now rewrite Z2Nat.id by lia. }
    split; [exact Hlen|]. split; [exact Hcells|].
    intros i s Hi Hs. unfold matrix_cell.
    destruct (nth_error mat i) as [row|] eqn:Erow;
      [|apply nth_error_None in Erow; lia].
    destruct (Hmat i row Erow) as [_ Hrow].
    destruct (Hrow s Hs) as [(H1 & i' & s' & His' & Hr & Hc)|(H0 & Hno)].
    + rewrite H1. simpl in Hr. subst i'.
      destruct (Hbound i s' His') as (_ & Hs' & Hnth).
      rewrite Hnth. rewrite <- Hc, Z2Nat.id by lia. now rewrite Z.eqb_refl.
    + rewrite H0. destruct (Z.eqb_spec (nth i sicl 0) (Z.of_nat s)) as [Heq|];
        [|reflexivity].
      exfalso. apply (Hno i (nth i sicl 0)).
      * apply in_enumerate. now apply nth_error_nth'.
      * split; [reflexivity|rewrite Heq; apply Nat2Z.id].
Qed.

Lemma X10_mapping_matrix_marks_class_of_channel_witness :
  exists mat m,
    py_max example_sicl = Ok m /\
    get_instance_to_semantic_mapping_from_sem_inst_class_list example_sicl
      true = Ok mat /\
    length mat = (if true then Z.to_nat (m + 1) else length example_sicl) /\
    (forall i, (i < length example_sicl)%nat ->
               0 <= nth i example_sicl 0 < m + 1) /\
    forall i s, (i < length example_sicl)%nat -> (s < Z.to_nat (m + 1))%nat ->
      matrix_cell mat (if true then s else i) (if true then i else s)
      = Some (if nth i example_sicl 0 =? Z.of_nat s then 1 else 0).
Proof.
  apply (@X10_mapping_matrix_marks_class_of_channel example_sicl true).
  - discriminate.
  - unfold example_sicl. repeat constructor; lia.
Defined.

Example mapping_matrix_example :
  get_instance_to_semantic_mapping [1; 2; 2]
  = Ok [[1; 0; 0; 0; 0]; [0; 1; 1; 0; 0]; [0; 0; 0; 1; 1]].
Proof. reflexivity. Qed.

(** ** [InstanceProblemConfig.__init__]: outcome and invariants *)





Example config_constructor_edge_cases :
  InstanceProblemConfig_init [] None None default_void_value false false
  = Raise ValueError /\
  InstanceProblemConfig_init [0; 0] None None default_void_value false false
  = Raise ValueError /\
  InstanceProblemConfig_init [2; 3] None None default_void_value false true
  = Raise AssertionError /\
  InstanceProblemConfig_init [1; 3] None (Some [7]) default_void_value
    false false = Raise AssertionError.
Proof. repeat split; reflexivity. Qed.

Lemma length_py_range (k : nat) : length (py_range k) = k.
Proof. unfold py_range. now rewrite length_map, length_seq. Qed.

Lemma total_channels_ones (n : list Z) :
  total_channels (map (fun _ : Z => 1) n) = length n.
Proof. induction n as [|a n IH]; simpl; [reflexivity|]. now rewrite IH. Qed.

Lemma in_get_semantic_instance_class_list (n : list Z) (s : Z) :
  In s (get_semantic_instance_class_list n) -> 0 <= s < Z.of_nat (length n).
Proof. intros H. apply in_sicl_from in H. simpl in H. lia. Qed.

Lemma InstanceProblemConfig_init_inv (n : list Z)
    (names : option (list string)) (vals : option (list Z)) (void : Z)
    (include_channel0 map_to_semantic0 : bool) (cfg : InstanceProblemConfig) :
  InstanceProblemConfig_init n names vals void include_channel0
    map_to_semantic0 = Ok cfg ->
  let n1 := if map_to_semantic0 then map (fun _ => 1) n else n in
  n_semantic_classes cfg = length n /\
  n_classes cfg = total_channels n1 /\
  semantic_instance_class_list cfg = get_semantic_instance_class_list n1 /\
  model_semantic_instance_class_list cfg
  = get_semantic_instance_class_list n /\
  sem_ids_by_instance_id cfg = get_semantic_instance_class_list n1 /\
  get_instance_count_id_list (get_semantic_instance_class_list n1)
    default_non_instance_sem_classes include_channel0
  = Ok (instance_count_id_list cfg) /\
  get_instance_count_id_list (get_semantic_instance_class_list n)
    default_non_instance_sem_classes include_channel0
  = Ok (model_instance_count_id_list cfg).
Proof.
  intros H n1. unfold InstanceProblemConfig_init in H.
  destruct (match vals with
            | Some sv => Nat.eqb (length sv) (length n)
            | None => true
            end) eqn:Ea; [|discriminate].
  replace (if negb map_to_semantic0 then n else map (fun _ : Z => 1) n)
    with n1 in H by (subst n1; now destruct map_to_semantic0).
  cbn [bind] in H.
  destruct (get_instance_count_id_list (get_semantic_instance_class_list n1)
              default_non_instance_sem_classes include_channel0)
    as [icil|] eqn:Ei; [|discriminate].
  cbn [bind] in H.
  destruct (get_instance_count_id_list (get_semantic_instance_class_list n)
              default_non_instance_sem_classes include_channel0)
    as [micil|] eqn:Em; [|discriminate].
  cbn [bind] in H.
  destruct (get_instance_to_semantic_mapping n1) as [mat|];
    [|discriminate].
  cbn [bind] in H. inversion H; subst cfg; clear H.
  cbn [n_semantic_classes n_classes semantic_instance_class_list
       model_semantic_instance_class_list sem_ids_by_instance_id
       instance_count_id_list model_instance_count_id_list].
  assert (Hsv : length match vals with
                       | Some (v :: sv) => v :: sv
                       | _ => py_range (length n)
                       end = length n).
  { destruct vals as [[|v sv]|]; try apply length_py_range.
    now apply Nat.eqb_eq in Ea. }
  repeat split; try reflexivity; try exact Hsv.
  subst n1. destruct map_to_semantic0; cbn [negb].
  - now rewrite Hsv, total_channels_ones.
  - apply length_get_semantic_instance_class_list.
Qed.

(** X12.  Invariants of every configuration the constructor returns: the
    number of semantic classes is the number of counts given; the two layout
    lists are parallel and as long as [n_classes], also when the problem is
    mapped to a semantic one; every channel's class is an index of the
    counts; no channel holds a negative instance id, so none equals the
    default void value; no two channels own the same (class, instance id)
    pair; and [sem_ids_by_instance_id] is a second copy of the class list. *)
Theorem X12_constructed_config_invariants (n : list Z)
    (names : option (list string)) (vals : option (list Z)) (void : Z)
    (include_channel0 map_to_semantic0 : bool) (cfg : InstanceProblemConfig) :
  InstanceProblemConfig_init n names vals void include_channel0
    map_to_semantic0 = Ok cfg ->
  n_semantic_classes cfg = length n /\
  length (semantic_instance_class_list cfg) = n_classes cfg /\
  length (instance_count_id_list cfg) = n_classes cfg /\
  length (model_instance_count_id_list cfg)
  = length (model_semantic_instance_class_list cfg) /\
  (forall s, In s (semantic_instance_class_list cfg) ->
             0 <= s < Z.of_nat (n_semantic_classes cfg)) /\
  (forall i, In i (instance_count_id_list cfg) ->
             0 <= i /\ i <> default_void_value) /\
  NoDup (combine (semantic_instance_class_list cfg)
                 (instance_count_id_list cfg)) /\
  sem_ids_by_instance_id cfg = semantic_instance_class_list cfg.
Proof.
  intros H.
  destruct (InstanceProblemConfig_init_inv _ _ _ _ _ _ H)
    as (Hns & Hnc & Hs & Hms & Hids & Hi & Hm).
  cbv zeta in Hnc, Hs, Hids, Hi.
  set (n1 := if map_to_semantic0 then map (fun _ : Z => 1) n else n) in *.
  destruct (get_instance_count_id_list_slots _ _ _ Hi) as [Hlen Hslots].
  destruct (get_instance_count_id_list_slots _ _ _ Hm) as [Hmlen _].
  assert (Hn1 : length n1 = length n).
  { subst n1. destruct map_to_semantic0; [apply length_map|reflexivity]. }
  rewrite Hs, Hms, Hns, Hnc, Hids.
  rewrite Hlen, length_get_semantic_instance_class_list.
  repeat split; try reflexivity; try exact Hmlen.
  - apply in_get_semantic_instance_class_list in H0. lia.
  - apply in_get_semantic_instance_class_list in H0. lia.
  - apply In_nth_error in H0. destruct H0 as [j Hj].
    assert (Hlt : (j < length (get_semantic_instance_class_list n1))%nat).
    { rewrite <- Hlen. apply nth_error_Some. congruence. }
    destruct (nth_error (get_semantic_instance_class_list n1) j) as [s|] eqn:Es;
      [|apply nth_error_None in Es; lia].
    rewrite (Hslots j s Es) in Hj. inversion Hj; subst i.
    unfold expected_slot.
    destruct (existsb _ _); [lia|]. destruct include_channel0; lia.
  - apply In_nth_error in H0. destruct H0 as [j Hj].
    assert (Hlt : (j < length (get_semantic_instance_class_list n1))%nat).
    { rewrite <- Hlen. apply nth_error_Some. congruence. }
    destruct (nth_error (get_semantic_instance_class_list n1) j) as [s|] eqn:Es;
      [|apply nth_error_None in Es; lia].
    rewrite (Hslots j s Es) in Hj. inversion Hj; subst i.
    unfold expected_slot, default_void_value.
    destruct (existsb _ _); [lia|]. destruct include_channel0; lia.
  - exact (layout_pairs_distinct _ _ _ Hi).
Qed.

Lemma X12_constructed_config_invariants_witness :
  n_semantic_classes example_config = length [1; 2; 2] /\
  length (semantic_instance_class_list example_config)
  = n_classes example_config /\
  length (instance_count_id_list example_config)
  = n_classes example_config /\
  length (model_instance_count_id_list example_config)
  = length (model_semantic_instance_class_list example_config) /\
  (forall s, In s (semantic_instance_class_list example_config) ->
             0 <= s < Z.of_nat (n_semantic_classes example_config)) /\
  (forall i, In i (instance_count_id_list example_config) ->
             0 <= i /\ i <> default_void_value) /\
  NoDup (combine (semantic_instance_class_list example_config)
                 (instance_count_id_list example_config)) /\
  sem_ids_by_instance_id example_config
  = semantic_instance_class_list example_config.
Proof.
  apply (@X12_constructed_config_invariants [1; 2; 2] None None
           default_void_value false false example_config).
  reflexivity.
Defined.

(** ** [TrainerExporter.gt_tuple_to_combined] *)

(** X13.  On a configuration the constructor returned, the ground truth of
    the metrics is always built for two label arrays of one shape: it has
    that shape, and every pixel holds either -1 or the one channel, below
    [n_classes], that owns the pixel's (semantic class, instance id) pair.
    The void value written is the combiner's default -1, whatever
    [void_value] the configuration was given. *)
Theorem X13_ground_truth_on_constructed_config (n : list Z)
    (names : option (list string)) (vals : option (list Z)) (void : Z)
    (include_channel0 map_to_semantic0 : bool) (cfg : InstanceProblemConfig)
    (sem_lbl inst_lbl : ndarray) :
  InstanceProblemConfig_init n names vals void include_channel0
    map_to_semantic0 = Ok cfg ->
  well_formed sem_lbl -> well_formed inst_lbl ->
  shape sem_lbl = shape inst_lbl ->
  exists y,
    gt_tuple_to_combined cfg sem_lbl inst_lbl = Ok y /\
    shape y = shape inst_lbl /\
    forall p v, nth_error (data y) p = Some v ->
      v = -1 \/
      exists c s i,
        v = Z.of_nat c /\ (c < n_classes cfg)%nat /\
        nth_error (data sem_lbl) p = Some s /\
        nth_error (data inst_lbl) p = Some i /\
        owns (semantic_instance_class_list cfg)
             (instance_count_id_list cfg) c s i /\
        forall c', owns (semantic_instance_class_list cfg)
                        (instance_count_id_list cfg) c' s i -> c' = c.
Proof.
  intros Hcfg Hws Hwi Hshape.
  destruct (InstanceProblemConfig_init_inv _ _ _ _ _ _ Hcfg)
    as (_ & Hnc & Hs & _ & _ & Hi & _).
  cbv zeta in Hnc, Hs, Hi. rewrite <- Hs in Hi.
  destruct (get_instance_count_id_list_slots _ _ _ Hi) as [Hlen _].
  pose proof (layout_pairs_distinct _ _ _ Hi) as Hnd.
  destruct (@combine_semantic_and_instance_labels_spec sem_lbl inst_lbl
              (semantic_instance_class_list cfg)
              (instance_count_id_list cfg) default_void_value
              Hws Hwi Hshape Hlen) as (y & Ey & Hsh & _ & Hpix).
  exists y. split; [exact Ey|]. split; [exact Hsh|].
  intros p v Hv. destruct (Hpix p v Hv) as [->|(c & s & i & -> & Hsp & Hip & Hown)];
    [left; reflexivity|right].
  exists c, s, i. repeat split; try assumption; try apply Hown.
  - rewrite Hnc, <- length_get_semantic_instance_class_list, <- Hs.
    apply nth_error_Some. destruct Hown as [Hc _]. congruence.
  - intros c' [Hs' Hi']. destruct Hown as [Hsc Hic].
    assert (Hc : nth_error (combine (semantic_instance_class_list cfg)
                                    (instance_count_id_list cfg)) c
                 = Some (s, i)).
    { rewrite nth_error_combine, Hsc, Hic. reflexivity. }
    assert (Hc' : nth_error (combine (semantic_instance_class_list cfg)
                                     (instance_count_id_list cfg)) c'
                  = Some (s, i)).
    { rewrite nth_error_combine, Hs', Hi'. reflexivity. }
    apply (proj1 (NoDup_nth_error _) Hnd); [|congruence].
    apply nth_error_Some. congruence.
Qed.

Lemma X13_ground_truth_on_constructed_config_witness :
  exists y,
    gt_tuple_to_combined example_config example_sem_lbl example_inst_lbl
    = Ok y /\
    shape y = shape example_inst_lbl /\
    forall p v, nth_error (data y) p = Some v ->
      v = -1 \/
      exists c s i,
        v = Z.of_nat c /\ (c < n_classes example_config)%nat /\
        nth_error (data example_sem_lbl) p = Some s /\
        nth_error (data example_inst_lbl) p = Some i /\
        owns (semantic_instance_class_list example_config)
             (instance_count_id_list example_config) c s i /\
        forall c', owns (semantic_instance_class_list example_config)
                        (instance_count_id_list example_config) c' s i ->
                   c' = c.
Proof.
  apply (@X13_ground_truth_on_constructed_config [1; 2; 2] None None
           default_void_value false false example_config
           example_sem_lbl example_inst_lbl); reflexivity.
Defined.

Example gt_tuple_to_combined_ignores_void_value :
  match InstanceProblemConfig_init [1; 2; 2] None None 255 false false with
  | Ok cfg =>
      void_value cfg = 255 /\
      gt_tuple_to_combined cfg example_sem_lbl example_inst_lbl
      = Ok (mk_ndarray [2; 3]%nat [0; 1; 2; -1; 3; -1])
  | Raise _ => False
  end.
Proof. vm_compute. split; reflexivity. Qed.

(** ** The training loop *)

Lemma py_range_from_nil (a b : Z) : b <= a -> py_range_from a b = [].
Proof.
  intros H. unfold py_range_from.
  replace (Z.to_nat (b - a)) with 0%nat by lia. reflexivity.
Qed.

Lemma py_range_from_cons (a b : Z) :
  a < b -> py_range_from a b = a :: py_range_from (a + 1) b.
Proof.
  intros H. unfold py_range_from.
  replace (Z.to_nat (b - a)) with (Datatypes.S (Z.to_nat (b - (a + 1))))
    by lia.
  cbn [seq map]. f_equal; [lia|].
  rewrite <- seq_shift, map_map. apply map_ext. intros i. lia.
Qed.

Lemma py_range_from_app (a b c : Z) :
  a <= b -> b <= c ->
  py_range_from a c = py_range_from a b ++ py_range_from b c.
Proof.
  intros Hab Hbc. remember (Z.to_nat (b - a)) as n eqn:En.
  revert a Hab En. induction n as [|n IH]; intros a Hab En.
  - assert (a = b) by lia. subst a.
    rewrite (@py_range_from_nil b b) by lia. reflexivity.
  - rewrite (@py_range_from_cons a c), (@py_range_from_cons a b) by lia.
    cbn [app]. f_equal. apply IH; lia.
Qed.

Lemma in_py_range_from (a b i : Z) :
  In i (py_range_from a b) <-> a <= i < b.
Proof.
  unfold py_range_from. rewrite in_map_iff. split.
  - intros (k & <- & Hk). apply in_seq in Hk. lia.
  - intros H. exists (Z.to_nat (i - a)). split; [lia|].
    apply in_seq. lia.
Qed.

Lemma trained_app {batch float : Type}
    (evs evs' : list (loop_event batch float)) :
  trained (evs ++ evs') = trained evs ++ trained evs'.
Proof. apply flat_map_app. Qed.

Lemma schedule_app {batch float : Type}
    (evs evs' : list (loop_event batch float)) :
  schedule (evs ++ evs') = schedule evs ++ schedule evs'.
Proof. apply flat_map_app. Qed.

Lemma validated_app {batch float : Type} (split : string)
    (evs evs' : list (loop_event batch float)) :
  validated split (evs ++ evs') = validated split evs ++ validated split evs'.
Proof. apply flat_map_app. Qed.

Lemma loop_bind_returned {batch float A B : Type}
    (m : loop batch float A) (k : A -> loop batch float B)
    (st st1 st2 : TrainingState) (evs evs' : list (loop_event batch float))
    (a : A) (r : ran B) :
  m st = (evs, st1, Returned a) -> k a st1 = (evs', st2, r) ->
  loop_bind m k st = (evs ++ evs', st2, r).
Proof. intros Hm Hk. unfold loop_bind. now rewrite Hm, Hk. Qed.

Lemma loop_bind_raised {batch float A B : Type}
    (m : loop batch float A) (k : A -> loop batch float B)
    (st st1 : TrainingState) (evs : list (loop_event batch float))
    (e : loop_exn) :
  m st = (evs, st1, Raised e) ->
  loop_bind m k st = (evs, st1, Raised e).
Proof. intros Hm. unfold loop_bind. now rewrite Hm. Qed.

Section TrainLoopFacts.
Variables batch float metrics : Type.
Variable validate_split_call :
  string -> TrainingState -> result (float * metrics).
Variable train_iteration_call : TrainingState -> batch -> result unit.
Variable self : LoopTrainer batch.

Local Abbreviation L := (Z.of_nat (len_train_loader self)).
Local Abbreviation batches_loop :=
  (train_batches validate_split_call train_iteration_call self).
Local Abbreviation all_splits :=
  (validate_all_splits validate_split_call self).
Local Abbreviation maybe_all_splits c :=
  (if c then loop_bind all_splits (fun _ => loop_ret batch float tt)
   else loop_ret batch float tt).
Local Abbreviation collaborators_ok :=
  (collaborators_return validate_split_call train_iteration_call self).

Lemma validate_split_returns (split : string) (st : TrainingState)
    (r : float * metrics) :
  validate_split_call split st = Ok r ->
  validate_split batch validate_split_call split st
  = ([EvValidateSplit batch float split (st_epoch st) (st_iteration st)],
     st, Returned r).
Proof.
  intros H. unfold validate_split, loop_bind, get_state, call.
  rewrite H. reflexivity.
Qed.

Lemma validate_all_splits_returns (st : TrainingState) :
  collaborators_ok ->
  exists evs r,
    all_splits st = (evs, st, Returned r) /\
    trained evs = [] /\
    schedule evs = [ValidatedAt (st_iteration st)].
Proof.
  intros (Hval & _ & Hboard & _). unfold validate_all_splits.
  destruct (Hval "val"%string st) as [[vl vm] Ev].
  destruct (Hval "train"%string st) as [[tl tm] Et].
  unfold loop_bind at 1. rewrite (@validate_split_returns _ st _ Ev).
  destruct (has_train_loader_for_val self).
  - unfold loop_bind. rewrite (@validate_split_returns _ st _ Et).
    unfold loop_ret, get_state, loop_emit.
    destruct (has_tensorboard_writer self); cbn;
      eexists; eexists; (split; [reflexivity|]); split; reflexivity.
  - destruct (has_tensorboard_writer self);
      [specialize (Hboard eq_refl); discriminate|].
    unfold loop_bind, loop_ret. cbn.
    eexists; eexists; (split; [reflexivity|]); split; reflexivity.
Qed.

Lemma maybe_validate_returns (c : bool) (st : TrainingState) :
  collaborators_ok ->
  exists evs,
    maybe_all_splits c st = (evs, st, Returned tt) /\
    trained evs = [] /\
    schedule evs = if c then [ValidatedAt (st_iteration st)] else [].
Proof.
  intros H. destruct c.
  - destruct (validate_all_splits_returns st H) as (evs & r & E & Ht & Hv).
    exists (evs ++ []). split.
    + eapply loop_bind_returned; [exact E|reflexivity].
    + rewrite app_nil_r. auto.
  - exists []. repeat split.
Qed.
Lemma train_iteration_of_batch_returns (batch_idx : nat) (b : batch)
    (st : TrainingState) :
  train_iteration_call st b = Ok tt ->
  train_iteration_of_batch float train_iteration_call batch_idx b st
  = ([EvTrainIteration float batch_idx b (st_epoch st) (st_iteration st)],
     st, Returned tt).
Proof.
  intros H. unfold train_iteration_of_batch, loop_bind, get_state, call.
  rewrite H. reflexivity.
Qed.

(** One batch that is not skipped: the state takes its iteration, the
    splits are validated when the interval divides it, the batch is trained
    on. *)
Lemma train_batches_step (batch_idx : nat) (b : batch)
    (rest : list (nat * batch)) (st : TrainingState) :
  collaborators_ok -> interval_validate self <> 0 ->
  st_iteration st = 0
  \/ st_iteration st = Z.of_nat batch_idx + st_epoch st * L - 1 ->
  let st1 := {| st_iteration := Z.of_nat batch_idx + st_epoch st * L;
                st_epoch := st_epoch st;
                st_max_iteration := st_max_iteration st |} in
  exists evs,
    trained evs = [st_iteration st1] /\
    schedule evs
    = scheduled_iteration (interval_validate self) (st_iteration st1)
      ++ (if training_complete st1 then [ValidatedAt (st_iteration st1)]
          else []) /\
    batches_loop ((batch_idx, b) :: rest) st
    = if training_complete st1 then (evs, st1, Returned tt)
      else let '(evs', st', r) := batches_loop rest st1 in
           (evs ++ evs', st', r).
Proof.
  intros Hok HK Hpass st1.
  destruct (maybe_validate_returns
              (st_iteration st1 mod interval_validate self =? 0) st1 Hok)
    as (evs1 & E1 & Ht1 & Hv1).
  destruct (maybe_validate_returns (training_complete st1) st1 Hok)
    as (evs2 & E2 & Ht2 & Hv2).
  exists (evs1 ++ [EvTrainIteration float batch_idx b (st_epoch st1)
                     (st_iteration st1)] ++ evs2).
  split; [|split].
  - rewrite !trained_app, Ht1, Ht2. reflexivity.
  - rewrite !schedule_app, Hv1, Hv2. unfold scheduled_iteration.
    rewrite <- app_assoc. reflexivity.
  - cbn [train_batches]. unfold loop_bind at 1. unfold get_state at 1.
    replace (negb (st_iteration st =? 0)
             && negb (Z.of_nat batch_idx + st_epoch st * L - 1
                      =? st_iteration st)) with false.
    2:{ symmetry. destruct Hpass as [H|H].
        - rewrite H. reflexivity.
        - rewrite H, Z.eqb_refl, andb_false_r. reflexivity. }
    fold st1. unfold loop_bind at 1. unfold put_state at 1.
    unfold loop_bind at 1. unfold loop_lift at 1. unfold py_mod.
    rewrite (proj2 (Z.eqb_neq _ _) HK).
    unfold loop_bind at 1.
    change (Z.of_nat batch_idx + st_epoch st * L) with (st_iteration st1).
    rewrite E1.
    unfold loop_bind at 1.
    rewrite (@train_iteration_of_batch_returns batch_idx b st1
               (proj1 (proj2 Hok) st1 b)).
    unfold loop_bind at 1. unfold get_state at 1.
    destruct (training_complete st1).
    + rewrite E2. cbn [app]. reflexivity.
    + inversion E2; subst evs2.
      destruct (batches_loop rest st1) as [[evs' st'] r].
      cbn [app]. rewrite <- !app_assoc. reflexivity.
Qed.
Lemma train_batches_skip (batch_idx : nat) (b : batch)
    (rest : list (nat * batch)) (st : TrainingState) :
  st_iteration st <> 0 ->
  Z.of_nat batch_idx + st_epoch st * L - 1 <> st_iteration st ->
  batches_loop ((batch_idx, b) :: rest) st = batches_loop rest st.
Proof.
  intros H0 H1. cbn [train_batches]. unfold loop_bind at 1.
  unfold get_state at 1.
  rewrite (proj2 (Z.eqb_neq _ _) H0), (proj2 (Z.eqb_neq _ _) H1).
  cbn [negb andb]. destruct (batches_loop rest st) as [[evs st'] r].
  reflexivity.
Qed.

(** The batches from index [j] on, entered with a state that lets batch [j]
    pass: they are trained on one after the other, up to the end of the
    loader or to the first iteration that completes the training. *)
Lemma train_batches_run (bs : list batch) :
  collaborators_ok -> interval_validate self <> 0 ->
  forall (j : nat) (st : TrainingState),
    st_iteration st = 0
    \/ st_iteration st = Z.of_nat j + st_epoch st * L - 1 ->
    let base := Z.of_nat j + st_epoch st * L in
    let stop := Z.min (base + Z.of_nat (length bs))
                      (Z.max (st_max_iteration st) base + 1) in
    exists evs st',
      batches_loop (combine (seq j (length bs)) bs) st
      = (evs, st', Returned tt) /\
      trained evs = py_range_from base stop /\
      schedule evs
      = flat_map (scheduled_iteration (interval_validate self))
                 (py_range_from base stop)
        ++ (if (base <? stop) && (st_max_iteration st <=? stop - 1)
            then [ValidatedAt (stop - 1)] else []) /\
      st_epoch st' = st_epoch st /\
      st_max_iteration st' = st_max_iteration st /\
      st_iteration st' = (if base <? stop then stop - 1 else st_iteration st).
Proof.
  intros Hok HK. induction bs as [|b bs IH]; intros j st Hpass base stop.
  - exists [], st. subst stop. cbn [length seq combine train_batches].
    replace (Z.min (base + Z.of_nat 0) (Z.max (st_max_iteration st) base + 1))
      with base by lia.
    rewrite py_range_from_nil by lia. rewrite Z.ltb_irrefl.
    repeat split.
  - cbn [length seq combine].
    destruct (@train_batches_step j b (combine (seq (Datatypes.S j) (length bs)) bs)
                st Hok HK Hpass) as (evs & Ht & Hv & Erun).
    cbv zeta in Ht, Hv, Erun.
    cbn [st_iteration st_epoch st_max_iteration] in Ht, Hv.
    fold base in Ht, Hv, Erun.
    set (st1 := {| st_iteration := base; st_epoch := st_epoch st;
                   st_max_iteration := st_max_iteration st |}) in *.
    unfold training_complete in Hv, Erun.
    cbn [st1 st_iteration st_max_iteration] in Hv, Erun.
    rewrite Z.geb_leb in Hv, Erun.
    destruct (Z.leb_spec (st_max_iteration st) base) as [Hc|Hc].
    + exists evs, st1. assert (Hstop : stop = base + 1).
      { subst stop. cbn [length]. lia. }
      rewrite Hstop.
      rewrite (@py_range_from_cons base (base + 1)) by lia.
      rewrite py_range_from_nil by lia.
      replace (base <? base + 1) with true by (symmetry; apply Z.ltb_lt; lia).
      replace (base + 1 - 1) with base by lia.
      replace (st_max_iteration st <=? base) with true
        by (symmetry; apply Z.leb_le; lia).
      cbn [flat_map andb]. rewrite app_nil_r. repeat split; assumption.
    + destruct (IH (Datatypes.S j) st1) as (evs' & st' & E' & Ht' & Hv' & He & Hm & Hi).
      { right. cbn [st1 st_iteration st_epoch]. subst base. lia. }
      cbv zeta in E', Ht', Hv', He, Hm, Hi.
      cbn [st1 st_iteration st_epoch st_max_iteration] in Ht', Hv', He, Hm, Hi.
      replace (Z.of_nat (Datatypes.S j) + st_epoch st * L) with (base + 1)
        in Ht', Hv', Hi by (subst base; lia).
      replace (Z.min (base + 1 + Z.of_nat (length bs))
                     (Z.max (st_max_iteration st) (base + 1) + 1))
        with stop in Ht', Hv', Hi by (subst stop; cbn [length]; lia).
      assert (Hlt : base < stop) by (subst stop; cbn [length]; lia).
      rewrite E' in Erun. exists (evs ++ evs'), st'.
      split; [exact Erun|].
      rewrite trained_app, schedule_app, Ht, Hv, Ht', Hv'.
      rewrite (@py_range_from_cons base stop) by lia.
      replace (base <? stop) with true by (symmetry; apply Z.ltb_lt; lia).
      cbn [flat_map app andb]. repeat split; try assumption.
      * rewrite app_nil_r, <- app_assoc. f_equal. f_equal.
        destruct (Z.ltb_spec (base + 1) stop) as [H1|H1]; cbn [andb];
          [reflexivity|].
        replace (st_max_iteration st <=? stop - 1) with false
          by (symmetry; apply Z.leb_gt; lia).
        reflexivity.
      * rewrite Hi. destruct (Z.ltb_spec (base + 1) stop) as [H1|H1];
          [reflexivity|]. cbn [st1 st_iteration]. lia.
Qed.
Lemma length_train_loader (epoch : Z) :
  length (train_loader self epoch) = len_train_loader self.
Proof. unfold train_loader. now rewrite length_map, length_seq. Qed.

(** [train_epoch] up to its loop over the batches. *)
Lemma train_epoch_unfold (st : TrainingState) :
  (forall split st0, exists r, validate_split_call split st0 = Ok r) ->
  (generate_new_synthetic_data_each_epoch self = true ->
   has_train_loader_for_val self = true) ->
  exists evs0,
    trained evs0 = [] /\
    validated "val" evs0
    = (if has_lr_scheduler self then [st_iteration st] else []) /\
    schedule evs0
    = (if has_lr_scheduler self then [ValidatedAt (st_iteration st)]
       else []) /\
    train_epoch validate_split_call train_iteration_call self st
    = let '(evs, st', r) :=
        batches_loop (enumerate (train_loader self (st_epoch st))) st in
      (evs0 ++ evs, st', r).
Proof.
  intros Hval Hgen.
  assert (Hpro : exists evs0,
             (if has_lr_scheduler self
              then loop_bind (validate_split batch validate_split_call "val")
                     (fun x => let '(val_loss, _) := x in
                        loop_bind (get_state batch float)
                          (fun st0 => loop_emit
                             (EvLrSchedulerStep batch val_loss (st_epoch st0))))
              else loop_ret batch float tt) st = (evs0, st, Returned tt) /\
             trained evs0 = [] /\
             validated "val" evs0
             = (if has_lr_scheduler self then [st_iteration st] else []) /\
             schedule evs0
             = if has_lr_scheduler self then [ValidatedAt (st_iteration st)]
               else []).
  { destruct (has_lr_scheduler self).
    - destruct (Hval "val"%string st) as [[vl vm] Ev].
      eexists. split; [|split; [|split]].
      + eapply loop_bind_returned;
          [exact (@validate_split_returns _ st _ Ev)|reflexivity].
      + reflexivity.
      + reflexivity.
      + reflexivity.
    - exists []. repeat split. }
  destruct Hpro as (evs0 & E0 & Ht0 & Hv0 & Hs0).
  exists ([EvModelTrain batch float] ++ evs0
          ++ (if generate_new_synthetic_data_each_epoch self
              then [EvInitializeLocations batch float "train_loader";
                    EvInitializeLocations batch float "train_loader_for_val"]
              else [])).
  split; [|split; [|split]].
  - rewrite !trained_app, Ht0.
    destruct (generate_new_synthetic_data_each_epoch self); reflexivity.
  - rewrite !validated_app, Hv0, app_nil_l.
    destruct (generate_new_synthetic_data_each_epoch self);
      rewrite app_nil_r; reflexivity.
  - rewrite !schedule_app, Hs0, app_nil_l.
    destruct (generate_new_synthetic_data_each_epoch self);
      rewrite app_nil_r; reflexivity.
  - unfold train_epoch.
    unfold loop_bind at 1. unfold loop_emit at 1.
    unfold loop_bind at 1. rewrite E0.
    unfold loop_bind at 1.
    assert (Hsyn :
              (if generate_new_synthetic_data_each_epoch self
               then loop_bind
                      (loop_emit (EvInitializeLocations batch float
                                    "train_loader"))
                      (fun _ =>
                         if has_train_loader_for_val self
                         then loop_emit (EvInitializeLocations batch float
                                           "train_loader_for_val")
                         else loop_raise batch float AttributeError)
               else loop_ret batch float tt) st
              = (if generate_new_synthetic_data_each_epoch self
                 then [EvInitializeLocations batch float "train_loader";
                       EvInitializeLocations batch float
                         "train_loader_for_val"]
                 else [], st, Returned tt)).
    { destruct (generate_new_synthetic_data_each_epoch self);
        [|reflexivity].
      rewrite (Hgen eq_refl). reflexivity. }
    rewrite Hsyn.
    unfold loop_bind at 1. unfold get_state at 1.
    destruct (batches_loop _ st) as [[evs st'] r].
    cbn [app]. rewrite <- !app_assoc. reflexivity.
Qed.

(** One epoch entered with a state that lets its first batch pass. *)
Lemma train_epoch_run (st : TrainingState) :
  collaborators_ok -> interval_validate self <> 0 ->
  st_iteration st = 0 \/ st_iteration st = st_epoch st * L - 1 ->
  let base := st_epoch st * L in
  let stop := Z.min (base + L) (Z.max (st_max_iteration st) base + 1) in
  exists evs st',
    train_epoch validate_split_call train_iteration_call self st
    = (evs, st', Returned tt) /\
    trained evs = py_range_from base stop /\
    schedule evs
    = (if has_lr_scheduler self then [ValidatedAt (st_iteration st)] else [])
      ++ flat_map (scheduled_iteration (interval_validate self))
                  (py_range_from base stop)
      ++ (if (base <? stop) && (st_max_iteration st <=? stop - 1)
          then [ValidatedAt (stop - 1)] else []) /\
    st_epoch st' = st_epoch st /\
    st_max_iteration st' = st_max_iteration st /\
    st_iteration st' = (if base <? stop then stop - 1 else st_iteration st).
Proof.
  intros Hok HK Hpass base stop.
  destruct (@train_batches_run (train_loader self (st_epoch st)) Hok HK 0%nat st)
    as (evs & st' & E & Ht & Hv & He & Hm & Hi).
  { cbn [Z.of_nat]. lia. }
  cbv zeta in E, Ht, Hv, Hi.
  rewrite length_train_loader in Ht, Hv, Hi.
  change (Z.of_nat 0 + st_epoch st * L) with base in Ht, Hv, Hi.
  fold stop in Ht, Hv, Hi.
  destruct (train_epoch_unfold st (proj1 Hok) (proj2 (proj2 (proj2 Hok))))
    as (evs0 & Ht0 & _ & Hv0 & E0).
  unfold enumerate in E0. rewrite E in E0.
  exists (evs0 ++ evs), st'.
  split; [exact E0|].
  rewrite trained_app, schedule_app, Ht0, Hv0, Ht, Hv. auto.
Qed.

(** The epochs from [e0] on, entered with a state that lets the first batch
    of epoch [e0] pass. *)
Lemma train_epochs_run :
  collaborators_ok -> interval_validate self <> 0 ->
  (0 < len_train_loader self)%nat ->
  forall (n : nat) (e0 : Z) (st : TrainingState),
    st_iteration st = 0 \/ st_iteration st = e0 * L - 1 ->
    let base := e0 * L in
    let stop := Z.min ((e0 + Z.of_nat n) * L)
                      (Z.max (st_max_iteration st) base + 1) in
    exists evs st',
      train_epochs validate_split_call train_iteration_call self
        (py_range_from e0 (e0 + Z.of_nat n)) st
      = (evs, st', Returned tt) /\
      trained evs = py_range_from base stop /\
      (has_lr_scheduler self = false ->
       schedule evs
       = flat_map (scheduled_iteration (interval_validate self))
                  (py_range_from base stop)
         ++ (if (base <? stop) && (st_max_iteration st <=? stop - 1)
             then [ValidatedAt (stop - 1)] else [])) /\
      st_max_iteration st' = st_max_iteration st /\
      st_iteration st' = (if base <? stop then stop - 1 else st_iteration st).
Proof.
  intros Hok HK HL. induction n as [|n IH]; intros e0 st Hpass base stop.
  - exists [], st. subst stop.
    replace (e0 + Z.of_nat 0) with e0 by lia.
    rewrite (@py_range_from_nil e0 e0) by lia.
    replace (Z.min (e0 * L) (Z.max (st_max_iteration st) base + 1))
      with base by (subst base; lia).
    rewrite py_range_from_nil by lia. rewrite Z.ltb_irrefl.
    repeat split.
  - rewrite (@py_range_from_cons e0 (e0 + Z.of_nat (Datatypes.S n))) by lia.
    replace (e0 + Z.of_nat (Datatypes.S n)) with (e0 + 1 + Z.of_nat n) in *
      by lia.
    assert (HnL : 0 <= Z.of_nat n * L) by nia.
    set (st0 := {| st_iteration := st_iteration st; st_epoch := e0;
                   st_max_iteration := st_max_iteration st |}).
    destruct (@train_epoch_run st0 Hok HK Hpass)
      as (evs1 & st1 & E1 & Ht1 & Hv1 & He1 & Hm1 & Hi1).
    cbv zeta in E1, Ht1, Hv1, Hi1.
    cbn [st0 st_iteration st_epoch st_max_iteration] in Ht1, Hv1, He1, Hm1, Hi1.
    fold base in Ht1, Hv1, Hi1.
    set (stop1 := Z.min (base + L) (Z.max (st_max_iteration st) base + 1))
      in *.
    assert (Hb1 : base < stop1) by (subst stop1; lia).
    rewrite (proj2 (Z.ltb_lt _ _) Hb1) in Hi1, Hv1. cbn [andb] in Hv1.
    assert (Hrun : train_epochs validate_split_call train_iteration_call self
                     (e0 :: py_range_from (e0 + 1) (e0 + 1 + Z.of_nat n)) st
                   = if training_complete st1 then (evs1, st1, Returned tt)
                     else let '(evs', st', r) :=
                            train_epochs validate_split_call
                              train_iteration_call self
                              (py_range_from (e0 + 1) (e0 + 1 + Z.of_nat n))
                              st1 in
                          (evs1 ++ evs', st', r)).
    { cbn [train_epochs]. unfold loop_bind at 1. unfold get_state at 1.
      fold st0. unfold loop_bind at 1. unfold put_state at 1.
      unfold loop_bind at 1. rewrite E1.
      unfold loop_bind at 1. unfold get_state at 1.
      destruct (training_complete st1).
      - unfold loop_ret. cbn [app]. rewrite app_nil_r. reflexivity.
      - destruct (train_epochs _ _ _ _ st1) as [[evs' st'] r].
        reflexivity. }
    unfold training_complete in Hrun. rewrite Z.geb_leb, Hm1, Hi1 in Hrun.
    destruct (Z.leb_spec (st_max_iteration st) (stop1 - 1)) as [Hc|Hc].
    + assert (Hs : stop = stop1).
      { subst stop stop1 base. lia. }
      exists evs1, st1. rewrite Hs.
      rewrite (proj2 (Z.ltb_lt _ _) Hb1).
      rewrite (proj2 (Z.leb_le _ _) Hc) in *. cbn [andb].
      split; [exact Hrun|]. split; [exact Ht1|].
      split; [intros Hlr; rewrite Hlr in Hv1; exact Hv1|]. auto.
    + assert (Hs1 : stop1 = (e0 + 1) * L) by (subst stop1 base; lia).
      destruct (IH (e0 + 1) st1) as (evs2 & st2 & E2 & Ht2 & Hv2 & Hm2 & Hi2).
      { right. rewrite Hi1. lia. }
      cbv zeta in E2, Ht2, Hv2, Hi2. rewrite Hm1 in Ht2, Hv2, Hm2, Hi2.
      replace (Z.min ((e0 + 1 + Z.of_nat n) * L)
                     (Z.max (st_max_iteration st) ((e0 + 1) * L) + 1))
        with stop in Ht2, Hv2, Hi2 by (subst stop base; lia).
      rewrite <- Hs1 in Ht2, Hv2, Hi2.
      assert (Hle : stop1 <= stop) by (subst stop base; lia).
      rewrite E2 in Hrun. exists (evs1 ++ evs2), st2.
      replace (base <? stop) with true by (symmetry; apply Z.ltb_lt; lia).
      cbn [andb].
      split; [exact Hrun|]. split; [|split; [|split; [exact Hm2|]]].
      * rewrite trained_app, Ht1, Ht2.
        symmetry. apply py_range_from_app; lia.
      * intros Hlr. rewrite schedule_app, Hv1, (Hv2 Hlr), Hlr.
        cbn [app]. rewrite app_nil_r.
        rewrite (@py_range_from_app base stop1 stop) by lia.
        rewrite flat_map_app, <- app_assoc. f_equal. f_equal.
        destruct (Z.ltb_spec stop1 stop) as [H1|H1]; cbn [andb];
          [reflexivity|].
        replace (st_max_iteration st <=? stop - 1) with false
          by (symmetry; apply Z.leb_gt; lia).
        reflexivity.
      * rewrite Hi2, Hi1.
        destruct (Z.ltb_spec stop1 stop) as [H1|H1]; [reflexivity|lia].
Qed.
(** The batches from index [j] on, entered with a stored iteration other
    than 0: the batches up to the stored iteration are skipped. *)
Lemma train_batches_resume (bs : list batch) :
  collaborators_ok -> interval_validate self <> 0 ->
  forall (j : nat) (st : TrainingState),
    st_iteration st <> 0 ->
    let first := st_iteration st + 1 in
    let base := Z.of_nat j + st_epoch st * L in
    let stop := Z.min (base + Z.of_nat (length bs))
                      (Z.max (st_max_iteration st) first + 1) in
    exists evs st',
      batches_loop (combine (seq j (length bs)) bs) st
      = (evs, st', Returned tt) /\
      if (base <=? first) && (first <? base + Z.of_nat (length bs))
      then trained evs = py_range_from first stop /\
           st_iteration st' = stop - 1 /\
           st_epoch st' = st_epoch st /\
           st_max_iteration st' = st_max_iteration st
      else evs = [] /\ st' = st.
Proof.
  intros Hok HK. induction bs as [|b bs IH]; intros j st H0 first base stop.
  - exists [], st. split; [reflexivity|].
    replace ((base <=? first) && (first <? base + Z.of_nat (length (@nil batch))))
      with false; [auto|].
    symmetry. apply andb_false_iff. cbn [length].
    destruct (Z.leb_spec base first); [right; apply Z.ltb_ge; lia|now left].
  - destruct (Z.eq_dec base first) as [Heq|Hne].
    + destruct (@train_batches_run (b :: bs) Hok HK j st)
        as (evs & st' & E & Ht & _ & He & Hm & Hi).
      { right. subst base first. lia. }
      cbv zeta in Ht, Hi. fold base in Ht, Hi.
      exists evs, st'. split; [exact E|].
      replace ((base <=? first) && (first <? base + Z.of_nat (length (b :: bs))))
        with true.
      2:{ symmetry. apply andb_true_iff. cbn [length].
          split; [apply Z.leb_le|apply Z.ltb_lt]; lia. }
      assert (Hs : Z.min (base + Z.of_nat (length (b :: bs)))
                         (Z.max (st_max_iteration st) base + 1) = stop).
      { subst stop. rewrite Heq. reflexivity. }
      rewrite Hs in Ht, Hi. rewrite <- Heq.
      assert (Hlt : base < stop) by (subst stop; cbn [length]; lia).
      rewrite (proj2 (Z.ltb_lt _ _) Hlt) in Hi. auto.
    + cbn [length seq combine].
      rewrite train_batches_skip by (subst base first; lia).
      destruct (IH (Datatypes.S j) st H0) as (evs & st' & E & Hres).
      cbv zeta in Hres. exists evs, st'. split; [exact E|].
      replace (Z.of_nat (Datatypes.S j) + st_epoch st * L) with (base + 1)
        in Hres by (subst base; lia).
      replace (Z.min (base + 1 + Z.of_nat (length bs))
                     (Z.max (st_max_iteration st) (st_iteration st + 1) + 1))
        with stop in Hres by (subst stop first; cbn [length]; lia).
      replace ((base <=? first)
               && (first <? base + Z.of_nat (Datatypes.S (length bs))))
        with ((base + 1 <=? st_iteration st + 1)
              && (st_iteration st + 1 <? base + 1 + Z.of_nat (length bs))).
      * exact Hres.
      * fold first.
        destruct (Z.leb_spec (base + 1) first), (Z.leb_spec base first);
          try lia; cbn [andb]; try reflexivity.
        destruct (Z.ltb_spec first (base + 1 + Z.of_nat (length bs))),
                 (Z.ltb_spec first (base + Z.of_nat (Datatypes.S (length bs))));
          try lia; reflexivity.
Qed.

(** X16.  Resuming: an epoch entered with a stored iteration other than 0
    trains on no batch up to the stored iteration and goes on from the next
    one; when the next iteration is not one of the epoch (the stored epoch
    and iteration do not belong together), the epoch trains on nothing and
    leaves the state as it was. *)
Theorem X16_train_epoch_resumes_after_stored_iteration (st : TrainingState) :
  collaborators_ok -> interval_validate self <> 0 ->
  st_iteration st <> 0 ->
  let first := st_iteration st + 1 in
  let base := st_epoch st * L in
  let stop := Z.min (base + L) (Z.max (st_max_iteration st) first + 1) in
  exists evs st',
    train_epoch validate_split_call train_iteration_call self st
    = (evs, st', Returned tt) /\
    if (base <=? first) && (first <? base + L)
    then trained evs = py_range_from first stop /\
         st_iteration st' = stop - 1
    else trained evs = [] /\ st' = st.
Proof.
  intros Hok HK H0 first base stop.
  destruct (@train_batches_resume (train_loader self (st_epoch st)) Hok HK
              0%nat st H0) as (evs & st' & E & Hres).
  cbv zeta in Hres. rewrite length_train_loader in Hres.
  change (Z.of_nat 0 + st_epoch st * L) with base in Hres.
  fold first in Hres. fold stop in Hres.
  destruct (train_epoch_unfold st (proj1 Hok) (proj2 (proj2 (proj2 Hok))))
    as (evs0 & Ht0 & _ & _ & E0).
  unfold enumerate in E0. rewrite E in E0.
  exists (evs0 ++ evs), st'. split; [exact E0|].
  rewrite trained_app, Ht0. cbn [app].
  destruct ((base <=? first) && (first <? base + L)).
  - destruct Hres as (Ht & Hi & _). auto.
  - destruct Hres as [-> ->]. auto.
Qed.

Lemma validate_all_splits_type_error (st : TrainingState) :
  (forall split st0, exists r, validate_split_call split st0 = Ok r) ->
  has_tensorboard_writer self = true ->
  has_train_loader_for_val self = false ->
  exists evs,
    all_splits st = (evs, st, Raised TypeError) /\
    trained evs = [] /\ validated "val" evs = [st_iteration st].
Proof.
  intros Hval Hb Hl. unfold validate_all_splits.
  destruct (Hval "val"%string st) as [[vl vm] Ev].
  unfold loop_bind at 1. rewrite (@validate_split_returns _ st _ Ev).
  rewrite Hb, Hl. unfold loop_bind, loop_ret, loop_raise. cbn.
  eexists. split; [reflexivity|]. split; reflexivity.
Qed.

Variable int_to_float : Z -> result float.
Variable ceil_quotient : float -> Z -> result Z.

Local Abbreviation train_loop :=
  (train validate_split_call train_iteration_call int_to_float ceil_quotient
         self).

(** [train] up to its loop over the epochs. *)
Lemma train_unfold (max_iteration : Z) (x : float) (max_epoch : Z) :
  (0 < len_train_loader self)%nat ->
  int_to_float max_iteration = Ok x -> ceil_quotient x L = Ok max_epoch ->
  train_loop (TrainingState_init max_iteration)
  = train_epochs validate_split_call train_iteration_call self
      (py_range_from 0 (0 + Z.of_nat (Z.to_nat max_epoch)))
      (TrainingState_init max_iteration).
Proof.
  intros HL Hx HE. unfold train, TrainingState_init.
  unfold loop_bind at 1. unfold get_state at 1.
  unfold loop_bind at 1. unfold call_free at 1.
  cbn [st_max_iteration]. rewrite Hx.
  replace (L =? 0) with false by (symmetry; apply Z.eqb_neq; lia).
  unfold loop_bind at 1. unfold call_free at 1. rewrite HE.
  unfold loop_bind at 1. unfold get_state at 1.
  cbn [st_epoch].
  replace (py_range_from 0 max_epoch)
    with (py_range_from 0 (0 + Z.of_nat (Z.to_nat max_epoch))).
  2:{ unfold py_range_from. f_equal. f_equal. lia. }
  destruct (train_epochs _ _ _ _ _) as [[evs st'] r]. reflexivity.
Qed.

(** A run of [train] from a fresh state, with [max_epoch] what the float
    expression gave. *)
Lemma train_run (max_iteration : Z) (x : float) (max_epoch : Z) :
  collaborators_ok -> interval_validate self <> 0 ->
  (0 < len_train_loader self)%nat ->
  int_to_float max_iteration = Ok x -> ceil_quotient x L = Ok max_epoch ->
  let stop := Z.min (Z.max max_epoch 0 * L) (Z.max max_iteration 0 + 1) in
  exists evs st',
    train_loop (TrainingState_init max_iteration) = (evs, st', Returned tt) /\
    trained evs = py_range_from 0 stop /\
    (has_lr_scheduler self = false ->
     schedule evs
     = flat_map (scheduled_iteration (interval_validate self))
                (py_range_from 0 stop)
       ++ (if (0 <? stop) && (max_iteration <=? stop - 1)
           then [ValidatedAt (stop - 1)] else [])) /\
    st_max_iteration st' = max_iteration /\
    st_iteration st' = (if 0 <? stop then stop - 1 else 0).
Proof.
  intros Hok HK HL Hx HE stop.
  rewrite (train_unfold HL Hx HE).
  destruct (@train_epochs_run Hok HK HL (Z.to_nat max_epoch) 0
              (TrainingState_init max_iteration))
    as (evs & st' & E & Ht & Hv & Hm & Hi).
  { left. reflexivity. }
  cbv zeta in E, Ht, Hv, Hi.
  cbn [TrainingState_init st_max_iteration st_iteration] in Ht, Hv, Hm, Hi.
  replace (0 + Z.of_nat (Z.to_nat max_epoch)) with (Z.max max_epoch 0)
    in Ht, Hv, Hi by lia.
  change (0 * L) with 0 in Ht, Hv, Hi. fold stop in Ht, Hv, Hi.
  exists evs, st'. auto.
Qed.
(** X14.  A run of [train] from a fresh state, with collaborators that
    return: the training iterations are numbered 0, 1, 2, ... without a gap,
    and the run stops after iteration [max_iteration] or at the end of epoch
    [max_epoch - 1], whichever comes first.  So when [max_epoch] is the exact
    ceiling of [max_iteration / len(train_loader)]: for [max_iteration <= 0]
    the run makes no training iteration and [training_complete()] holds as
    it did from the start; for [max_iteration > 0] the run makes
    [max_iteration + 1] training iterations and ends complete, unless the
    loader length divides [max_iteration]: then it makes [max_iteration]
    iterations and ends with [training_complete()] still false. *)
Theorem X14_train_numbers_iterations_from_zero (max_iteration : Z)
    (x : float) (max_epoch : Z) :
  collaborators_ok -> interval_validate self <> 0 ->
  (0 < len_train_loader self)%nat ->
  int_to_float max_iteration = Ok x -> ceil_quotient x L = Ok max_epoch ->
  exists evs st',
    train_loop (TrainingState_init max_iteration) = (evs, st', Returned tt) /\
    trained evs
    = py_range_from 0 (Z.min (Z.max max_epoch 0 * L)
                             (Z.max max_iteration 0 + 1)) /\
    ((max_epoch - 1) * L < max_iteration <= max_epoch * L ->
     trained evs
     = py_range_from 0 (if max_iteration <=? 0 then 0
                        else if max_iteration mod L =? 0 then max_iteration
                        else max_iteration + 1) /\
     training_complete st'
     = (max_iteration <=? 0) || negb (max_iteration mod L =? 0)).
Proof.
  intros Hok HK HL Hx HE.
  destruct (train_run Hok HK HL Hx HE) as (evs & st' & E & Ht & _ & Hm & Hi).
  cbv zeta in Ht, Hi. exists evs, st'.
  split; [exact E|]. split; [exact Ht|].
  intros Hceil.
  assert (Hstop : Z.min (Z.max max_epoch 0 * L) (Z.max max_iteration 0 + 1)
                  = if max_iteration <=? 0 then 0
                    else if max_iteration mod L =? 0 then max_iteration
                    else max_iteration + 1).
  { destruct (Z.leb_spec max_iteration 0) as [Hle|Hpos].
    - assert (max_epoch <= 0) by nia.
      replace (Z.max max_epoch 0) with 0 by lia. lia.
    - assert (HE1 : 1 <= max_epoch) by nia.
      replace (Z.max max_epoch 0) with max_epoch by lia.
      replace (Z.max max_iteration 0) with max_iteration by lia.
      destruct (Z.eqb_spec (max_iteration mod L) 0) as [H0|H0].
      + pose proof (Z_div_mod_eq_full max_iteration L) as Hdm.
        rewrite H0, Z.add_0_r in Hdm.
        assert (max_iteration / L = max_epoch) by nia.
        subst max_epoch. lia.
      + assert (max_iteration <> max_epoch * L).
        { intros ->. apply H0. apply Z.mod_mul. lia. }
        lia. }
  rewrite Hstop in Ht, Hi. split; [exact Ht|].
  unfold training_complete. rewrite Z.geb_leb, Hm, Hi.
  destruct (Z.leb_spec max_iteration 0) as [Hle|Hpos]; cbn [orb].
  - rewrite Z.ltb_irrefl. apply Z.leb_le. exact Hle.
  - destruct (Z.eqb_spec (max_iteration mod L) 0) as [H0|H0]; cbn [negb].
    + replace (0 <? max_iteration) with true
        by (symmetry; apply Z.ltb_lt; lia).
      apply Z.leb_gt. lia.
    + replace (0 <? max_iteration + 1) with true
        by (symmetry; apply Z.ltb_lt; lia).
      apply Z.leb_le. lia.
Qed.

(** X15.  The validation schedule of a run of [train] from a fresh state,
    without a learning-rate scheduler and with collaborators that return.
    Among the validations of the validation split and the training
    iterations, in the order in which the calls were made: each training
    iteration whose number [interval_validate] divides comes right after a
    validation made at that iteration, no other training iteration has a
    validation before it, and one more validation comes after the last
    training iteration when that one completes the training. *)
Theorem X15_train_validation_schedule (max_iteration : Z)
    (x : float) (max_epoch : Z) :
  collaborators_ok -> interval_validate self <> 0 ->
  (0 < len_train_loader self)%nat ->
  int_to_float max_iteration = Ok x -> ceil_quotient x L = Ok max_epoch ->
  has_lr_scheduler self = false ->
  exists evs st',
    train_loop (TrainingState_init max_iteration) = (evs, st', Returned tt) /\
    schedule evs
    = flat_map (scheduled_iteration (interval_validate self)) (trained evs)
      ++ match trained evs with
         | [] => []
         | _ :: _ =>
             if training_complete st' then [ValidatedAt (st_iteration st')]
             else []
         end.
Proof.
  intros Hok HK HL Hx HE Hlr.
  destruct (train_run Hok HK HL Hx HE) as (evs & st' & E & Ht & Hv & Hm & Hi).
  cbv zeta in Ht, Hv, Hi. specialize (Hv Hlr). exists evs, st'.
  split; [exact E|]. rewrite Hv, Ht. f_equal.
  set (stop := Z.min (Z.max max_epoch 0 * L) (Z.max max_iteration 0 + 1))
    in *.
  unfold training_complete. rewrite Z.geb_leb, Hm, Hi.
  destruct (Z.ltb_spec 0 stop) as [H0|H0]; cbn [andb].
  - rewrite (@py_range_from_cons 0 stop) by lia. reflexivity.
  - rewrite py_range_from_nil by lia. reflexivity.
Qed.
Lemma train_batches_first_raises (b : batch) (rest : list (nat * batch))
    (st : TrainingState) :
  (forall split st0, exists r, validate_split_call split st0 = Ok r) ->
  st_iteration st = 0 -> st_epoch st = 0 ->
  interval_validate self = 0
  \/ (has_tensorboard_writer self = true
      /\ has_train_loader_for_val self = false) ->
  exists evs,
    batches_loop ((0%nat, b) :: rest) st
    = (evs, st, Raised (if interval_validate self =? 0
                        then ZeroDivisionError else TypeError)) /\
    trained evs = [] /\
    validated "val" evs = (if interval_validate self =? 0 then [] else [0]).
Proof.
  intros Hval Hi He Hcause. destruct st as [it ep mx].
  cbn [st_iteration st_epoch] in Hi, He. subst it ep.
  cbn [train_batches]. unfold loop_bind at 1. unfold get_state at 1.
  cbn [st_iteration st_epoch st_max_iteration Z.of_nat Z.eqb negb andb].
  cbn [Z.mul Z.add].
  unfold loop_bind at 1. unfold put_state at 1.
  unfold loop_bind at 1. unfold loop_lift at 1. unfold py_mod.
  destruct (Z.eqb_spec (interval_validate self) 0) as [HK|HK].
  - exists []. repeat split.
  - destruct Hcause as [HK'|[Hb Hl]]; [contradiction|].
    rewrite Zmod_0_l. cbn [Z.eqb].
    destruct (@validate_all_splits_type_error
                {| st_iteration := 0; st_epoch := 0; st_max_iteration := mx |}
                Hval Hb Hl) as (evs & E & Ht & Hv).
    exists evs. split; [|split; assumption].
    unfold loop_bind at 1. unfold loop_bind at 1. rewrite E.
    cbn [app]. reflexivity.
Qed.

(** X17.  A run of [train] from a fresh state over a loader that is not
    empty raises before its first training iteration when
    [interval_validate] is 0 ([ZeroDivisionError], from the [%] at
    iteration 0), and otherwise when the exporter has a tensorboard writer
    and the trainer no [train_loader_for_val] ([TypeError], from
    [val_loss - train_loss] with [train_loss = None], after the validation
    split has been validated at iteration 0).  New synthetic data are not
    asked of a missing [train_loader_for_val] here. *)
Theorem X17_train_raises_before_first_iteration (max_iteration : Z)
    (x : float) (max_epoch : Z) :
  (forall split st0, exists r, validate_split_call split st0 = Ok r) ->
  (generate_new_synthetic_data_each_epoch self = true ->
   has_train_loader_for_val self = true) ->
  (0 < len_train_loader self)%nat ->
  int_to_float max_iteration = Ok x -> ceil_quotient x L = Ok max_epoch ->
  0 < max_epoch ->
  interval_validate self = 0
  \/ (has_tensorboard_writer self = true
      /\ has_train_loader_for_val self = false) ->
  exists evs st',
    train_loop (TrainingState_init max_iteration)
    = (evs, st', Raised (if interval_validate self =? 0
                         then ZeroDivisionError else TypeError)) /\
    trained evs = [] /\
    validated "val" evs
    = (if has_lr_scheduler self then [0] else [])
      ++ (if interval_validate self =? 0 then [] else [0]).
Proof.
  intros Hval Hgen HL Hx HE Hpos Hcause.
  rewrite (train_unfold HL Hx HE).
  rewrite (@py_range_from_cons 0 (0 + Z.of_nat (Z.to_nat max_epoch))) by lia.
  cbn [train_epochs]. unfold TrainingState_init.
  unfold loop_bind at 1. unfold get_state at 1.
  unfold loop_bind at 1. unfold put_state at 1.
  cbn [st_iteration st_max_iteration].
  set (st0 := {| st_iteration := 0; st_epoch := 0;
                 st_max_iteration := max_iteration |}).
  destruct (train_epoch_unfold st0 Hval Hgen) as (evs0 & Ht0 & Hv0 & _ & E0).
  cbn [st0 st_epoch st_iteration] in E0, Hv0. fold st0 in E0.
  assert (Hb : exists b rest,
             enumerate (train_loader self 0) = (0%nat, b) :: rest).
  { unfold enumerate, train_loader.
    destruct (len_train_loader self) as [|k]; [lia|].
    cbn [seq map length combine]. eauto. }
  destruct Hb as (b & rest & Eb). rewrite Eb in E0.
  destruct (@train_batches_first_raises b rest st0 Hval eq_refl eq_refl Hcause)
    as (evs & E & Ht & Hv).
  rewrite E in E0.
  exists ([] ++ [] ++ evs0 ++ evs), st0. split; [|split].
  - unfold loop_bind at 1. rewrite E0. reflexivity.
  - cbn [app]. rewrite trained_app, Ht0, Ht. reflexivity.
  - cbn [app]. rewrite validated_app, Hv0, Hv. reflexivity.
Qed.
End TrainLoopFacts.

Lemma example_collaborators_return (self : LoopTrainer nat) :
  (has_tensorboard_writer self = true ->
   has_train_loader_for_val self = true) ->
  (generate_new_synthetic_data_each_epoch self = true ->
   has_train_loader_for_val self = true) ->
  collaborators_return example_validate_split_call
    example_train_iteration_call self.
Proof.
  intros H H'. split; [|split; [|split; [exact H|exact H']]].
  - intros split st. eexists. reflexivity.
  - intros st b. reflexivity.
Qed.

Lemma X14_train_numbers_iterations_from_zero_witness :
  exists evs st',
    example_train example_loop_trainer 10 = (evs, st', Returned tt) /\
    trained evs = py_range_from 0 (Z.min (Z.max 3 0 * Z.of_nat 4) (Z.max 10 0 + 1)) /\
    ((3 - 1) * Z.of_nat 4 < 10 <= 3 * Z.of_nat 4 ->
     trained evs
     = py_range_from 0 (if 10 <=? 0 then 0
                        else if 10 mod Z.of_nat 4 =? 0 then 10 else 10 + 1) /\
     training_complete st'
     = (10 <=? 0) || negb (10 mod Z.of_nat 4 =? 0)).
Proof.
  apply (@X14_train_numbers_iterations_from_zero nat Z unit
           example_validate_split_call example_train_iteration_call
           example_loop_trainer example_int_to_float example_ceil_quotient
           10 10 3).
  - apply example_collaborators_return; discriminate.
  - discriminate.
  - cbn. lia.
  - reflexivity.
  - reflexivity.
Defined.

Lemma X15_train_validation_schedule_witness :
  exists evs st',
    example_train example_loop_trainer 10 = (evs, st', Returned tt) /\
    schedule evs
    = flat_map (scheduled_iteration 4) (trained evs)
      ++ match trained evs with
         | [] => []
         | _ :: _ =>
             if training_complete st' then [ValidatedAt (st_iteration st')]
             else []
         end.
Proof.
  apply (@X15_train_validation_schedule nat Z unit
           example_validate_split_call example_train_iteration_call
           example_loop_trainer example_int_to_float example_ceil_quotient
           10 10 3).
  - apply example_collaborators_return; discriminate.
  - discriminate.
  - cbn. lia.
  - reflexivity.
  - reflexivity.
  - reflexivity.
Defined.

Lemma X16_train_epoch_resumes_after_stored_iteration_witness :
  exists evs st',
    train_epoch example_validate_split_call example_train_iteration_call
      example_loop_trainer
      {| st_iteration := 5; st_epoch := 1; st_max_iteration := 10 |}
    = (evs, st', Returned tt) /\
    trained evs = py_range_from 6 8 /\ st_iteration st' = 8 - 1.
Proof.
  apply (@X16_train_epoch_resumes_after_stored_iteration nat Z unit
           example_validate_split_call example_train_iteration_call
           example_loop_trainer
           {| st_iteration := 5; st_epoch := 1; st_max_iteration := 10 |}).
  - apply example_collaborators_return; discriminate.
  - discriminate.
  - discriminate.
Defined.

Lemma X17_train_raises_before_first_iteration_witness :
  exists evs st',
    example_train
      {| len_train_loader := 4;
         train_loader_batch := fun _ i => i;
         interval_validate := 4;
         has_lr_scheduler := false;
         generate_new_synthetic_data_each_epoch := false;
         has_train_loader_for_val := false;
         has_tensorboard_writer := true |} 10
    = (evs, st', Raised TypeError) /\
    trained evs = [] /\
    validated "val" evs = [] ++ [0].
Proof.
  apply (@X17_train_raises_before_first_iteration nat Z unit
           example_validate_split_call example_train_iteration_call
           {| len_train_loader := 4;
              train_loader_batch := fun _ i => i;
              interval_validate := 4;
              has_lr_scheduler := false;
              generate_new_synthetic_data_each_epoch := false;
              has_train_loader_for_val := false;
              has_tensorboard_writer := true |}
           example_int_to_float example_ceil_quotient 10 10 3).
  - intros split st. eexists. reflexivity.
  - discriminate.
  - cbn. lia.
  - reflexivity.
  - reflexivity.
  - lia.
  - right. split; reflexivity.
Defined.

(** With four batches in the loader: [max_iteration = 8] trains on
    iterations 0..7 and ends with the training not complete and without a
    last validation; [max_iteration = 10] trains on 0..10 and validates once
    more after iteration 10; [max_iteration = 0] trains on nothing; an
    interval of 0 raises at once. *)
Example train_examples :
  (let '(evs, st', r) := example_train example_loop_trainer 8 in
   trained evs = [0; 1; 2; 3; 4; 5; 6; 7] /\ validated "val" evs = [0; 4] /\
   schedule evs
   = [ValidatedAt 0; TrainedAt 0; TrainedAt 1; TrainedAt 2; TrainedAt 3;
      ValidatedAt 4; TrainedAt 4; TrainedAt 5; TrainedAt 6; TrainedAt 7] /\
   training_complete st' = false /\ r = Returned tt) /\
  (let '(evs, st', r) := example_train example_loop_trainer 10 in
   trained evs = [0; 1; 2; 3; 4; 5; 6; 7; 8; 9; 10] /\
   validated "val" evs = [0; 4; 8; 10] /\
   schedule evs
   = [ValidatedAt 0; TrainedAt 0; TrainedAt 1; TrainedAt 2; TrainedAt 3;
      ValidatedAt 4; TrainedAt 4; TrainedAt 5; TrainedAt 6; TrainedAt 7;
      ValidatedAt 8; TrainedAt 8; TrainedAt 9; TrainedAt 10;
      ValidatedAt 10] /\
   training_complete st' = true /\ r = Returned tt) /\
  (let '(evs, st', r) := example_train example_loop_trainer 0 in
   evs = [] /\ training_complete st' = true /\ r = Returned tt) /\
  (let '(evs, st', r) :=
     example_train
       {| len_train_loader := 4;
          train_loader_batch := fun _ i => i;
          interval_validate := 0;
          has_lr_scheduler := false;
          generate_new_synthetic_data_each_epoch := false;
          has_train_loader_for_val := false;
          has_tensorboard_writer := false |} 10 in
   trained evs = [] /\ r = Raised ZeroDivisionError).
Proof. vm_compute. repeat split. Qed.

(** ** The guard of the optimizer step *)

Section TrainerSteps.
Variables image permutations components : Type.
Variable model_forward : image -> tensor4 spec_float.
Variable loss_fcn eval_loss_fcn_with_matching :
  tensor4 spec_float -> ndarray -> ndarray ->
  result (permutations * spec_float * components).
Variable augment_image : image -> ndarray -> image.
Variable tensor_div : spec_float -> nat -> spec_float.
Variable after_optim_step : io unit.

Local Abbreviation iteration_of self img_data tgt :=
  (train_iteration model_forward loss_fcn eval_loss_fcn_with_matching
     augment_image tensor_div after_optim_step self img_data tgt).
Local Abbreviation loss_of self score sem_lbl inst_lbl :=
  (compute_loss loss_fcn eval_loss_fcn_with_matching tensor_div
     self score sem_lbl inst_lbl false).

Lemma debug_check_values_are_valid_events (loss : spec_float)
    (score : tensor4 spec_float) (iteration : nat) (ev : event) :
  In ev (fst (debug_check_values_are_valid loss score iteration)) ->
  ev = EvPrintWarning loss iteration.
Proof.
  rewrite debug_check_values_are_valid_cases.
  destruct (is_nan loss); [intros []|].
  destruct (SFltb float_1e4 loss); cbn [fst]; [|intros []].
  intros [<-|[]]. reflexivity.
Qed.

(** X18.  [optim.step()] is guarded by every check of the iteration:
    whenever a call of [train_iteration] has stepped the optimizer, the
    model was in training mode, the data were prepared, the two label maps
    and the score agreed in shape, the loss function returned, and
    [debug_check_values_are_valid] returned; and the calls were made in the
    order [zero_grad], forward pass, loss, check, [backward], [step]. *)
Theorem X18_optimizer_steps_only_after_checks (self : Trainer)
    (img_data : image) (tgt : target) :
  In EvOptimStep (fst (iteration_of self img_data tgt)) ->
  model_training self = true /\
  exists full_input sem_lbl inst_lbl evs perms loss comps,
    prepare_data_for_forward_pass augment_image self img_data tgt
    = Ok (full_input, sem_lbl, inst_lbl) /\
    shape sem_lbl = shape inst_lbl /\
    shape inst_lbl = [size0 (model_forward full_input);
                      size2 (model_forward full_input);
                      size3 (model_forward full_input)] /\
    loss_of self (model_forward full_input) sem_lbl inst_lbl
    = (evs, Ok (perms, loss, comps)) /\
    snd (debug_check_values_are_valid loss (model_forward full_input)
           (state_iteration self)) = Ok tt /\
    fst (iteration_of self img_data tgt)
    = EvZeroGrad :: EvForward :: evs
      ++ fst (debug_check_values_are_valid loss (model_forward full_input)
                (state_iteration self))
      ++ EvBackward :: EvOptimStep :: fst after_optim_step.
Proof.
  unfold train_iteration.
  destruct (model_training self) eqn:Htr; cbn [negb];
    [|intros []].
  destruct (prepare_data_for_forward_pass augment_image self img_data tgt)
    as [[[full_input sem_lbl] inst_lbl]|e] eqn:Hprep;
    [|intros []].
  unfold lift, emit. rewrite !io_bind_ok. cbn [fst snd app].
  destruct (loss_of self (model_forward full_input) sem_lbl inst_lbl)
    as [evs [[[perms loss] comps]|e]] eqn:Hloss.
  2:{ cbn [io_bind fst]. intros [E|[E|Hin]]; try discriminate.
      rewrite ?app_nil_r in Hin.
      pose proof (@compute_loss_events permutations components loss_fcn
                    eval_loss_fcn_with_matching tensor_div self
                    (model_forward full_input) sem_lbl inst_lbl false
                    EvOptimStep) as Hc.
      rewrite Hloss in Hc. destruct (Hc Hin) as [E|[a E]]; discriminate. }
  rewrite io_bind_ok. cbn [fst snd].
  destruct (debug_check_values_are_valid loss (model_forward full_input)
              (state_iteration self)) as [evs' [[]|e]] eqn:Hchk.
  2:{ cbn [io_bind fst]. intros [E|[E|Hin]]; try discriminate.
      apply in_app_or in Hin. destruct Hin as [Hin|Hin].
      - pose proof (@compute_loss_events permutations components loss_fcn
                      eval_loss_fcn_with_matching tensor_div self
                      (model_forward full_input) sem_lbl inst_lbl false
                      EvOptimStep) as Hc.
        rewrite Hloss in Hc. destruct (Hc Hin) as [E|[a E]]; discriminate.
      - rewrite ?app_nil_r in Hin.
        pose proof (@debug_check_values_are_valid_events loss
                      (model_forward full_input) (state_iteration self)
                      EvOptimStep) as Hd.
        rewrite Hchk in Hd. specialize (Hd Hin). discriminate. }
  intros _. split; [reflexivity|].
  exists full_input, sem_lbl, inst_lbl, evs, perms, loss, comps.
  assert (Hshape : shape_eqb (shape sem_lbl) (shape inst_lbl)
                   && shape_eqb (shape inst_lbl)
                        [size0 (model_forward full_input);
                         size2 (model_forward full_input);
                         size3 (model_forward full_input)] = true).
  { unfold compute_loss in Hloss.
    destruct (shape_eqb (shape sem_lbl) (shape inst_lbl)
              && shape_eqb (shape inst_lbl)
                   [size0 (model_forward full_input);
                    size2 (model_forward full_input);
                    size3 (model_forward full_input)]);
      [reflexivity|discriminate]. }
  apply andb_true_iff in Hshape. destruct Hshape as [H1 H2].
  apply shape_eqb_true in H1, H2.
  repeat (split; [first [reflexivity|assumption]|]).
  rewrite Hchk. split; reflexivity.
Qed.
End TrainerSteps.

Lemma X18_optimizer_steps_only_after_checks_witness :
  model_training (example_trainer example_config) = true /\
  exists full_input sem_lbl inst_lbl evs perms loss comps,
    prepare_data_for_forward_pass (fun (x : unit) _ => x)
      (example_trainer example_config) tt
      (TargetPair (one_pixel 1) (one_pixel 1))
    = Ok (full_input, sem_lbl, inst_lbl) /\
    shape sem_lbl = shape inst_lbl /\
    shape inst_lbl
    = [size0 (constant_score 1 5 1 1 (S754_zero false));
       size2 (constant_score 1 5 1 1 (S754_zero false));
       size3 (constant_score 1 5 1 1 (S754_zero false))] /\
    compute_loss (constant_loss_fcn float_131072)
      (constant_loss_fcn float_131072) (fun x _ => x)
      (example_trainer example_config)
      (constant_score 1 5 1 1 (S754_zero false)) sem_lbl inst_lbl false
    = (evs, Ok (perms, loss, comps)) /\
    snd (debug_check_values_are_valid loss
           (constant_score 1 5 1 1 (S754_zero false))
           (state_iteration (example_trainer example_config))) = Ok tt /\
    fst (train_iteration
           (fun _ : unit => constant_score 1 5 1 1 (S754_zero false))
           (constant_loss_fcn float_131072) (constant_loss_fcn float_131072)
           (fun x _ => x) (fun x _ => x) (ret tt)
           (example_trainer example_config) tt
           (TargetPair (one_pixel 1) (one_pixel 1)))
    = EvZeroGrad :: EvForward :: evs
      ++ fst (debug_check_values_are_valid loss
                (constant_score 1 5 1 1 (S754_zero false))
                (state_iteration (example_trainer example_config)))
      ++ EvBackward :: EvOptimStep :: fst (@ret unit tt).
Proof.
  apply (@X18_optimizer_steps_only_after_checks unit unit unit
           (fun _ : unit => constant_score 1 5 1 1 (S754_zero false))
           (constant_loss_fcn float_131072) (constant_loss_fcn float_131072)
           (fun x _ => x) (fun x _ => x) (ret tt)
           (example_trainer example_config) tt
           (TargetPair (one_pixel 1) (one_pixel 1))).
  vm_compute. tauto.
Defined.

(** ** [prepare_data_for_forward_pass] on a loader of semantic labels *)

Lemma nth_error_zero_instances (sem_lbl : ndarray) (p : nat) :
  nth_error (data (zero_instances sem_lbl)) p
  = option_map (fun s => if s =? -1 then -1 else 0)
               (nth_error (data sem_lbl) p).
Proof.
  unfold zero_instances. cbn [data].
  rewrite nth_error_setitem_mask
    by (unfold eq_scalar; now rewrite !length_map).
  unfold eq_scalar. rewrite !nth_error_map.
  destruct (nth_error (data sem_lbl) p) as [s|]; cbn [option_map];
    [|reflexivity].
  destruct (s =? -1); reflexivity.
Qed.

Section PrepareData.
Variable image : Type.
Variable augment_image : image -> ndarray -> image.

(** X19.  With a loader of semantic labels only and a target that is one
    tensor, the semantic map: [prepare_data_for_forward_pass] fails on its
    first assertion exactly when [use_semantic_loss] is off, and otherwise
    returns the input (augmented when asked), the semantic map as it came
    and an instance map of the same shape that is -1 where the semantic map
    is -1 and 0 elsewhere; clamping that instance map for a semantic problem
    changes nothing. *)
Theorem X19_semantic_only_loader_labels (self : Trainer) (img_data : image)
    (sem_lbl : ndarray) :
  loader_semantic_lbl_only self = true ->
  match prepare_data_for_forward_pass augment_image self img_data
          (TargetSemantic sem_lbl) with
  | Ok (full_input, sem_lbl', inst_lbl) =>
      use_semantic_loss self = true /\ sem_lbl' = sem_lbl /\
      full_input = (if augment_input_with_semantic_masks self
                    then augment_image img_data sem_lbl else img_data) /\
      shape inst_lbl = shape sem_lbl /\
      length (data inst_lbl) = length (data sem_lbl) /\
      (forall p s, nth_error (data sem_lbl) p = Some s ->
                   nth_error (data inst_lbl) p
                   = Some (if s =? -1 then -1 else 0)) /\
      clamp_instances inst_lbl = inst_lbl
  | Raise e => e = AssertionError /\ use_semantic_loss self = false
  end.
Proof.
  intros Hsem. unfold prepare_data_for_forward_pass. rewrite Hsem.
  cbn [negb]. destruct (use_semantic_loss self); cbn [bind].
  2:{ split; reflexivity. }
  repeat split.
  - now destruct (augment_input_with_semantic_masks self).
  - unfold zero_instances. cbn [data].
    now rewrite length_setitem_mask, length_map.
  - intros p s Hs. rewrite nth_error_zero_instances, Hs. reflexivity.
  - unfold clamp_instances. cbn [shape].
    replace (map (fun x => if 1 <? x then 1 else x)
                 (data (zero_instances sem_lbl)))
      with (data (zero_instances sem_lbl)); [reflexivity|].
    rewrite <- (map_id (data (zero_instances sem_lbl))) at 1.
    apply map_ext_in. intros x Hx.
    apply In_nth_error in Hx. destruct Hx as [p Hp].
    rewrite nth_error_zero_instances in Hp.
    destruct (nth_error (data sem_lbl) p) as [s|]; [|discriminate].
    cbn [option_map] in Hp. inversion Hp; subst x.
    destruct (s =? -1); reflexivity.
Qed.
End PrepareData.

Lemma X19_semantic_only_loader_labels_witness :
  match prepare_data_for_forward_pass (fun (x : unit) _ => x)
          {| model_training := true;
             instance_problem := example_config;
             state_iteration := 0;
             loader_semantic_lbl_only := true;
             use_semantic_loss := true;
             augment_input_with_semantic_masks := false |} tt
          (TargetSemantic example_sem_lbl) with
  | Ok (full_input, sem_lbl', inst_lbl) =>
      true = true /\ sem_lbl' = example_sem_lbl /\
      full_input = tt /\
      shape inst_lbl = shape example_sem_lbl /\
      length (data inst_lbl) = length (data example_sem_lbl) /\
      (forall p s, nth_error (data example_sem_lbl) p = Some s ->
                   nth_error (data inst_lbl) p
                   = Some (if s =? -1 then -1 else 0)) /\
      clamp_instances inst_lbl = inst_lbl
  | Raise e => e = AssertionError /\ true = false
  end.
Proof.
  apply (@X19_semantic_only_loader_labels unit (fun x _ => x)
           {| model_training := true;
              instance_problem := example_config;
              state_iteration := 0;
              loader_semantic_lbl_only := true;
              use_semantic_loss := true;
              augment_input_with_semantic_masks := false |} tt
           example_sem_lbl).
  reflexivity.
Defined.

(** ** Channel labels *)

Lemma has_char_app (c : Ascii.ascii) (a b : string) :
  has_char c (a ++ b)%string = has_char c a || has_char c b.
Proof.
  induction a as [|x a IH]; cbn [String.append has_char]; [reflexivity|].
  now rewrite IH, orb_assoc.
Qed.

(** The part after the last separator can be split off. *)
Lemma append_sep_inj (c : Ascii.ascii) (s1 s2 d1 d2 : string) :
  has_char c d1 = false -> has_char c d2 = false ->
  (s1 ++ String c d1)%string = (s2 ++ String c d2)%string ->
  s1 = s2 /\ d1 = d2.
Proof.
  intros H1 H2. revert s2.
  induction s1 as [|x s1 IH]; intros [|y s2] E; cbn [String.append] in E.
  - inversion E. auto.
  - inversion E; subst. exfalso.
    rewrite has_char_app in H1. cbn [has_char] in H1.
    rewrite Ascii.eqb_refl in H1. cbn [orb] in H1.
    rewrite orb_true_r in H1. discriminate.
  - inversion E; subst. exfalso.
    rewrite has_char_app in H2. cbn [has_char] in H2.
    rewrite Ascii.eqb_refl in H2. cbn [orb] in H2.
    rewrite orb_true_r in H2. discriminate.
  - inversion E; subst. destruct (IH s2 H3) as [-> ->]. auto.
Qed.

Lemma has_underscore_string_of_uint (d : Decimal.uint) :
  has_char underscore (DecimalString.NilEmpty.string_of_uint d) = false.
Proof. induction d; cbn [DecimalString.NilEmpty.string_of_uint has_char]; auto. Qed.

Lemma has_underscore_py_str_int (z : Z) :
  has_char underscore (py_str (ArgInt z)) = false.
Proof.
  unfold py_str, DecimalString.NilEmpty.string_of_int.
  destruct (Z.to_int z); cbn [has_char];
    rewrite ?has_underscore_string_of_uint; reflexivity.
Qed.

Lemma py_str_int_inj (a b : Z) :
  py_str (ArgInt a) = py_str (ArgInt b) -> a = b.
Proof.
  unfold py_str. intros H. apply DecimalZ.to_int_inj.
  pose proof (DecimalString.NilEmpty.isi (Z.to_int a)) as Ha.
  pose proof (DecimalString.NilEmpty.isi (Z.to_int b)) as Hb.
  rewrite H in Ha. congruence.
Qed.

Lemma combine_map_l {A B C} (f : A -> B) (l : list A) (l' : list C) :
  combine (map f l) l' = map (fun '(a, c) => (f a, c)) (combine l l').
Proof.
  revert l'. induction l as [|a l IH]; intros [|c l']; simpl; auto.
  now rewrite IH.
Qed.

Lemma InstanceProblemConfig_init_fields (n : list Z)
    (names : option (list string)) (vals : option (list Z)) (void : Z)
    (include_channel0 map_to_semantic0 : bool) (cfg : InstanceProblemConfig) :
  InstanceProblemConfig_init n names vals void include_channel0
    map_to_semantic0 = Ok cfg ->
  map_to_semantic cfg = map_to_semantic0 /\
  semantic_class_names cfg = names /\
  void_value cfg = void /\
  include_instance_channel0 cfg = include_channel0.
Proof.
  unfold InstanceProblemConfig_init. intros H.
  destruct (match vals with
            | Some sv => Nat.eqb (length sv) (length n)
            | None => true
            end); [|discriminate].
  cbn [bind] in H.
  destruct (get_instance_count_id_list _ _ _) as [icil|]; [|discriminate].
  cbn [bind] in H.
  destruct (get_instance_count_id_list _ _ _) as [micil|]; [|discriminate].
  cbn [bind] in H.
  destruct (get_instance_to_semantic_mapping _) as [mat|]; [|discriminate].
  cbn [bind] in H. inversion H; subst cfg. repeat split.
Qed.

(** The labels of the default format, when every class of the layout has a
    name. *)
Lemma get_channel_labels_default (sicl icil : list Z)
    (names : option (list string)) (map_to_semantic0 : bool) :
  (forall l s, names = Some l -> In s sicl ->
               0 <= s < Z.of_nat (length l)) ->
  _get_channel_labels sicl icil names map_to_semantic0
    default_sem_inst_format
  = Ok (map (fun '(s, i) => channel_label names map_to_semantic0 s i)
            (combine sicl icil)).
Proof.
  intros Hnames. unfold _get_channel_labels.
  set (lab := fun s => match names with
                       | None => ArgInt s
                       | Some l => ArgStr (nth (Z.to_nat s) l ""%string)
                       end).
  assert (Hlab : match names with
                 | None => Ok (map ArgInt sicl)
                 | Some l =>
                     map_result
                       (fun c => name <- py_getitem l c ;; Ok (ArgStr name))
                       sicl
                 end = Ok (map lab sicl)).
  { subst lab. destruct names as [l|]; [|reflexivity].
    apply map_result_ok. intros c Hc.
    destruct (Hnames l c eq_refl Hc) as [H0 H1].
    rewrite <- (Z2Nat.id c) at 1 by lia.
    rewrite (@py_getitem_nat _ l (Z.to_nat c) (nth (Z.to_nat c) l ""%string));
      [reflexivity|].
    apply nth_error_nth'. lia. }
  rewrite Hlab. cbn [bind]. rewrite combine_map_l.
  destruct map_to_semantic0.
  - rewrite (@map_result_ok _ _ _
               (fun p : format_arg * Z =>
                  (py_str (fst p) ++ "_" ++ "")%string)).
    + rewrite map_map. f_equal. apply map_ext. intros [s i]. reflexivity.
    + intros [a i] _. reflexivity.
  - rewrite (@map_result_ok _ _ _
               (fun p : format_arg * Z =>
                  (py_str (fst p) ++ "_" ++ py_str (ArgInt (snd p)))%string)).
    + rewrite map_map. f_equal. apply map_ext. intros [s i]. reflexivity.
    + intros [a i] _. reflexivity.
Qed.

Lemma channel_label_inj (names : option (list string))
    (map_to_semantic0 : bool) (s i s' i' : Z) :
  0 <= s -> 0 <= s' ->
  (forall l, names = Some l ->
             NoDup l /\ s < Z.of_nat (length l) /\ s' < Z.of_nat (length l)) ->
  channel_label names map_to_semantic0 s i
  = channel_label names map_to_semantic0 s' i' ->
  s = s' /\ (map_to_semantic0 = false -> i = i').
Proof.
  intros Hs Hs' Hnames E. unfold channel_label in E.
  change (fun a : string => ("_" ++ a)%string) with (String underscore) in E.
  cbn [String.append] in E.
  apply append_sep_inj in E.
  2,3: destruct map_to_semantic0;
       [reflexivity|apply has_underscore_py_str_int].
  destruct E as [Ea Eb]. split.
  - destruct names as [l|].
    + destruct (Hnames l eq_refl) as (Hnd & H1 & H2).
      cbn [py_str] in Ea.
      assert (Z.to_nat s = Z.to_nat s'); [|lia].
      apply (proj1 (NoDup_nth l ""%string) Hnd); [lia|lia|exact Ea].
    + now apply py_str_int_inj.
  - intros ->. now apply py_str_int_inj.
Qed.

Lemma combine_functional {A B} (l : list A) (l' : list B) (a : A) (b b' : B) :
  NoDup l -> In (a, b) (combine l l') -> In (a, b') (combine l l') -> b = b'.
Proof.
  intros Hnd H1 H2.
  apply In_nth_error in H1, H2. destruct H1 as [k Hk], H2 as [k' Hk'].
  rewrite nth_error_combine in Hk, Hk'.
  destruct (nth_error l k) as [x|] eqn:Ex; [|discriminate].
  destruct (nth_error l' k) as [y|] eqn:Ey; [|discriminate].
  destruct (nth_error l k') as [x'|] eqn:Ex'; [|discriminate].
  destruct (nth_error l' k') as [y'|] eqn:Ey'; [|discriminate].
  inversion Hk; inversion Hk'; subst.
  assert (k = k').
  { apply (proj1 (NoDup_nth_error l) Hnd); [|congruence].
    apply nth_error_Some. congruence. }
  subst k'. congruence.
Qed.

Lemma NoDup_py_range (k : nat) : NoDup (py_range k).
Proof.
  unfold py_range. apply NoDup_map_NoDup_ForallPairs; [|apply seq_NoDup].
  intros a b _ _ H. lia.
Qed.

(** X20.  On a configuration the constructor returned, with no class names
    or with one name for each count, [get_channel_labels] with the default
    format returns one label for each channel, the label of a channel being
    the name (or number) of its class, an underscore and, unless the problem
    is mapped to a semantic one, its instance id; and the labels are
    pairwise distinct when the names are. *)
Theorem X20_default_channel_labels (n : list Z)
    (names : option (list string)) (vals : option (list Z)) (void : Z)
    (include_channel0 map_to_semantic0 : bool) (cfg : InstanceProblemConfig) :
  InstanceProblemConfig_init n names vals void include_channel0
    map_to_semantic0 = Ok cfg ->
  (forall l, names = Some l -> length l = length n) ->
  exists labels,
    get_channel_labels cfg default_sem_inst_format = Ok labels /\
    length labels = n_classes cfg /\
    (forall c s i,
       owns (semantic_instance_class_list cfg)
            (instance_count_id_list cfg) c s i ->
       nth_error labels c
       = Some (channel_label names map_to_semantic0 s i)) /\
    ((forall l, names = Some l -> NoDup l) -> NoDup labels).
Proof.
  intros Hcfg Hlen.
  destruct (InstanceProblemConfig_init_inv _ _ _ _ _ _ Hcfg)
    as (_ & Hnc & Hs & _ & _ & Hi & _).
  destruct (InstanceProblemConfig_init_fields _ _ _ _ _ _ Hcfg)
    as (Hm2s & Hnames & _).
  cbv zeta in Hnc, Hs, Hi.
  set (n1 := if map_to_semantic0 then map (fun _ : Z => 1) n else n) in *.
  assert (Hn1 : length n1 = length n).
  { subst n1. destruct map_to_semantic0; [apply length_map|reflexivity]. }
  destruct (get_instance_count_id_list_slots _ _ _ Hi) as [Hl _].
  pose proof (layout_pairs_distinct _ _ _ Hi) as Hnd.
  rewrite <- Hs in Hl, Hnd.
  assert (Hin : forall s, In s (semantic_instance_class_list cfg) ->
                          0 <= s < Z.of_nat (length n)).
  { intros s H. rewrite Hs in H.
    apply in_get_semantic_instance_class_list in H. lia. }
  eexists. split; [|split; [|split]].
  - unfold get_channel_labels. rewrite Hm2s, Hnames.
    apply get_channel_labels_default.
    intros l s -> H. rewrite (Hlen l eq_refl). now apply Hin.
  - rewrite length_map, length_combine, Hl, Nat.min_id, Hs, Hnc.
    apply length_get_semantic_instance_class_list.
  - intros c s i [Hsc Hic].
    rewrite nth_error_map, nth_error_combine, Hsc, Hic. reflexivity.
  - intros Hnn. apply NoDup_map_NoDup_ForallPairs; [|exact Hnd].
    intros [s i] [s' i'] H1 H2 E.
    pose proof (Hin s (in_combine_l _ _ _ _ H1)) as Hs1.
    pose proof (Hin s' (in_combine_l _ _ _ _ H2)) as Hs2.
    apply channel_label_inj in E; try lia.
    2:{ intros l ->. rewrite (Hlen l eq_refl).
        split; [now apply Hnn|lia]. }
    destruct E as [<- Ei]. f_equal.
    destruct map_to_semantic0; [|now apply Ei].
    apply (@combine_functional _ _ (semantic_instance_class_list cfg)
             (instance_count_id_list cfg) s i i'); [|assumption|assumption].
    rewrite Hs. subst n1. rewrite get_semantic_instance_class_list_ones.
    apply NoDup_py_range.
Qed.

Lemma X20_default_channel_labels_witness :
  exists labels,
    get_channel_labels example_config default_sem_inst_format = Ok labels /\
    length labels = n_classes example_config /\
    (forall c s i,
       owns (semantic_instance_class_list example_config)
            (instance_count_id_list example_config) c s i ->
       nth_error labels c = Some (channel_label None false s i)) /\
    ((forall l, @None (list string) = Some l -> NoDup l) -> NoDup labels).
Proof.
  apply (@X20_default_channel_labels [1; 2; 2] None None default_void_value
           false false example_config).
  - reflexivity.
  - discriminate.
Defined.

Example channel_labels_example :
  get_channel_labels example_config default_sem_inst_format
  = Ok ["0_0"; "1_1"; "1_2"; "2_1"; "2_2"]%string /\
  match InstanceProblemConfig_init [1; 2; 2]
          (Some ["background"; "person"; "car"]%string) None
          default_void_value false true with
  | Ok cfg =>
      get_channel_labels cfg default_sem_inst_format
      = Ok ["background_"; "person_"; "car_"]%string /\
      get_model_channel_labels cfg default_sem_inst_format
      = Ok ["background_0"; "person_1"; "person_2"; "car_1"; "car_2"]%string
  | Raise _ => False
  end.
Proof. vm_compute. repeat split. Qed.

Lemma map_result_raises {A B} (f : A -> result B) (l : list A) (e : exn)
    (x : A) :
  (forall y, In y l -> f y = Raise e \/ exists b, f y = Ok b) ->
  In x l -> f x = Raise e -> map_result f l = Raise e.
Proof.
  induction l as [|y l IH]; intros Hall Hin Hx; [destruct Hin|].
  cbn [map_result].
  destruct (Hall y (or_introl eq_refl)) as [E|[b E]]; rewrite E; cbn [bind];
    [reflexivity|].
  destruct Hin as [->|Hin]; [congruence|].
  rewrite IH; auto. intros z Hz. apply Hall. now right.
Qed.

(** X21.  The constructor does not compare the class names with the counts:
    a configuration built with fewer names than the largest class that has a
    channel is returned, and [get_channel_labels] then raises [IndexError],
    whatever the format. *)
Theorem X21_short_class_names_raise_index_error (n : list Z)
    (names : list string) (vals : option (list Z)) (void : Z)
    (include_channel0 map_to_semantic0 : bool) (cfg : InstanceProblemConfig)
    (sem_inst_format : format_arg -> format_arg -> result string) (s : Z) :
  InstanceProblemConfig_init n (Some names) vals void include_channel0
    map_to_semantic0 = Ok cfg ->
  In s (semantic_instance_class_list cfg) ->
  Z.of_nat (length names) <= s ->
  get_channel_labels cfg sem_inst_format = Raise IndexError.
Proof.
  intros Hcfg Hin Hshort.
  destruct (InstanceProblemConfig_init_fields _ _ _ _ _ _ Hcfg)
    as (_ & Hnames & _).
  unfold get_channel_labels, _get_channel_labels. rewrite Hnames.
  rewrite (@map_result_raises _ _ _ (semantic_instance_class_list cfg)
             IndexError s); [reflexivity| |exact Hin|].
  - intros c _. unfold py_getitem.
    destruct ((0 <=? _) && (_ <? _)); cbn [bind].
    + destruct (nth_error names _) as [x|]; cbn [bind]; eauto.
    + now left.
  - rewrite <- (Z2Nat.id s) by lia.
    rewrite py_getitem_out_of_range by lia. reflexivity.
Qed.

Lemma X21_short_class_names_raise_index_error_witness :
  exists cfg,
    InstanceProblemConfig_init [1; 2] (Some ["background"]%string) None
      default_void_value false false = Ok cfg /\
    get_channel_labels cfg default_sem_inst_format = Raise IndexError.
Proof.
  eexists. split; [vm_compute; reflexivity|].
  apply (@X21_short_class_names_raise_index_error [1; 2]
           ["background"]%string None default_void_value false false _
           default_sem_inst_format 1).
  - vm_compute. reflexivity.
  - vm_compute. tauto.
  - vm_compute. discriminate.
Defined.

(** ** [TrainerExporter.compute_eval_metrics] *)

(** After any rows over the channels, a last row that is a bijection decides
    the result of [permute_labels]. *)
Lemma permute_labels_last_row (n_channels : nat) (label_preds : ndarray)
    (rows rows' : list (list Z)) (p : list Z) :
  (forall row, In row rows ->
     Forall (fun x => 0 <= x < Z.of_nat n_channels) row) ->
  (forall row, In row rows' ->
     Forall (fun x => 0 <= x < Z.of_nat n_channels) row) ->
  bijection_row n_channels p ->
  permute_labels label_preds (rows ++ [p])
  = permute_labels label_preds (rows' ++ [p]).
Proof.
  intros Hrows Hrows' Hbij. apply permute_labels_ext; try reflexivity.
  intros k v Hv. exists v. split; [exact Hv|].
  rewrite !relabel_app.
  destruct (relabel_row_bijection v (relabel rows v) Hbij)
    as [(Hin & n & Hn & E)|(Hout & E)]; rewrite E.
  - destruct (relabel_row_bijection v (relabel rows' v) Hbij)
      as [(_ & n' & Hn' & E')|(Hout' & _)]; [|contradiction].
    rewrite E'. destruct Hbij as (_ & Hnd & _).
    f_equal. apply (proj1 (NoDup_nth_error p) Hnd); [|congruence].
    apply nth_error_Some. congruence.
  - destruct (relabel_row_bijection v (relabel rows' v) Hbij)
      as [(Hin' & _)|(_ & E')]; [contradiction|].
    rewrite E'.
    assert (Hkeep : forall rs,
               (forall row, In row rs ->
                  Forall (fun x => 0 <= x < Z.of_nat n_channels) row) ->
               relabel rs v = v).
    { intros rs Hrs. apply relabel_other.
      intros row Hrow Hin. specialize (Hrs row Hrow).
      rewrite Forall_forall in Hrs. apply Hout. now apply Hrs. }
    now rewrite (Hkeep rows Hrows), (Hkeep rows' Hrows').
Qed.

(** X22.  [compute_eval_metrics] pairs the k-th prediction with the k-th
    permutation array and scores no prediction beyond the shorter of the two
    lists, while all of [label_trues] is handed on; and of a permutation
    array whose rows range over the channels and whose last row is a
    bijection, only the last row counts: the k-th prediction is scored as
    relabelled by the last row of the k-th array. *)
Theorem X22_eval_metrics_pair_predictions_with_arrays (metrics : Type)
    (label_accuracy_score :
       list ndarray -> list ndarray -> nat -> result metrics)
    (cfg : InstanceProblemConfig) (n_channels : nat)
    (label_trues label_preds : list ndarray)
    (permutations : list (list (list Z))) :
  Forall (fun perms =>
            exists rows p,
              perms = rows ++ [p] /\
              (forall row, In row rows ->
                 Forall (fun x => 0 <= x < Z.of_nat n_channels) row) /\
              bijection_row n_channels p) permutations ->
  exists label_preds_permuted,
    compute_eval_metrics label_accuracy_score cfg label_trues label_preds
      (Some permutations)
    = label_accuracy_score label_trues label_preds_permuted (n_classes cfg) /\
    length label_preds_permuted
    = Nat.min (length label_preds) (length permutations) /\
    forall k label_pred perms,
      nth_error label_preds k = Some label_pred ->
      nth_error permutations k = Some perms ->
      nth_error label_preds_permuted k
      = Some (permute_labels label_pred [last perms []]).
Proof.
  intros Hperms. rewrite Forall_forall in Hperms.
  eexists. split; [reflexivity|]. split.
  - now rewrite length_map, length_combine.
  - intros k lp perms Hlp Hp.
    rewrite nth_error_map, nth_error_combine, Hlp, Hp. cbn [option_map].
    f_equal.
    destruct (Hperms perms (nth_error_In _ _ Hp)) as (rows & p & -> & Hr & Hb).
    rewrite last_last.
    apply (@permute_labels_last_row n_channels lp rows [] p Hr);
      [intros row []|exact Hb].
Qed.

Lemma X22_eval_metrics_pair_predictions_with_arrays_witness :
  exists label_preds_permuted,
    compute_eval_metrics (fun _ preds _ => Ok preds) example_config
      [example_argmax_batch2]
      [example_argmax_batch2; example_argmax_batch2]
      (Some [[[0; 1]; [1; 0]]])
    = Ok label_preds_permuted /\
    length label_preds_permuted = Nat.min 2 1 /\
    forall k label_pred perms,
      nth_error [example_argmax_batch2; example_argmax_batch2] k
      = Some label_pred ->
      nth_error [[[0; 1]; [1; 0]]] k = Some perms ->
      nth_error label_preds_permuted k
      = Some (permute_labels label_pred [last perms []]).
Proof.
  apply (@X22_eval_metrics_pair_predictions_with_arrays (list ndarray)
           (fun _ preds _ => Ok preds) example_config 2
           [example_argmax_batch2]
           [example_argmax_batch2; example_argmax_batch2]
           [[[0; 1]; [1; 0]]]).
  repeat constructor. exists [[0; 1]], [1; 0].
  split; [reflexivity|]. split.
  - intros row [<-|[]]. repeat constructor; lia.
  - split; [reflexivity|]. split; [|repeat constructor; lia].
    repeat constructor; simpl; intuition discriminate.
Defined.

(** X23.  After a call of [set_class_names] that returned, on a
    configuration the constructor returned with whatever names,
    [get_channel_labels] and [get_model_channel_labels] return with the
    default format, with one label for each channel of the problem and of
    the model: the setter's assertion is what keeps the lookup of the names
    in range. *)
Theorem X23_set_class_names_makes_labels_safe (n : list Z)
    (names : option (list string)) (vals : option (list Z)) (void : Z)
    (include_channel0 map_to_semantic0 : bool) (cfg : InstanceProblemConfig)
    (class_names : option (list string)) :
  InstanceProblemConfig_init n names vals void include_channel0
    map_to_semantic0 = Ok cfg ->
  snd (set_class_names class_names cfg) = Ok tt ->
  exists labels model_labels,
    get_channel_labels (fst (set_class_names class_names cfg))
      default_sem_inst_format = Ok labels /\
    length labels = n_classes cfg /\
    get_model_channel_labels (fst (set_class_names class_names cfg))
      default_sem_inst_format = Ok model_labels /\
    length model_labels = length (model_semantic_instance_class_list cfg).
Proof.
  intros Hcfg Hset.
  destruct (InstanceProblemConfig_init_inv _ _ _ _ _ _ Hcfg)
    as (Hns & Hnc & Hs & Hms & _ & Hi & Hm).
  cbv zeta in Hnc, Hs, Hi.
  set (n1 := if map_to_semantic0 then map (fun _ : Z => 1) n else n) in *.
  assert (Hn1 : length n1 = length n).
  { subst n1. destruct map_to_semantic0; [apply length_map|reflexivity]. }
  destruct (get_instance_count_id_list_slots _ _ _ Hi) as [Hl _].
  destruct (get_instance_count_id_list_slots _ _ _ Hm) as [Hlm _].
  unfold set_class_names in *.
  destruct (match class_names with
            | Some l => Nat.eqb (length l) (n_semantic_classes cfg)
            | None => true
            end) eqn:Ea; [|discriminate].
  cbn [fst]. unfold get_channel_labels, get_model_channel_labels.
  cbn [semantic_instance_class_list instance_count_id_list
       semantic_class_names map_to_semantic
       model_semantic_instance_class_list model_instance_count_id_list].
  assert (Hnames : forall l, class_names = Some l -> length l = length n).
  { intros l ->. apply Nat.eqb_eq in Ea. congruence. }
  rewrite !get_channel_labels_default.
  - eexists. eexists. repeat split.
    + rewrite length_map, length_combine, Hs, Hl, Nat.min_id, Hnc.
      apply length_get_semantic_instance_class_list.
    + rewrite length_map, length_combine, Hms, Hlm, Nat.min_id. reflexivity.
  - intros l s El H. rewrite (Hnames l El). rewrite Hms in H.
    now apply in_get_semantic_instance_class_list.
  - intros l s El H. rewrite (Hnames l El). rewrite Hs in H.
    apply in_get_semantic_instance_class_list in H. lia.
Qed.

Lemma X23_set_class_names_makes_labels_safe_witness :
  exists labels model_labels,
    get_channel_labels
      (fst (set_class_names (Some ["background"; "person"]%string)
              example_config_one_name))
      default_sem_inst_format = Ok labels /\
    length labels = n_classes example_config_one_name /\
    get_model_channel_labels
      (fst (set_class_names (Some ["background"; "person"]%string)
              example_config_one_name))
      default_sem_inst_format = Ok model_labels /\
    length model_labels
    = length (model_semantic_instance_class_list example_config_one_name).
Proof.
  apply (@X23_set_class_names_makes_labels_safe [1; 2]
           (Some ["background"]%string) None default_void_value false
           false example_config_one_name
           (Some ["background"; "person"]%string)); reflexivity.
Defined.

(** ** The numbering of the iterations, whatever the collaborators do *)

Section TrainLoopAlways.
Variables batch float metrics : Type.
Variable validate_split_call :
  string -> TrainingState -> result (float * metrics).
Variable train_iteration_call : TrainingState -> batch -> result unit.
Variable int_to_float : Z -> result float.
Variable ceil_quotient : float -> Z -> result Z.
Variable self : LoopTrainer batch.

Local Abbreviation L := (Z.of_nat (len_train_loader self)).
Local Abbreviation batches_loop :=
  (train_batches validate_split_call train_iteration_call self).
Local Abbreviation all_splits :=
  (validate_all_splits validate_split_call self).

(** The validation trains on nothing and leaves the state alone, also when
    it raises. *)
Lemma validate_split_quiet (split : string) (st : TrainingState) :
  exists r,
    validate_split batch validate_split_call split st
    = ([EvValidateSplit batch float split (st_epoch st) (st_iteration st)],
       st, r).
Proof.
  unfold validate_split, loop_bind, get_state, call.
  destruct (validate_split_call split st); eexists; reflexivity.
Qed.

Lemma validate_all_splits_quiet (st : TrainingState) :
  exists evs r, all_splits st = (evs, st, r) /\ trained evs = [].
Proof.
  unfold validate_all_splits.
  destruct (validate_split_quiet "val" st) as [[[vl vm]|e] Ev];
    unfold loop_bind at 1; rewrite Ev.
  2:{ eexists; eexists; split; reflexivity. }
  destruct (has_train_loader_for_val self).
  - destruct (validate_split_quiet "train" st) as [[[tl tm]|e] Et];
      unfold loop_bind at 1; unfold loop_bind at 1; rewrite Et.
    2:{ eexists; eexists; split; reflexivity. }
    unfold loop_bind, loop_ret, get_state, loop_emit, loop_raise.
    destruct (has_tensorboard_writer self); cbn;
      eexists; eexists; split; reflexivity.
  - unfold loop_bind, loop_ret, get_state, loop_emit, loop_raise.
    destruct (has_tensorboard_writer self); cbn;
      eexists; eexists; split; reflexivity.
Qed.

Lemma maybe_validate_quiet (c : bool) (st : TrainingState) :
  exists evs r,
    (if c then loop_bind all_splits (fun _ => loop_ret batch float tt)
     else loop_ret batch float tt) st = (evs, st, r) /\
    trained evs = [].
Proof.
  destruct c; [|eexists; eexists; split; reflexivity].
  destruct (validate_all_splits_quiet st) as (evs & [a|e] & E & Ht);
    unfold loop_bind; rewrite E.
  - exists (evs ++ []), (Returned tt). split; [reflexivity|].
    now rewrite app_nil_r.
  - eexists; eexists; split; [reflexivity|exact Ht].
Qed.
Lemma train_iteration_of_batch_quiet (batch_idx : nat) (b : batch)
    (st : TrainingState) :
  exists r,
    train_iteration_of_batch float train_iteration_call batch_idx b st
    = ([EvTrainIteration float batch_idx b (st_epoch st) (st_iteration st)],
       st, r).
Proof.
  unfold train_iteration_of_batch, loop_bind, get_state, call.
  destruct (train_iteration_call st b); eexists; reflexivity.
Qed.

(** The batches from index [j] on, entered with a state that lets batch [j]
    pass: however the run ends, the iterations trained on are consecutive
    from that of batch [j]. *)
Lemma train_batches_any (bs : list batch) :
  forall (j : nat) (st : TrainingState),
    st_iteration st = 0
    \/ st_iteration st = Z.of_nat j + st_epoch st * L - 1 ->
    exists evs st' r stop,
      batches_loop (combine (seq j (length bs)) bs) st = (evs, st', r) /\
      Z.of_nat j + st_epoch st * L <= stop
      <= Z.of_nat j + st_epoch st * L + Z.of_nat (length bs) /\
      trained evs = py_range_from (Z.of_nat j + st_epoch st * L) stop /\
      (r = Returned tt ->
       st_epoch st' = st_epoch st /\
       st_max_iteration st' = st_max_iteration st /\
       st_iteration st'
       = (if Z.of_nat j + st_epoch st * L <? stop then stop - 1
          else st_iteration st) /\
       (stop = Z.of_nat j + st_epoch st * L + Z.of_nat (length bs)
        \/ training_complete st' = true)).
Proof.
  induction bs as [|b bs IH]; intros j st Hpass.
  - exists [], st, (Returned tt), (Z.of_nat j + st_epoch st * L).
    cbn [length seq combine train_batches].
    split; [reflexivity|]. split; [lia|].
    rewrite py_range_from_nil by lia. rewrite Z.ltb_irrefl.
    split; [reflexivity|]. intros _. repeat split. left. lia.
  - cbn [length seq combine train_batches].
    set (base := Z.of_nat j + st_epoch st * L).
    set (st1 := {| st_iteration := base; st_epoch := st_epoch st;
                   st_max_iteration := st_max_iteration st |}).
    unfold loop_bind at 1. unfold get_state at 1.
    fold base. fold base in Hpass.
    replace (negb (st_iteration st =? 0)
             && negb (base - 1 =? st_iteration st)) with false.
    2:{ symmetry. destruct Hpass as [H|H].
        - rewrite H. reflexivity.
        - rewrite H, Z.eqb_refl, andb_false_r. reflexivity. }
    fold st1. unfold loop_bind at 1. unfold put_state at 1.
    unfold loop_bind at 1. unfold loop_lift at 1. unfold py_mod.
    destruct (interval_validate self =? 0).
    { exists [], st1, (Raised ZeroDivisionError), base.
      split; [reflexivity|]. split; [lia|].
      rewrite py_range_from_nil by lia.
      split; [reflexivity|discriminate]. }
    unfold loop_bind at 1.
    destruct (maybe_validate_quiet
                (base mod interval_validate self =? 0) st1)
      as (evs1 & r1 & E1 & Ht1).
    rewrite E1. destruct r1 as [[]|e1].
    2:{ exists evs1, st1, (Raised e1), base.
        split; [reflexivity|]. split; [lia|].
        rewrite py_range_from_nil by lia.
        split; [exact Ht1|discriminate]. }
    unfold loop_bind at 1.
    destruct (train_iteration_of_batch_quiet j b st1) as (r2 & E2).
    rewrite E2. cbn [st1 st_epoch st_iteration]. fold st1.
    destruct r2 as [[]|e2].
    2:{ exists (evs1 ++ [EvTrainIteration float j b (st_epoch st) base]),
               st1, (Raised e2), (base + 1).
        split; [cbn [app]; rewrite ?app_nil_r; reflexivity|].
        split; [lia|]. rewrite trained_app, Ht1.
        rewrite (@py_range_from_cons base (base + 1)) by lia.
        rewrite py_range_from_nil by lia.
        split; [reflexivity|discriminate]. }
    unfold loop_bind at 1. unfold get_state at 1.
    destruct (training_complete st1) eqn:Hc.
    + destruct (maybe_validate_quiet true st1) as (evs3 & r3 & E3 & Ht3).
      rewrite E3.
      exists (evs1 ++ [EvTrainIteration float j b (st_epoch st) base] ++ evs3),
             st1, r3, (base + 1).
      split; [cbn [app]; reflexivity|]. split; [lia|].
      rewrite !trained_app, Ht1, Ht3.
      rewrite (@py_range_from_cons base (base + 1)) by lia.
      rewrite py_range_from_nil by lia.
      split; [reflexivity|]. intros _.
      replace (base <? base + 1) with true by (symmetry; apply Z.ltb_lt; lia).
      cbn [st1 st_epoch st_max_iteration st_iteration].
      repeat split; [lia|]. right. exact Hc.
    + destruct (IH (Datatypes.S j) st1) as (evs' & st' & r' & stop & E' & Hb & Ht' & Hr).
      { right. cbn [st1 st_iteration st_epoch]. subst base. lia. }
      cbn [st1 st_epoch st_iteration st_max_iteration] in Hb, Ht', Hr.
      replace (Z.of_nat (Datatypes.S j) + st_epoch st * L) with (base + 1)
        in Hb, Ht', Hr by (subst base; lia).
      rewrite E'.
      exists (evs1 ++ [EvTrainIteration float j b (st_epoch st) base] ++ evs'),
             st', r', stop.
      split; [cbn [app]; reflexivity|]. split; [lia|].
      rewrite !trained_app, Ht1, Ht'.
      rewrite (@py_range_from_cons base stop) by lia.
      split; [reflexivity|]. intros Hret.
      destruct (Hr Hret) as (He & Hm & Hi & Hend).
      replace (base <? stop) with true by (symmetry; apply Z.ltb_lt; lia).
      repeat split; try assumption.
      * rewrite Hi. destruct (Z.ltb_spec (base + 1) stop); [reflexivity|lia].
      * destruct Hend as [->|Hend]; [left; lia|now right].
Qed.
Lemma quiet_bind_cases {A B : Type} (q : loop batch float A)
    (k : A -> loop batch float B) (st : TrainingState) :
  quiet q ->
  exists evs0,
    trained evs0 = [] /\
    ((exists e, loop_bind q k st = (evs0, st, Raised e))
     \/ (exists a, loop_bind q k st
                   = let '(evs', st', r) := k a st in (evs0 ++ evs', st', r))).
Proof.
  intros Hq. destruct (Hq st) as (evs0 & [a|e] & E & Ht).
  - exists evs0. split; [exact Ht|]. right. exists a.
    unfold loop_bind. rewrite E. reflexivity.
  - exists evs0. split; [exact Ht|]. left. exists e.
    unfold loop_bind. rewrite E. reflexivity.
Qed.

Lemma quiet_lr_scheduler :
  quiet (if has_lr_scheduler self
         then loop_bind (validate_split batch validate_split_call "val")
                (fun x => let '(val_loss, _) := x in
                   loop_bind (get_state batch float)
                     (fun st0 => loop_emit
                        (EvLrSchedulerStep batch val_loss (st_epoch st0))))
         else loop_ret batch float tt).
Proof.
  intros st. destruct (has_lr_scheduler self);
    [|eexists; eexists; split; reflexivity].
  destruct (validate_split_quiet "val" st) as [[[vl vm]|e] Ev];
    unfold loop_bind at 1; rewrite Ev;
    eexists; eexists; split; reflexivity.
Qed.

Lemma quiet_synthetic_data :
  quiet (if generate_new_synthetic_data_each_epoch self
         then loop_bind
                (loop_emit (EvInitializeLocations batch float "train_loader"))
                (fun _ =>
                   if has_train_loader_for_val self
                   then loop_emit (EvInitializeLocations batch float
                                     "train_loader_for_val")
                   else loop_raise batch float AttributeError)
         else loop_ret batch float tt).
Proof.
  intros st. destruct (generate_new_synthetic_data_each_epoch self);
    [|eexists; eexists; split; reflexivity].
  destruct (has_train_loader_for_val self);
    eexists; eexists; split; reflexivity.
Qed.

(** One epoch entered with a state that lets its first batch pass. *)
Lemma train_epoch_any (st : TrainingState) :
  st_iteration st = 0 \/ st_iteration st = st_epoch st * L - 1 ->
  exists evs st' r stop,
    train_epoch validate_split_call train_iteration_call self st
    = (evs, st', r) /\
    st_epoch st * L <= stop <= st_epoch st * L + L /\
    trained evs = py_range_from (st_epoch st * L) stop /\
    (r = Returned tt ->
     st_max_iteration st' = st_max_iteration st /\
     st_iteration st'
     = (if st_epoch st * L <? stop then stop - 1 else st_iteration st) /\
     (stop = st_epoch st * L + L \/ training_complete st' = true)).
Proof.
  intros Hpass.
  assert (Hstop : forall evs0 e,
             trained evs0 = [] ->
             exists (evs : list (loop_event batch float)) (st' : TrainingState)
                    (r : ran unit) (stop : Z),
               (evs0, st, @Raised unit e) = (evs, st', r) /\
               st_epoch st * L <= stop <= st_epoch st * L + L /\
               trained evs = py_range_from (st_epoch st * L) stop /\
               (r = Returned tt ->
                st_max_iteration st' = st_max_iteration st /\
                st_iteration st'
                = (if st_epoch st * L <? stop then stop - 1
                   else st_iteration st) /\
                (stop = st_epoch st * L + L
                 \/ training_complete st' = true))).
  { intros evs0 e Ht. exists evs0, st, (Raised e), (st_epoch st * L).
    split; [reflexivity|]. split; [lia|].
    rewrite py_range_from_nil by lia. split; [exact Ht|discriminate]. }
  unfold train_epoch.
  unfold loop_bind at 1. unfold loop_emit at 1.
  destruct (quiet_bind_cases
              (fun _ : unit =>
                 loop_bind
                   (if generate_new_synthetic_data_each_epoch self
                    then loop_bind
                           (loop_emit (EvInitializeLocations batch float
                                         "train_loader"))
                           (fun _ =>
                              if has_train_loader_for_val self
                              then loop_emit
                                     (EvInitializeLocations batch float
                                        "train_loader_for_val")
                              else loop_raise batch float AttributeError)
                    else loop_ret batch float tt)
                   (fun _ : unit =>
                      loop_bind (get_state batch float)
                        (fun st0 =>
                           batches_loop
                             (enumerate (train_loader self (st_epoch st0))))))
              st quiet_lr_scheduler)
    as (evs1 & Ht1 & [[e E]|[a E]]); rewrite E; clear E.
  { destruct (Hstop evs1 e Ht1) as (evs & st' & r & stop & Eq & H).
    inversion Eq; subst. eexists; eexists; eexists; exists stop.
    split; [reflexivity|]. cbn [app trained flat_map]. exact H. }
  destruct (quiet_bind_cases
              (fun _ : unit =>
                 loop_bind (get_state batch float)
                   (fun st0 =>
                      batches_loop
                        (enumerate (train_loader self (st_epoch st0)))))
              st quiet_synthetic_data)
    as (evs2 & Ht2 & [[e E]|[a' E]]); rewrite E; clear E.
  { destruct (Hstop (evs1 ++ evs2) e) as (evs & st' & r & stop & Eq & H).
    { now rewrite trained_app, Ht1, Ht2. }
    inversion Eq; subst. eexists; eexists; eexists; exists stop.
    split; [reflexivity|]. cbn [app trained flat_map]. exact H. }
  unfold loop_bind at 1. unfold get_state at 1.
  destruct (@train_batches_any (train_loader self (st_epoch st)) 0%nat st)
    as (evs & st' & r & stop & E & Hb & Ht & Hr).
  { cbn [Z.of_nat]. lia. }
  rewrite (length_train_loader self) in Hb, Hr.
  change (Z.of_nat 0 + st_epoch st * L) with (st_epoch st * L) in Hb, Ht, Hr.
  unfold enumerate. rewrite E.
  exists ([EvModelTrain batch float] ++ evs1 ++ evs2 ++ [] ++ evs), st', r, stop.
  split; [reflexivity|]. split; [exact Hb|]. split.
  - rewrite !trained_app, Ht1, Ht2, Ht. reflexivity.
  - intros Hret. destruct (Hr Hret) as (_ & Hm & Hi & Hend). auto.
Qed.
Lemma train_epochs_any :
  (0 < len_train_loader self)%nat ->
  forall (n : nat) (e0 : Z) (st : TrainingState),
    st_iteration st = 0 \/ st_iteration st = e0 * L - 1 ->
    exists evs st' r stop,
      train_epochs validate_split_call train_iteration_call self
        (py_range_from e0 (e0 + Z.of_nat n)) st = (evs, st', r) /\
      e0 * L <= stop /\
      trained evs = py_range_from (e0 * L) stop.
Proof.
  intros HL. induction n as [|n IH]; intros e0 st Hpass.
  - exists [], st, (Returned tt), (e0 * L).
    replace (e0 + Z.of_nat 0) with e0 by lia.
    rewrite (@py_range_from_nil e0 e0) by lia.
    rewrite py_range_from_nil by lia.
    split; [reflexivity|]. split; [lia|reflexivity].
  - rewrite (@py_range_from_cons e0 (e0 + Z.of_nat (Datatypes.S n))) by lia.
    replace (e0 + Z.of_nat (Datatypes.S n)) with (e0 + 1 + Z.of_nat n) by lia.
    cbn [train_epochs]. unfold loop_bind at 1. unfold get_state at 1.
    unfold loop_bind at 1. unfold put_state at 1.
    set (st0 := {| st_iteration := st_iteration st; st_epoch := e0;
                   st_max_iteration := st_max_iteration st |}).
    destruct (@train_epoch_any st0 Hpass)
      as (evs1 & st1 & r1 & stop1 & E1 & Hb1 & Ht1 & Hr1).
    cbn [st0 st_epoch st_iteration st_max_iteration] in Hb1, Ht1, Hr1.
    unfold loop_bind at 1. rewrite E1.
    destruct r1 as [[]|e1].
    2:{ exists ([] ++ [] ++ evs1), st1, (Raised e1), stop1.
        split; [reflexivity|]. split; [lia|exact Ht1]. }
    destruct (Hr1 eq_refl) as (Hm1 & Hi1 & Hend1).
    unfold loop_bind at 1. unfold get_state at 1.
    destruct (training_complete st1) eqn:Hc.
    + exists ([] ++ [] ++ evs1 ++ [] ++ []), st1, (Returned tt), stop1.
      split; [reflexivity|]. split; [lia|].
      cbn [app]. rewrite app_nil_r. exact Ht1.
    + destruct Hend1 as [Hs1|Hs1]; [|discriminate].
      assert (Hlt : e0 * L < stop1) by lia.
      rewrite (proj2 (Z.ltb_lt _ _) Hlt) in Hi1.
      destruct (IH (e0 + 1) st1) as (evs2 & st2 & r2 & stop2 & E2 & Hb2 & Ht2).
      { right. lia. }
      rewrite E2.
      exists ([] ++ [] ++ evs1 ++ [] ++ evs2), st2, r2, stop2.
      split; [reflexivity|]. split; [lia|].
      cbn [app]. rewrite trained_app, Ht1, Ht2.
      replace ((e0 + 1) * L) with stop1 by lia.
      symmetry. apply py_range_from_app; lia.
Qed.

Local Abbreviation train_loop :=
  (train validate_split_call train_iteration_call int_to_float ceil_quotient
         self).

(** X24.  Whatever the collaborators do, whether they return or raise, and
    whatever the attributes of the trainer: the training iterations that a
    run of [train] from a fresh state has started are numbered 0, 1, 2, ...
    in this order, none skipped and none repeated. *)
Theorem X24_train_never_skips_or_repeats_an_iteration (max_iteration : Z) :
  exists k,
    0 <= k /\
    trained (fst (fst (train_loop (TrainingState_init max_iteration))))
    = py_range_from 0 k.
Proof.
  unfold train, TrainingState_init.
  unfold loop_bind at 1. unfold get_state at 1.
  unfold loop_bind at 1. unfold call_free at 1.
  cbn [st_max_iteration].
  destruct (int_to_float max_iteration) as [x|e];
    [|exists 0; split; [lia|reflexivity]].
  destruct (Z.eqb_spec L 0) as [H0|H0];
    [exists 0; split; [lia|reflexivity]|].
  unfold loop_bind at 1. unfold call_free at 1.
  destruct (ceil_quotient x L) as [max_epoch|e];
    [|exists 0; split; [lia|reflexivity]].
  unfold loop_bind at 1. unfold get_state at 1. cbn [st_epoch].
  replace (py_range_from 0 max_epoch)
    with (py_range_from 0 (0 + Z.of_nat (Z.to_nat max_epoch))).
  2:{ unfold py_range_from. f_equal. f_equal. lia. }
  destruct (@train_epochs_any ltac:(lia) (Z.to_nat max_epoch) 0
              {| st_iteration := 0; st_epoch := 0;
                 st_max_iteration := max_iteration |})
    as (evs & st' & r & stop & E & Hb & Ht).
  { left. reflexivity. }
  rewrite E. exists stop. split; [lia|]. exact Ht.
Qed.
End TrainLoopAlways.
